(** * The three-stage financial analysis chain of [streamlitapp.py]

    A shallow embedding of the orchestration code of the dashboard:
    the stage executor [run_gemini_stage], the chain
    [run_financial_analysis_chain], the media-type selection of the
    upload handler, and the library functions they rely on
    ([json.loads], [json.dumps(..., indent=2)], [str.format] and the
    [re.search] call that cuts the Stage-2 artifact).

    Python strings are sequences of Unicode code points and are modelled
    as lists of [N].  Timing ([time.sleep]) and spinners have no effect
    on the values computed and are left out. *)

From Stdlib Require Import String Ascii.
From Stdlib Require Import List NArith ZArith Lia Bool.
From Stdlib Require Import DecimalFacts DecimalPos DecimalN DecimalZ.
Import ListNotations.

Set Warnings "-register-all".
Open Scope N_scope.

(* ================================================================= *)
(** ** Python strings *)

Definition pystr := list N.

(** An ASCII literal as a Python string. *)
Definition py (s : string) : pystr := map N_of_ascii (list_ascii_of_string s).

(** The double quote cannot be written inside a literal, it is spliced in. *)
Definition dq : pystr := [34].

Fixpoint str_eqb (a b : pystr) : bool :=
  match a, b with
  | [], [] => true
  | x :: a', y :: b' => (x =? y) && str_eqb a' b'
  | _, _ => false
  end.

(** [strip_prefix p s] is [Some r] when [s = p ++ r]
    (the test [s[idx:idx+len(p)] == p] followed by [idx += len(p)]). *)
Fixpoint strip_prefix (p s : pystr) : option pystr :=
  match p with
  | [] => Some s
  | a :: p' =>
      match s with
      | b :: s' => if a =? b then strip_prefix p' s' else None
      | [] => None
      end
  end.

Definition startswith (p s : pystr) : bool :=
  match strip_prefix p s with Some _ => true | None => false end.

(** Truthiness of an optional string: [None] and [""] are falsy. *)
Definition truthy (o : option pystr) : option pystr :=
  match o with
  | Some (c :: s) => Some (c :: s)
  | _ => None
  end.

(** Code-point classes. *)
Definition is_high_surrogate (c : N) : bool := (0xd800 <=? c) && (c <=? 0xdbff).
Definition is_low_surrogate (c : N) : bool := (0xdc00 <=? c) && (c <=? 0xdfff).
Definition is_surrogate (c : N) : bool := (0xd800 <=? c) && (c <=? 0xdfff).

(** A Unicode scalar value: a code point that is not a surrogate. *)
Definition is_scalar (c : N) : bool := (c <? 0x110000) && negb (is_surrogate c).

(** Characters used by the JSON grammar. *)
Abbreviation QUOTE := 34 (only parsing).
Abbreviation BACKSLASH := 92 (only parsing).
Abbreviation SLASH := 47 (only parsing).
Abbreviation LBRACE := 123 (only parsing).
Abbreviation RBRACE := 125 (only parsing).
Abbreviation LBRACKET := 91 (only parsing).
Abbreviation RBRACKET := 93 (only parsing).
Abbreviation COLON := 58 (only parsing).
Abbreviation COMMA := 44 (only parsing).
Abbreviation MINUS := 45 (only parsing).
Abbreviation PLUS := 43 (only parsing).
Abbreviation DOT := 46 (only parsing).
Abbreviation SPACE := 32 (only parsing).
Abbreviation TAB := 9 (only parsing).
Abbreviation LF := 10 (only parsing).
Abbreviation CR := 13 (only parsing).
Abbreviation BS := 8 (only parsing).
Abbreviation FF := 12 (only parsing).
Abbreviation CH_0 := 48 (only parsing).
Abbreviation CH_9 := 57 (only parsing).
Abbreviation CH_e := 101 (only parsing).
Abbreviation CH_E := 69 (only parsing).
Abbreviation CH_u := 117 (only parsing).
Abbreviation CH_b := 98 (only parsing).
Abbreviation CH_f := 102 (only parsing).
Abbreviation CH_n := 110 (only parsing).
Abbreviation CH_r := 114 (only parsing).
Abbreviation CH_t := 116 (only parsing).

(* ================================================================= *)
(** ** The [json] module *)

(** The decoder follows [json.decoder] and [json.scanner], the encoder
    [json.encoder], as the standard library has them: the grammar
    accepted (with [NaN], [Infinity] and [-Infinity]), the value built,
    the text written with [indent=2], and the two limits of the
    interpreter that make a call raise something other than
    [JSONDecodeError]: the number of digits of an integer
    ([ValueError]) and the depth of nesting ([RecursionError]). *)

Module Json.

(** *** Floats

    [json.loads] hands the text of a number with a fraction or an
    exponent to [float], and [json.dumps] prints a finite float with
    [float.__repr__].  Both are primitives of the interpreter; the
    decoder and the encoder are written against this interface. *)

Inductive pyfloat (A : Type) : Type :=
| FNan
| FInf (negative : bool)
| FFin (x : A).
Arguments FNan {A}.
Arguments FInf {A} negative.
Arguments FFin {A} x.

Class PyFloat : Type := {
  finite : Type;
  float_of_str : pystr -> pyfloat finite;
  float_repr : finite -> pystr
}.

(** *** Values *)

Inductive value {F : PyFloat} : Type :=
| VNull
| VBool (b : bool)
| VInt (z : Z)
| VFloat (f : pyfloat finite)
| VStr (s : pystr)
| VList (l : list value)
| VDict (d : list (pystr * value)).

(** *** Limits of the interpreter

    [int(text)] and [int.__repr__] raise [ValueError] for a number of
    more digits than [sys.get_int_max_str_digits()]: 4300 unless set
    otherwise, 0 turning the check off; a number of up to 640 digits
    always passes.  The decoder raises [RecursionError] when it enters
    a list or an object with no room left on the stack, and so does the
    encoder.  How many levels fit depends on the interpreter and on the
    stack at the time of the call.  The decoder checks once for each
    container, so its room is a number of levels; the encoder runs a
    chain of generators and helper calls, and its room is taken as a
    predicate on the value. *)

Inductive PyError : Type := ValueError | RecursionError.

Class PyLimits {F : PyFloat} : Type := {
  int_max_str_digits : nat;
  decoder_depth : nat;
  encoder_fits : value -> bool
}.

(** The check of a number of [digits] digits against the limit. *)
Definition over_digit_limit {F : PyFloat} {Lim : PyLimits} (digits : nat) : bool :=
  (640 <? digits)%nat && (0 <? int_max_str_digits)%nat
  && (int_max_str_digits <? digits)%nat.

(** A [dict] keeps its keys in insertion order; assigning to a key that
    is present replaces the value where it stands. *)
Fixpoint dict_set {A : Type} (k : pystr) (v : A) (d : list (pystr * A))
  : list (pystr * A) :=
  match d with
  | [] => [(k, v)]
  | (k', v') :: d' =>
      if str_eqb k k' then (k, v) :: d' else (k', v') :: dict_set k v d'
  end.

Definition dict_of_pairs {A : Type} (pairs : list (pystr * A)) : list (pystr * A) :=
  fold_left (fun d kv => dict_set (fst kv) (snd kv) d) pairs [].

Fixpoint dict_get {A : Type} (k : pystr) (d : list (pystr * A)) : option A :=
  match d with
  | [] => None
  | (k', v) :: d' => if str_eqb k k' then Some v else dict_get k d'
  end.

(** *** Decoder results

    [DecodeError] stands for [JSONDecodeError], [Raise] for the two
    other exceptions. *)

Inductive res (A : Type) : Type :=
| Ok (a : A) (rest : pystr)
| DecodeError
| OutOfFuel
| Raise (e : PyError).
Arguments Ok {A} a rest.
Arguments DecodeError {A}.
Arguments OutOfFuel {A}.
Arguments Raise {A} e.

Definition bind {A B : Type} (r : res A) (k : A -> pystr -> res B) : res B :=
  match r with
  | Ok a rest => k a rest
  | DecodeError => DecodeError
  | OutOfFuel => OutOfFuel
  | Raise e => Raise e
  end.

Notation "'let*' ( x , r ) := e 'in' k" :=
  (bind e (fun x r => k))
  (at level 10, x name, r name, e at level 100, k at level 200).

(** *** Whitespace: space, tab, line feed and carriage return *)

Definition is_ws (c : N) : bool :=
  (c =? SPACE) || (c =? TAB) || (c =? LF) || (c =? CR).

Fixpoint skip_ws (s : pystr) : pystr :=
  match s with
  | c :: r => if is_ws c then skip_ws r else s
  | [] => []
  end.

(** *** Strings: [scanstring] *)

Definition hexval (c : N) : option N :=
  if (48 <=? c) && (c <=? 57) then Some (c - 48)
  else if (97 <=? c) && (c <=? 102) then Some (c - 87)
  else if (65 <=? c) && (c <=? 70) then Some (c - 55)
  else None.

(** [_decode_uXXXX]: four hexadecimal digits after the [u]. *)
Definition decode_uXXXX (s : pystr) : option (N * pystr) :=
  match s with
  | a :: b :: c :: d :: rest =>
      match hexval a, hexval b, hexval c, hexval d with
      | Some x3, Some x2, Some x1, Some x0 =>
          Some (x3 * 4096 + x2 * 256 + x1 * 16 + x0, rest)
      | _, _, _, _ => None
      end
  | _ => None
  end.

(** The [BACKSLASH] table of the decoder. *)
Definition backslash (esc : N) : option N :=
  if esc =? QUOTE then Some QUOTE
  else if esc =? BACKSLASH then Some BACKSLASH
  else if esc =? SLASH then Some SLASH
  else if esc =? CH_b then Some BS
  else if esc =? CH_f then Some FF
  else if esc =? CH_n then Some LF
  else if esc =? CH_r then Some CR
  else if esc =? CH_t then Some TAB
  else None.

Definition cons_res (c : N) (r : res pystr) : res pystr :=
  let* (s, rest) := r in Ok (c :: s) rest.

(** [scanstring_fuel fuel s] scans a string body, [s] starting just
    after the opening quote; every turn of the loop consumes input. *)
Fixpoint scanstring_fuel (fuel : nat) (s : pystr) : res pystr :=
  match fuel with
  | O => OutOfFuel
  | S fuel' =>
      match s with
      | [] => DecodeError
      | c :: rest =>
          if c =? QUOTE then Ok [] rest
          else if c =? BACKSLASH then
            match rest with
            | [] => DecodeError
            | esc :: rest1 =>
                if esc =? CH_u then
                  match decode_uXXXX rest1 with
                  | None => DecodeError
                  | Some (uni, rest2) =>
                      if is_high_surrogate uni then
                        match strip_prefix [BACKSLASH; CH_u] rest2 with
                        | Some rest3 =>
                            match decode_uXXXX rest3 with
                            | None => DecodeError
                            | Some (uni2, rest4) =>
                                if is_low_surrogate uni2 then
                                  cons_res
                                    (0x10000 +
                                     N.lor (N.shiftl (uni - 0xd800) 10) (uni2 - 0xdc00))
                                    (scanstring_fuel fuel' rest4)
                                else cons_res uni (scanstring_fuel fuel' rest2)
                            end
                        | None => cons_res uni (scanstring_fuel fuel' rest2)
                        end
                      else cons_res uni (scanstring_fuel fuel' rest2)
                  end
                else
                  match backslash esc with
                  | None => DecodeError
                  | Some ch => cons_res ch (scanstring_fuel fuel' rest1)
                  end
            end
          else if c <? 0x20 then DecodeError
          else cons_res c (scanstring_fuel fuel' rest)
      end
  end.

Definition scanstring (s : pystr) : res pystr :=
  scanstring_fuel (S (length s)) s.

(** *** Numbers

    [NUMBER_RE] has three groups: the integer (an optional minus, then
    a single zero or a non-zero digit followed by digits), an optional
    fraction (a dot and at least one digit) and an optional exponent
    (e or E, an optional sign, at least one digit). *)

Definition is_digit (c : N) : bool := (CH_0 <=? c) && (c <=? CH_9).
Arguments is_digit c : simpl never.

(** The longest run of digits at the head of [s], and what follows. *)
Fixpoint span_digits (s : pystr) : pystr * pystr :=
  match s with
  | c :: r =>
      if is_digit c then let (ds, r') := span_digits r in (c :: ds, r')
      else ([], s)
  | [] => ([], [])
  end.

Definition match_sign (s : pystr) : pystr * pystr :=
  match s with
  | c :: r => if c =? MINUS then ([MINUS], r) else ([], s)
  | [] => ([], [])
  end.

Definition match_integer (s : pystr) : option (pystr * pystr) :=
  let (sign, s1) := match_sign s in
  match s1 with
  | c :: r =>
      if c =? CH_0 then Some (sign ++ [CH_0], r)
      else if is_digit c then
        let (ds, r') := span_digits r in Some (sign ++ c :: ds, r')
      else None
  | [] => None
  end.

Definition match_frac (s : pystr) : pystr * pystr :=
  match s with
  | c :: r =>
      if c =? DOT then
        match span_digits r with
        | ([], _) => ([], s)
        | (ds, r') => (DOT :: ds, r')
        end
      else ([], s)
  | [] => ([], [])
  end.

Definition match_exp (s : pystr) : pystr * pystr :=
  match s with
  | c :: r =>
      if (c =? CH_e) || (c =? CH_E) then
        let (sign, r1) :=
          match r with
          | c1 :: r1 => if (c1 =? MINUS) || (c1 =? PLUS) then ([c1], r1) else ([], r)
          | [] => ([], [])
          end in
        match span_digits r1 with
        | ([], _) => ([], s)
        | (ds, r') => (c :: sign ++ ds, r')
        end
      else ([], s)
  | [] => ([], [])
  end.

(** The groups [(integer, frac, exp)] of a match at the head of [s]. *)
Definition match_number (s : pystr) : option (pystr * pystr * pystr * pystr) :=
  match match_integer s with
  | None => None
  | Some (integer, s1) =>
      let (frac, s2) := match_frac s1 in
      let (exp, s3) := match_exp s2 in
      Some (integer, frac, exp, s3)
  end.

(** [int(text)] on the integer group. *)
Definition digit_of (c : N) (u : Decimal.uint) : Decimal.uint :=
  if c =? 48 then Decimal.D0 u
  else if c =? 49 then Decimal.D1 u
  else if c =? 50 then Decimal.D2 u
  else if c =? 51 then Decimal.D3 u
  else if c =? 52 then Decimal.D4 u
  else if c =? 53 then Decimal.D5 u
  else if c =? 54 then Decimal.D6 u
  else if c =? 55 then Decimal.D7 u
  else if c =? 56 then Decimal.D8 u
  else Decimal.D9 u.

Definition uint_of_chars (s : pystr) : Decimal.uint :=
  fold_right digit_of Decimal.Nil s.

Definition int_of_str (s : pystr) : Z :=
  match s with
  | c :: r =>
      if c =? MINUS then Z.of_int (Decimal.Neg (uint_of_chars r))
      else Z.of_int (Decimal.Pos (uint_of_chars s))
  | [] => 0%Z
  end.

(** The digits of a text: what the limit on integers counts. *)
Definition count_digits (s : pystr) : nat := length (filter is_digit s).

(** *** Values: [scan_once], [JSONArray], [JSONObject] *)

Section Decoder.
Context {F : PyFloat} {Lim : PyLimits}.

Section Containers.
Variable scan : pystr -> res value.

(** The loop of [JSONArray]; [s] stands at the start of an element. *)
Fixpoint array_items (fuel : nat) (s : pystr) : res (list value) :=
  match fuel with
  | O => OutOfFuel
  | S fuel' =>
      let* (v, r) := scan s in
      match skip_ws r with
      | c :: r' =>
          if c =? RBRACKET then Ok [v] r'
          else if c =? COMMA then
            let* (vs, r'') := array_items fuel' (skip_ws r') in Ok (v :: vs) r''
          else DecodeError
      | [] => DecodeError
      end
  end.

Definition JSONArray (fuel : nat) (s : pystr) : res value :=
  match skip_ws s with
  | c :: r =>
      if c =? RBRACKET then Ok (VList []) r
      else let* (vs, r') := array_items fuel (c :: r) in Ok (VList vs) r'
  | [] => DecodeError
  end.

(** The loop of [JSONObject]; [s] stands just after the opening quote
    of a key. *)
Fixpoint object_items (fuel : nat) (s : pystr) : res (list (pystr * value)) :=
  match fuel with
  | O => OutOfFuel
  | S fuel' =>
      let* (key, r) := scanstring s in
      match skip_ws r with
      | c :: r1 =>
          if c =? COLON then
            let* (v, r2) := scan (skip_ws r1) in
            match skip_ws r2 with
            | c2 :: r3 =>
                if c2 =? RBRACE then Ok [(key, v)] r3
                else if c2 =? COMMA then
                  match skip_ws r3 with
                  | c3 :: r4 =>
                      if c3 =? QUOTE then
                        let* (kvs, r5) := object_items fuel' r4 in
                        Ok ((key, v) :: kvs) r5
                      else DecodeError
                  | [] => DecodeError
                  end
                else DecodeError
            | [] => DecodeError
            end
          else DecodeError
      | [] => DecodeError
      end
  end.

Definition JSONObject (fuel : nat) (s : pystr) : res value :=
  match skip_ws s with
  | c :: r =>
      if c =? RBRACE then Ok (VDict []) r
      else if c =? QUOTE then
        let* (pairs, r') := object_items fuel r in
        Ok (VDict (dict_of_pairs pairs)) r'
      else DecodeError
  | [] => DecodeError
  end.

End Containers.

Definition scan_number (s : pystr) : res value :=
  match match_number s with
  | Some (integer, frac, exp, rest) =>
      match frac, exp with
      | [], [] =>
          if over_digit_limit (count_digits integer) then Raise ValueError
          else Ok (VInt (int_of_str integer)) rest
      | _, _ => Ok (VFloat (float_of_str (integer ++ frac ++ exp))) rest
      end
  | None =>
      match strip_prefix (py "NaN") s with
      | Some rest => Ok (VFloat FNan) rest
      | None =>
          match strip_prefix (py "Infinity") s with
          | Some rest => Ok (VFloat (FInf false)) rest
          | None =>
              match strip_prefix (py "-Infinity") s with
              | Some rest => Ok (VFloat (FInf true)) rest
              | None => DecodeError
              end
          end
      end
  end.

(** [scan_once] at nesting [depth]: the number of lists and objects
    around the value being read.  Entering one more raises
    [RecursionError] when the room of the decoder is used up. *)
Fixpoint scan_once (fuel depth : nat) (s : pystr) : res value :=
  match fuel with
  | O => OutOfFuel
  | S fuel' =>
      match s with
      | [] => DecodeError
      | c :: rest =>
          if c =? QUOTE then
            let* (str, r) := scanstring rest in Ok (VStr str) r
          else if c =? LBRACE then
            if (decoder_depth <=? depth)%nat then Raise RecursionError
            else JSONObject (scan_once fuel' (S depth)) fuel' rest
          else if c =? LBRACKET then
            if (decoder_depth <=? depth)%nat then Raise RecursionError
            else JSONArray (scan_once fuel' (S depth)) fuel' rest
          else
            match strip_prefix (py "null") s with
            | Some r => Ok VNull r
            | None =>
                match strip_prefix (py "true") s with
                | Some r => Ok (VBool true) r
                | None =>
                    match strip_prefix (py "false") s with
                    | Some r => Ok (VBool false) r
                    | None => scan_number s
                    end
                end
            end
      end
  end.

(** What a call of [json.loads] does: it returns a value, raises
    [JSONDecodeError], or raises one of the two other exceptions. *)
Inductive loaded : Type :=
| Loaded (v : value)
| JSONDecodeError
| OtherError (e : PyError).

(** [json.loads(s)] for a [str].  The recursion is on a fuel that the
    length of the text bounds ([json_loads_fuel] below): the decoder
    never runs out of it. *)
Definition json_loads (s : pystr) : loaded :=
  if startswith [0xfeff] s then JSONDecodeError
  else
    match scan_once (S (length s)) 0 (skip_ws s) with
    | Ok v rest =>
        match skip_ws rest with
        | [] => Loaded v
        | _ :: _ => JSONDecodeError
        end
    | Raise e => OtherError e
    | DecodeError | OutOfFuel => JSONDecodeError
    end.

End Decoder.

(** *** Encoder: [json.dumps(obj, indent=2)]

    With [indent=2] the item separator is a comma, the key separator a
    colon and a space, and [ensure_ascii] is on. *)

Definition hex_digit (n : N) : N := if n <? 10 then 48 + n else 87 + n.

(** A backslash, [u] and four lower-case hexadecimal digits. *)
Definition u_escape (n : N) : pystr :=
  [BACKSLASH; CH_u; hex_digit (n / 4096 mod 16); hex_digit (n / 256 mod 16);
   hex_digit (n / 16 mod 16); hex_digit (n mod 16)].

(** The replacement made by [encode_basestring_ascii] for one character:
    printable ASCII other than the quote and the backslash stays. *)
Definition escape_char (c : N) : pystr :=
  if c =? BACKSLASH then [BACKSLASH; BACKSLASH]
  else if c =? QUOTE then [BACKSLASH; QUOTE]
  else if (SPACE <=? c) && (c <=? 126) then [c]
  else if c =? BS then [BACKSLASH; CH_b]
  else if c =? FF then [BACKSLASH; CH_f]
  else if c =? LF then [BACKSLASH; CH_n]
  else if c =? CR then [BACKSLASH; CH_r]
  else if c =? TAB then [BACKSLASH; CH_t]
  else if c <? 0x10000 then u_escape c
  else
    let n := c - 0x10000 in
    u_escape (N.lor 0xd800 (N.land (N.shiftr n 10) 0x3ff))
      ++ u_escape (N.lor 0xdc00 (N.land n 0x3ff)).

Definition encode_basestring_ascii (s : pystr) : pystr :=
  QUOTE :: flat_map escape_char s ++ [QUOTE].

Fixpoint chars_of_uint (u : Decimal.uint) : pystr :=
  match u with
  | Decimal.Nil => []
  | Decimal.D0 u' => 48 :: chars_of_uint u'
  | Decimal.D1 u' => 49 :: chars_of_uint u'
  | Decimal.D2 u' => 50 :: chars_of_uint u'
  | Decimal.D3 u' => 51 :: chars_of_uint u'
  | Decimal.D4 u' => 52 :: chars_of_uint u'
  | Decimal.D5 u' => 53 :: chars_of_uint u'
  | Decimal.D6 u' => 54 :: chars_of_uint u'
  | Decimal.D7 u' => 55 :: chars_of_uint u'
  | Decimal.D8 u' => 56 :: chars_of_uint u'
  | Decimal.D9 u' => 57 :: chars_of_uint u'
  end.

(** [int.__repr__] *)
Definition intstr (z : Z) : pystr :=
  match Z.to_int z with
  | Decimal.Pos u => chars_of_uint u
  | Decimal.Neg u => MINUS :: chars_of_uint u
  end.

Definition newline_indent (lvl : nat) : pystr := LF :: repeat SPACE (2 * lvl).

Fixpoint join (sep : pystr) (chunks : list pystr) : pystr :=
  match chunks with
  | [] => []
  | c :: cs =>
      match cs with
      | [] => c
      | _ :: _ => c ++ sep ++ join sep cs
      end
  end.

Section Encoder.
Context {F : PyFloat}.

Definition floatstr (f : pyfloat finite) : pystr :=
  match f with
  | FNan => py "NaN"
  | FInf false => py "Infinity"
  | FInf true => py "-Infinity"
  | FFin x => float_repr x
  end.

(** [_iterencode] at nesting level [lvl], its chunks concatenated. *)
Fixpoint iterencode (lvl : nat) (o : value) : pystr :=
  match o with
  | VStr s => encode_basestring_ascii s
  | VNull => py "null"
  | VBool true => py "true"
  | VBool false => py "false"
  | VInt z => intstr z
  | VFloat f => floatstr f
  | VList [] => py "[]"
  | VList l =>
      LBRACKET :: newline_indent (S lvl)
        ++ join (COMMA :: newline_indent (S lvl)) (map (iterencode (S lvl)) l)
        ++ newline_indent lvl ++ [RBRACKET]
  | VDict [] => py "{}"
  | VDict d =>
      LBRACE :: newline_indent (S lvl)
        ++ join (COMMA :: newline_indent (S lvl))
             (map (fun kv => encode_basestring_ascii (fst kv)
                               ++ [COLON; SPACE] ++ iterencode (S lvl) (snd kv)) d)
        ++ newline_indent lvl ++ [RBRACE]
  end.

(** The text that [json.dumps(o, indent=2)] returns, when it returns. *)
Definition json_dumps (o : value) : pystr := iterencode 0 o.

End Encoder.

Section ValueLimits.
Context {F : PyFloat} {Lim : PyLimits}.

(** [int.__repr__] can print [z]. *)
Definition int_fits (z : Z) : bool :=
  negb (over_digit_limit (count_digits (intstr z))).

Fixpoint ints_fit (o : value) : bool :=
  match o with
  | VInt z => int_fits z
  | VList l => forallb ints_fit l
  | VDict d => forallb (fun kv => ints_fit (snd kv)) d
  | _ => true
  end.

(** Whether the call [json.dumps(o, indent=2)] returns: it raises
    [ValueError] at an integer that cannot be printed and
    [RecursionError] when the encoder has no room for [o]. *)
Definition dumps_returns (o : value) : bool := ints_fit o && encoder_fits o.

(** The call itself: [None] when it raises. *)
Definition dumps_call (o : value) : option pystr :=
  if dumps_returns o then Some (json_dumps o) else None.

(** What the decoder can read back at nesting [depth]: the integers can
    be converted and the containers entered. *)
Fixpoint within_limits (depth : nat) (o : value) : bool :=
  match o with
  | VInt z => int_fits z
  | VList l =>
      (depth <? decoder_depth)%nat && forallb (within_limits (S depth)) l
  | VDict d =>
      (depth <? decoder_depth)%nat
      && forallb (fun kv => within_limits (S depth) (snd kv)) d
  | _ => true
  end.

End ValueLimits.

(** *** Views used to relate the encoder and the decoder *)

(** What may follow the escape of a lone high surrogate: not the
    escape of a low surrogate. *)
Definition no_low_escape (s : pystr) : Prop :=
  match strip_prefix [BACKSLASH; CH_u] s with
  | None => True
  | Some r3 =>
      exists u2 r4, decode_uXXXX r3 = Some (u2, r4) /\ is_low_surrogate u2 = false
  end.

(** The branch of [escape_char] taken for a character. *)
Inductive escape_view (c : N) : pystr -> Prop :=
| esc_simple esc :
    (esc =? CH_u) = false -> backslash esc = Some c ->
    escape_view c [BACKSLASH; esc]
| esc_raw :
    (c =? QUOTE) = false -> (c =? BACKSLASH) = false -> (c <? 0x20) = false ->
    escape_view c [c]
| esc_u : c < 0x10000 -> escape_view c (u_escape c)
| esc_pair :
    0x10000 <= c -> c < 0x110000 ->
    escape_view c
      (u_escape (N.lor 0xd800 (N.land (N.shiftr (c - 0x10000) 10) 0x3ff))
         ++ u_escape (N.lor 0xdc00 (N.land (c - 0x10000) 0x3ff))).

(** The characters with which a JSON value can start. *)
Definition value_start (c : N) : bool :=
  (c =? QUOTE) || (c =? LBRACE) || (c =? LBRACKET) || (c =? MINUS) || is_digit c
  || (c =? CH_n) || (c =? CH_t) || (c =? CH_f) || (c =? 78) || (c =? 73).

(** What [json.dumps] writes: line feeds and printable ASCII. *)
Definition is_plain (c : N) : bool := (c =? LF) || ((SPACE <=? c) && (c <=? 126)).

(** Where a number ends: at the end of the text or before a character
    that cannot continue it. *)
Definition number_stop (rest : pystr) : bool :=
  match rest with
  | [] => true
  | c :: _ =>
      negb (is_digit c || (c =? DOT) || (c =? CH_e) || (c =? CH_E)
            || (c =? PLUS) || (c =? MINUS))
  end.

(** *** What the interpreter guarantees about [float]

    The [repr] of a finite float is a number of the JSON grammar with a
    fraction or an exponent, and reading it back gives the same float. *)

Definition is_float_literal (t : pystr) : bool :=
  match match_number t with
  | Some (_, frac, exp, []) =>
      match frac, exp with
      | [], [] => false
      | _, _ => true
      end
  | _ => false
  end.

Class PyFloatLaws (F : PyFloat) : Prop := {
  float_repr_literal : forall x : finite, is_float_literal (float_repr x) = true;
  float_repr_roundtrip : forall x : finite, float_of_str (float_repr x) = FFin x
}.

(** *** Values that a text of Unicode scalar values can denote

    In such a value a string holds code points, and no high surrogate
    is directly followed by a low surrogate (the decoder joins the two
    escapes into one character); the keys of an object are distinct. *)

Fixpoint no_surrogate_pair (s : pystr) : bool :=
  match s with
  | [] => true
  | c :: t =>
      match t with
      | [] => true
      | c' :: _ => negb (is_high_surrogate c && is_low_surrogate c')
      end && no_surrogate_pair t
  end.

Definition str_ok (s : pystr) : bool :=
  forallb (fun c => c <? 0x110000) s && no_surrogate_pair s.

Fixpoint distinct (ks : list pystr) : bool :=
  match ks with
  | [] => true
  | k :: r => negb (existsb (str_eqb k) r) && distinct r
  end.

Fixpoint well_formed {F : PyFloat} (v : value) : bool :=
  match v with
  | VStr s => str_ok s
  | VList l => forallb well_formed l
  | VDict d =>
      distinct (map fst d)
        && forallb (fun kv => str_ok (fst kv) && well_formed (snd kv)) d
  | _ => true
  end.

(** A text of Unicode scalar values. *)
Definition scalar (s : pystr) : Prop := forallb is_scalar s = true.

(** [keeps r s]: [r] is what is left of [s] after reading some of it. *)
Definition keeps (r s : pystr) : Prop :=
  (length r <= length s)%nat /\ (scalar s -> scalar r).

(** [shrinks r s]: the same, at least one character having been read. *)
Definition shrinks (r s : pystr) : Prop :=
  (length r < length s)%nat /\ (scalar s -> scalar r).

(** One turn of the loop of [scanstring]: from [s] it appends [c] and
    goes on with [rest]. *)
Inductive token : pystr -> N -> pystr -> Prop :=
| tok_raw c rest :
    (c =? QUOTE) = false -> (c =? BACKSLASH) = false -> (c <? 0x20) = false ->
    token (c :: rest) c rest
| tok_simple esc ch rest :
    (esc =? CH_u) = false -> backslash esc = Some ch ->
    token (BACKSLASH :: esc :: rest) ch rest
| tok_u uni rest1 rest2 :
    decode_uXXXX rest1 = Some (uni, rest2) ->
    (is_high_surrogate uni = true -> no_low_escape rest2) ->
    token (BACKSLASH :: CH_u :: rest1) uni rest2
| tok_pair uni uni2 rest1 rest2 rest3 rest4 :
    decode_uXXXX rest1 = Some (uni, rest2) ->
    is_high_surrogate uni = true ->
    strip_prefix [BACKSLASH; CH_u] rest2 = Some rest3 ->
    decode_uXXXX rest3 = Some (uni2, rest4) ->
    is_low_surrogate uni2 = true ->
    token (BACKSLASH :: CH_u :: rest1)
      (0x10000 + N.lor (N.shiftl (uni - 0xd800) 10) (uni2 - 0xdc00)) rest4.

Section Views.
Context {F : PyFloat} {Lim : PyLimits}.

(** A scanner that consumes input and builds well-formed values from
    texts of scalar values. *)
Definition good_scan (scan : pystr -> res value) : Prop :=
  forall s v r, scan s = Ok v r ->
                shrinks r s /\ (scalar s -> well_formed v = true).

(** [reads_back v]: at any nesting level where [v] is within the
    limits, with enough fuel and before any text that cannot continue
    a number, the decoder reads [v] back from its encoding and stops
    right after it. *)
Definition reads_back (v : value) : Prop :=
  forall (lvl fuel depth : nat) (rest : pystr),
    number_stop rest = true ->
    (length (iterencode lvl v ++ rest) < fuel)%nat ->
    within_limits depth v = true ->
    scan_once fuel depth (iterencode lvl v ++ rest) = Ok v rest.

(** An item of an object as the encoder writes it, and the same
    without its opening quote. *)
Definition object_item (lvl : nat) (kv : pystr * value) : pystr :=
  encode_basestring_ascii (fst kv) ++ [COLON; SPACE] ++ iterencode (S lvl) (snd kv).

Definition object_item_body (lvl : nat) (kv : pystr * value) : pystr :=
  flat_map escape_char (fst kv)
    ++ QUOTE :: COLON :: SPACE :: iterencode (S lvl) (snd kv).

End Views.

(** *** Exact decimal floats

    An implementation of the float interface with unbounded precision:
    a number is kept as mantissa and decimal exponent, and printed in
    exponent form.  It makes the decoder and the encoder executable. *)

Record decfloat : Type := { mantissa : Z; exponent : Z }.

Definition exponent_of_group (exp : pystr) : Z :=
  match exp with
  | _ :: c :: r => if c =? PLUS then int_of_str r else int_of_str (c :: r)
  | _ => 0%Z
  end.

Definition dec_of_str (s : pystr) : pyfloat decfloat :=
  match match_number s with
  | Some (integer, frac, exp, _) =>
      FFin {| mantissa := int_of_str (integer ++ tl frac);
              exponent := exponent_of_group exp - Z.of_nat (length (tl frac)) |}
  | None => FNan
  end.

Definition dec_repr (x : decfloat) : pystr :=
  intstr (mantissa x) ++ CH_e :: intstr (exponent x).

#[export] Instance DecimalFloat : PyFloat :=
  {| finite := decfloat; float_of_str := dec_of_str; float_repr := dec_repr |}.

End Json.

Import Json.

(* ================================================================= *)
(** ** [str.format] with keyword arguments

    The templates use replacement fields that are plain names, without
    conversion or format specification; doubled braces stand for a
    brace.  [None] stands for the exception raised on a single brace or
    an unknown field. *)

Fixpoint format_go (kwargs : pystr -> option pystr) (s : pystr)
    (field : option pystr) : option pystr :=
  match s with
  | [] =>
      match field with
      | None => Some []
      | Some _ => None
      end
  | c :: r =>
      match field with
      | Some name =>
          if c =? RBRACE then
            match kwargs (rev name) with
            | Some v => option_map (app v) (format_go kwargs r None)
            | None => None
            end
          else if c =? LBRACE then None
          else format_go kwargs r (Some (c :: name))
      | None =>
          if c =? LBRACE then
            match r with
            | c' :: r' =>
                if c' =? LBRACE then option_map (cons LBRACE) (format_go kwargs r' None)
                else format_go kwargs r (Some [])
            | [] => None
            end
          else if c =? RBRACE then
            match r with
            | c' :: r' =>
                if c' =? RBRACE then option_map (cons RBRACE) (format_go kwargs r' None)
                else None
            | [] => None
            end
          else option_map (cons c) (format_go kwargs r None)
      end
  end.

(** [template.format(name=v)] *)
Definition py_format (template name v : pystr) : option pystr :=
  format_go (fun k => if str_eqb k name then Some v else None) template None.

(* ================================================================= *)
(** ** The [re.search] call of Stage 2

    The pattern is a literal, then any characters (greedy), then a
    literal, the whole in one group.  The engine tries the start
    positions from the left; at a position the greedy loop first takes
    as much as it can and gives characters back until the closing
    literal matches. *)

Module Re.

(** The text matched by "any characters, then [lit]" at the head of [s]. *)
Fixpoint match_any_then (lit s : pystr) : option pystr :=
  match
    match s with
    | [] => None
    | c :: r => option_map (cons c) (match_any_then lit r)
    end
  with
  | Some m => Some m
  | None => if startswith lit s then Some lit else None
  end.

Definition match_at (op cl s : pystr) : option pystr :=
  match strip_prefix op s with
  | Some r => option_map (app op) (match_any_then cl r)
  | None => None
  end.

(** [re.search] for [op], anything, [cl]: the text of group 1. *)
Fixpoint search (op cl s : pystr) : option pystr :=
  match match_at op cl s with
  | Some m => Some m
  | None =>
      match s with
      | [] => None
      | _ :: r => search op cl r
      end
  end.

(** [s.find(pat)] and [s.rfind(pat)]: the first and the last index at
    which [pat] occurs. *)
Fixpoint find (pat s : pystr) : option nat :=
  if startswith pat s then Some 0%nat
  else
    match s with
    | [] => None
    | _ :: r => option_map S (find pat r)
    end.

Fixpoint rfind (pat s : pystr) : option nat :=
  match
    match s with
    | [] => None
    | _ :: r => option_map S (rfind pat r)
    end
  with
  | Some k => Some k
  | None => if startswith pat s then Some 0%nat else None
  end.

End Re.

(* ================================================================= *)
(** ** Schema and prompt templates *)

Inductive FieldType : Type := TFloat | TStr | TListStr.

(** The fields of the [FinancialMetrics] model, in declaration order
    (the descriptions are left out). *)
Definition FinancialMetrics : list (pystr * FieldType) :=
  [ (py "revenue_current_period", TFloat);
    (py "revenue_previous_period", TFloat);
    (py "net_income_current_period", TFloat);
    (py "net_income_previous_period", TFloat);
    (py "gross_margin_percentage", TFloat);
    (py "operating_expense_total", TFloat);
    (py "cash_from_operations", TFloat);
    (py "total_debt", TFloat);
    (py "cash_and_equivalents", TFloat);
    (py "management_summary", TStr);
    (py "risk_factors", TListStr);
    (py "future_outlook_statement", TStr) ].

(** [FinancialMetrics.model_json_schema()]: every field is required. *)
Record Schema : Type := {
  schema_title : pystr;
  schema_properties : list (pystr * FieldType);
  schema_required : list pystr
}.

Definition STAGE_1_SCHEMA : Schema :=
  {| schema_title := py "FinancialMetrics";
     schema_properties := FinancialMetrics;
     schema_required := map fst FinancialMetrics |}.

Definition MODEL_NAME : pystr := py "gemini-2.5-pro".

Definition STAGE_1_PROMPT : pystr :=
  py "
You are a highly meticulous Financial Data Analyst. Your sole function is to analyze the provided financial report (PDF, TXT, or MD) and extract the exact values for the specified metrics.

CRITICAL INSTRUCTION: Analyze the entire document, including tables, figures, and narrative text, to locate the requested data points. Provide the values as pure numbers (e.g., 550.5 for $550.5 Million, 0.40 for 40%).

Your output MUST be a JSON object that strictly adheres to the provided schema. DO NOT add any introductory or explanatory text. If a metric is not found, use 0 for numbers or an empty string for text.
".

Definition STAGE_2_PROMPT_TEMPLATE : pystr :=
  py "
<System_Prompt>
You are a Senior Financial Strategist. Your task is to perform a detailed financial analysis based solely on the extracted structured data provided in the <Extracted_Data_JSON> tag. Your analysis must follow a structured, step-by-step reasoning process (Chain-of-Thought) to ensure numerical accuracy before drawing conclusions.
</System_Prompt>

<Extracted_Data_JSON>
{extracted_data_placeholder}
</Extracted_Data_JSON>

<Instructions>
First, complete the required reasoning steps in the <Chain_of_Thought> section. Then, use the output of that reasoning to fill the <Intermediate_Analysis> section.

<Chain_of_Thought>
1. **Growth Calculation:** Calculate the Quarter-over-Quarter Revenue Growth Rate (Formula: (Current Revenue - Previous Revenue) / Previous Revenue * 100%). Use the numbers from the JSON.
2. **Profitability Check:** Calculate the Operating Margin (Net Income / Revenue).
3. **Liquidity Assessment:** Comment on the immediate liquidity trend by comparing Cash vs. Total Debt.
4. **Synthesize Work:** Cross-reference the calculated financial trends (growth/margin) with the Management Summary and Risk Factors. What single, major theme connects the financials to the management commentary?
</Chain_of_Thought>

<Intermediate_Analysis>
1. **Revenue & Growth:** [Summary of growth calculation and trend.]
2. **Profitability:** [Summary of operating margin and what Net Income trend reveals.]
3. **Risk Synthesis:** [Detailed note on how the calculated financial health is impacted by the identified risk factors.]
4. **Work Done Assessment (The " ++ dq
  ++ py "Why" ++ dq
  ++ py "):** [Based on the MD&A summary and financial trends, provide a single paragraph assessing the effectiveness of the *work done* by the company during the period.]
</Intermediate_Analysis>
".

Definition STAGE_3_PROMPT_TEMPLATE : pystr :=
  py "
<System_Prompt>
You are the CEO's Chief of Staff. Your final task is to condense the entire analysis (provided in the <Full_Analysis_Data> tag) into a three-part, executive-ready final report.
Tone: Professional, direct, and forward-looking.
Output: The final response MUST use Markdown headings (#) and bullet points. DO NOT use any XML tags in your final output.
</System_Prompt>

<Full_Analysis_Data>
{full_analysis_data_placeholder}
</Full_Analysis_Data>

**FINAL REPORT SECTIONS:**

# Executive Summary
**Max 3 Sentences.** Summarize the period's overall performance, highlighting the main success and the primary challenge/risk.

# Key Insights and Work Assessment
Use bullet points to present three distinct insights. One must specifically assess the effectiveness of the *work done* by the company during the period.

# Strategic Suggestions for Next Period
Use bullet points to provide three distinct, actionable, and measurable suggestions for the management team, logically derived from the insights.
".

Definition OPEN_MARKER : pystr := py "<Chain_of_Thought>".
Definition CLOSE_MARKER : pystr := py "</Intermediate_Analysis>".

(* ================================================================= *)
(** ** The model provider and the user interface *)

Inductive Part : Type :=
| PartBytes (data : list N) (mime_type : pystr)
| PartText (text : pystr).

Record GenerateContentConfig : Type := {
  response_mime_type : option pystr;
  response_schema : option Schema;
  max_output_tokens : option N
}.

Record Request : Type := {
  req_model : pystr;
  req_contents : list Part;
  req_config : GenerateContentConfig
}.

(** What [client.models.generate_content(...)] followed by [.text] does:
    it raises, or yields the text of the response, which may be [None]. *)
Inductive Outcome : Type :=
| Raises (message : pystr)
| Responds (text : option pystr).

(** The provider is an opaque remote service: its answer may depend on
    every request it has received before. *)
Definition Provider : Type := list Request -> Request -> Outcome.

Inductive UiEvent : Type :=
| StError (message : pystr)
| StCode (body language : pystr)
| StSuccess (message : pystr)
| StException (message : pystr).

Record World : Type := {
  calls : list Request;
  ui : list UiEvent
}.

(** An uploaded file: its name, the content type it reports, and the
    bytes that [read()] returns. *)
Record UploadedFile : Type := {
  file_name : pystr;
  file_type : pystr;
  file_bytes : list N
}.

(** *** Computations: state passing, with uncaught exceptions *)

Inductive result (A : Type) : Type :=
| Return (a : A)
| Uncaught.
Arguments Return {A} a.
Arguments Uncaught {A}.

Definition M (A : Type) : Type := World -> result A * World.

Definition ret {A : Type} (a : A) : M A := fun w => (Return a, w).

Definition mbind {A B : Type} (m : M A) (k : A -> M B) : M B :=
  fun w =>
    match m w with
    | (Return a, w') => k a w'
    | (Uncaught, w') => (Uncaught, w')
    end.

Notation "x <- m ;; k" := (mbind m (fun x => k))
  (at level 61, m at next level, right associativity).
Notation "m ;;; k" := (mbind m (fun _ => k))
  (at level 61, right associativity).

Definition st_emit (e : UiEvent) : M unit :=
  fun w => (Return tt, {| calls := calls w; ui := ui w ++ [e] |}).

(** An exception that nothing catches. *)
Definition uncaught {A : Type} : M A := fun w => (Uncaught, w).

(** A library call that may raise. *)
Definition lift_option {A : Type} (o : option A) : M A :=
  fun w =>
    match o with
    | Some a => (Return a, w)
    | None => (Uncaught, w)
    end.

(** *** Section 3: the stage executor *)

Inductive Contents : Type :=
| ContentsList (l : list Part)
| ContentsPart (p : Part).

Definition default_config : GenerateContentConfig :=
  {| response_mime_type := None; response_schema := None;
     max_output_tokens := Some 4096 |}.

Section Chain.
Context {F : PyFloat} {Lim : PyLimits}.
Variable provider : Provider.

Definition generate_content (rq : Request) : M Outcome :=
  fun w => (Return (provider (calls w) rq),
            {| calls := calls w ++ [rq]; ui := ui w |}).

Definition build_request (prompt_template : pystr) (contents : Contents)
    (config : option GenerateContentConfig) : Request :=
  let parts :=
    match contents with
    | ContentsList l => l
    | ContentsPart p => [p]
    end in
  {| req_model := MODEL_NAME;
     req_contents := parts ++ [PartText prompt_template];
     req_config := match config with Some c => c | None => default_config end |}.

(** [run_gemini_stage]: the [try] block covers the call and the read of
    [response.text]; the handler shows the error with [st.exception]
    and returns [None]. *)
Definition run_gemini_stage (prompt_template : pystr) (contents : Contents)
    (config : option GenerateContentConfig) : M (option pystr) :=
  o <- generate_content (build_request prompt_template contents config) ;;
  match o with
  | Responds text => ret text
  | Raises e =>
      st_emit (StException (py "API Error during stage execution: " ++ e)) ;;;
      ret None
  end.

(** *** Section 4: the chain *)

Definition stage1_config : GenerateContentConfig :=
  {| response_mime_type := Some (py "application/json");
     response_schema := Some STAGE_1_SCHEMA;
     max_output_tokens := None |}.

(** The match of line 199 and the choice of line 200. *)
Definition extract_intermediate (stage2_output : pystr) : pystr :=
  match Re.search OPEN_MARKER CLOSE_MARKER stage2_output with
  | Some group1 => group1
  | None => stage2_output
  end.

Definition full_analysis_data (extracted_data_json intermediate_analysis : pystr)
  : pystr :=
  py "STAGE 1 DATA:" ++ [LF] ++ extracted_data_json ++ [LF; LF]
    ++ py "STAGE 2 ANALYSIS:" ++ [LF] ++ intermediate_analysis.

(** The [try] of lines 178 to 183 covers [json.loads] and [json.dumps]
    and catches [json.JSONDecodeError] only: any other exception of
    the two calls leaves the chain. *)
Definition run_financial_analysis_chain (uploaded_file : UploadedFile)
    (file_mime_type : pystr) : M (option (pystr * pystr * pystr)) :=
  let file_part := PartBytes (file_bytes uploaded_file) file_mime_type in
  json_output <- run_gemini_stage STAGE_1_PROMPT (ContentsPart file_part)
                   (Some stage1_config) ;;
  match truthy json_output with
  | None => ret None
  | Some json_output =>
      match json_loads json_output with
      | JSONDecodeError =>
          st_emit (StError (py "Stage 1 failed: Gemini did not return valid JSON. Check document structure.")) ;;;
          st_emit (StCode json_output (py "json")) ;;;
          ret None
      | OtherError _ => uncaught
      | Loaded parsed =>
          extracted_data_json <- lift_option (dumps_call parsed) ;;
          st_emit (StSuccess (py "Stage 1 Complete: Structured Data Extracted.")) ;;;
          stage2_full_prompt <-
            lift_option (py_format STAGE_2_PROMPT_TEMPLATE
                           (py "extracted_data_placeholder") extracted_data_json) ;;
          stage2_output <- run_gemini_stage stage2_full_prompt (ContentsList []) None ;;
          match truthy stage2_output with
          | None => ret None
          | Some stage2_output =>
              st_emit (StSuccess (py "Stage 2 Complete: Analysis Ready.")) ;;;
              let intermediate_analysis := extract_intermediate stage2_output in
              stage3_full_prompt <-
                lift_option (py_format STAGE_3_PROMPT_TEMPLATE
                               (py "full_analysis_data_placeholder")
                               (full_analysis_data extracted_data_json
                                  intermediate_analysis)) ;;
              final_report_markdown <-
                run_gemini_stage stage3_full_prompt (ContentsList []) None ;;
              match truthy final_report_markdown with
              | None => ret None
              | Some final_report_markdown =>
                  st_emit (StSuccess (0x2705 :: py " Analysis Complete! Report Generated.")) ;;;
                  ret (Some (final_report_markdown, extracted_data_json, stage2_output))
              end
          end
      end
  end.

(** *** Section 5: the upload handler *)

Definition mime_type_of (uploaded_file : UploadedFile) : pystr :=
  if str_eqb (file_type uploaded_file) (py "application/pdf")
  then py "application/pdf"
  else py "text/plain".

(** The button handler: the chain is run with the media type above. *)
Definition execute_analysis (uploaded_file : UploadedFile)
  : M (option (pystr * pystr * pystr)) :=
  run_financial_analysis_chain uploaded_file (mime_type_of uploaded_file).

End Chain.

(* ================================================================= *)
(** ** Sections 1 and 5: the client and the page

    The widgets that Section 5 draws are collected in the order of the
    calls; the messages of the chain go to the event log as above, and
    appear on the page between the button and the results.
    [st.set_page_config] draws nothing and is left out.  A script that
    ends in an exception yields that exception in place of the list of
    its widgets. *)

(** The [try] block of [get_gemini_client] reads the key from
    [st.secrets] and builds the client; either step may raise. *)
Inductive SecretLookup : Type :=
| SecretFound (api_key : pystr)
| SecretKeyError
| SecretOtherError (message : pystr).

Inductive Construction : Type :=
| Constructed
| ConstructionFails (message : pystr).

(** [get_gemini_client]: [true] when a client is returned; [false] when
    [st.stop()] ends the script. *)
Definition get_gemini_client (lookup : SecretLookup)
    (construct : pystr -> Construction) : M bool :=
  match lookup with
  | SecretFound api_key =>
      match construct api_key with
      | Constructed => ret true
      | ConstructionFails e =>
          st_emit (StError (py "Error initializing Gemini client: " ++ e)) ;;;
          ret false
      end
  | SecretKeyError =>
      st_emit (StError (py "Gemini API key not found in `.streamlit/secrets.toml`. Please configure your secrets.")) ;;;
      ret false
  | SecretOtherError e =>
      st_emit (StError (py "Error initializing Gemini client: " ++ e)) ;;;
      ret false
  end.

Inductive Widget : Type :=
| Title (body : pystr)
| Markdown (body : pystr)
| FileUploader (label : pystr) (types : list pystr) (help : pystr)
| Button (label : pystr)
| Header (body : pystr)
| Subheader (body : pystr)
| DownloadButton (label data file_name mime : pystr)
| Expander (label : pystr) (expanded : bool) (body : list Widget)
| Code (body language : pystr).

(** [name.split('.')[0]]: the name up to its first dot. *)
Fixpoint before_first_dot (name : pystr) : pystr :=
  match name with
  | [] => []
  | c :: r => if c =? DOT then [] else c :: before_first_dot r
  end.

Definition download_file_name (name : pystr) : pystr :=
  py "Executive_Analysis_" ++ before_first_dot name ++ py ".txt".

(** Lines 246 to 272: what is drawn for a result. *)
Definition results_section (report_data : pystr * pystr * pystr)
    (uploaded_file : UploadedFile) : list Widget :=
  let '(final_report_markdown, extracted_json, stage2_output) := report_data in
  [ Markdown (py "---");
    Header (py "Generated Deliverable");
    Subheader (py "Final Executive Report");
    Markdown final_report_markdown;
    DownloadButton ([0x2b07; 0xfe0f] ++ py " Download Full Report (.txt)")
      final_report_markdown
      (download_file_name (file_name uploaded_file))
      (py "text/plain");
    Expander (py "Show Intermediate Analysis (Debug)") false
      [ Subheader (py "Stage 1: Extracted Metrics (Structured JSON)");
        Code extracted_json (py "json");
        Subheader (py "Stage 2: Chain-of-Thought Reasoning (CoT)");
        Code stage2_output (py "markdown") ] ].

Definition page_top : list Widget :=
  [ Title (py "Gemini Financial Strategy Dashboard");
    Markdown (py "---");
    Markdown (py "
A **3-Stage Prompt Chaining** application using **Gemini 2.5 Pro** to perform secure, structured analysis of financial reports.
");
    FileUploader (py "1. Upload Quarterly/Annual Report (PDF or TXT/MD)")
      [py "pdf"; py "txt"; py "md"; py "text/markdown"]
      (py "Upload a document. For PDFs, Gemini uses multimodal reasoning to analyze charts and text.") ].

Definition run_button : Widget :=
  Button ([0x25b6; 0xfe0f] ++ py " Execute 3-Stage Analysis Chain").

Section Page.
Context {F : PyFloat} {Lim : PyLimits}.
Variable provider : Provider.

(** Section 5, for what the uploader and the button return. *)
Definition page (uploaded : option UploadedFile) (clicked : bool)
  : M (list Widget) :=
  match uploaded with
  | None => ret page_top
  | Some uploaded_file =>
      if clicked then
        report_data <- execute_analysis provider uploaded_file ;;
        match report_data with
        | Some data =>
            ret (page_top ++ [run_button] ++ results_section data uploaded_file)
        | None => ret (page_top ++ [run_button])
        end
      else ret (page_top ++ [run_button])
  end.

(** The script: the client first, then the page. *)
Definition script (lookup : SecretLookup) (construct : pystr -> Construction)
    (uploaded : option UploadedFile) (clicked : bool) : M (list Widget) :=
  ok <- get_gemini_client lookup construct ;;
  if ok then page uploaded clicked else ret [].

End Page.

(* ================================================================= *)
(** ** Observing a run *)

(** What the stage executor hands back for an outcome of the provider. *)
Definition executor_output (o : Outcome) : option pystr :=
  match o with
  | Responds text => text
  | Raises _ => None
  end.

Definition exception_events (o : Outcome) : list UiEvent :=
  match o with
  | Responds _ => []
  | Raises e => [StException (py "API Error during stage execution: " ++ e)]
  end.

(** The text of a template before and after its replacement field. *)
Fixpoint before_field (t : pystr) : pystr :=
  match t with
  | [] => []
  | c :: r => if c =? LBRACE then [] else c :: before_field r
  end.

Fixpoint after_field (t : pystr) : pystr :=
  match t with
  | [] => []
  | c :: r => if c =? RBRACE then r else after_field r
  end.

Definition stage2_prompt (extracted_data_json : pystr) : pystr :=
  before_field STAGE_2_PROMPT_TEMPLATE ++ extracted_data_json
    ++ after_field STAGE_2_PROMPT_TEMPLATE.

Definition stage3_prompt (extracted_data_json intermediate_analysis : pystr) : pystr :=
  before_field STAGE_3_PROMPT_TEMPLATE
    ++ full_analysis_data extracted_data_json intermediate_analysis
    ++ after_field STAGE_3_PROMPT_TEMPLATE.

Definition stage1_request (uploaded_file : UploadedFile) (file_mime_type : pystr)
  : Request :=
  build_request STAGE_1_PROMPT
    (ContentsPart (PartBytes (file_bytes uploaded_file) file_mime_type))
    (Some stage1_config).

Definition stage2_request (extracted_data_json : pystr) : Request :=
  build_request (stage2_prompt extracted_data_json) (ContentsList []) None.

Definition stage3_request (extracted_data_json intermediate_analysis : pystr)
  : Request :=
  build_request (stage3_prompt extracted_data_json intermediate_analysis)
    (ContentsList []) None.

Section Runs.
Context {F : PyFloat} {Lim : PyLimits}.
Variable provider : Provider.
Variable uploaded_file : UploadedFile.
Variable file_mime_type : pystr.
Variable w : World.

Definition run : result (option (pystr * pystr * pystr)) * World :=
  run_financial_analysis_chain provider uploaded_file file_mime_type w.

(** The value returned, the requests sent to the provider during the
    run, and the events shown during the run. *)
Definition run_result : result (option (pystr * pystr * pystr)) := fst run.
Definition run_calls : list Request := skipn (length (calls w)) (calls (snd run)).
Definition run_ui : list UiEvent := skipn (length (ui w)) (ui (snd run)).

(** The output of the executor at each stage of this run. *)
Definition stage1_output : option pystr :=
  executor_output (provider (calls w) (stage1_request uploaded_file file_mime_type)).

Definition stage2_output (extracted_data_json : pystr) : option pystr :=
  executor_output
    (provider (calls w ++ [stage1_request uploaded_file file_mime_type])
       (stage2_request extracted_data_json)).

Definition stage3_output (extracted_data_json intermediate_analysis : pystr)
  : option pystr :=
  executor_output
    (provider (calls w ++ [stage1_request uploaded_file file_mime_type;
                           stage2_request extracted_data_json])
       (stage3_request extracted_data_json intermediate_analysis)).

End Runs.

(** *** Failures of a run

    [first_failure k]: stage [k] is the first whose executor returns no
    output, or, for Stage 1, an output that [json.loads] rejects with
    [JSONDecodeError]. *)

Section Failures.
Context {F : PyFloat} {Lim : PyLimits}.
Variable provider : Provider.
Variable uploaded_file : UploadedFile.
Variable file_mime_type : pystr.
Variable w : World.

Let out1 := stage1_output provider uploaded_file file_mime_type w.
Let out2 := stage2_output provider uploaded_file file_mime_type w.
Let out3 := stage3_output provider uploaded_file file_mime_type w.

(** Stage 1 is done: the executor returned the non-empty text [raw],
    [json.loads] returned [parsed] for it and [json.dumps] returned
    for [parsed]. *)
Definition stage1_done (raw : pystr) (parsed : value) : Prop :=
  truthy out1 = Some raw /\ json_loads raw = Loaded parsed
  /\ dumps_returns parsed = true.

(** The parse of the Stage-1 output [raw] ends in an exception that the
    handler of line 180 does not catch: [json.loads] raises something
    other than [JSONDecodeError], or [json.dumps] raises. *)
Definition stage1_escapes (raw : pystr) : Prop :=
  truthy out1 = Some raw
  /\ ((exists e, json_loads raw = OtherError e)
      \/ (exists parsed, json_loads raw = Loaded parsed
                         /\ dumps_returns parsed = false)).

(** Stage 2 is done as well, with the non-empty text [s2]. *)
Definition stage2_done (raw : pystr) (parsed : value) (s2 : pystr) : Prop :=
  stage1_done raw parsed /\ truthy (out2 (json_dumps parsed)) = Some s2.

Inductive first_failure : nat -> Prop :=
| stage1_no_output :
    truthy out1 = None -> first_failure 1
| stage1_not_parseable raw :
    truthy out1 = Some raw -> json_loads raw = JSONDecodeError -> first_failure 1
| stage2_no_output raw parsed :
    stage1_done raw parsed ->
    truthy (out2 (json_dumps parsed)) = None -> first_failure 2
| stage3_no_output raw parsed s2 :
    stage2_done raw parsed s2 ->
    truthy (out3 (json_dumps parsed) (extract_intermediate s2)) = None ->
    first_failure 3.

(** [raises_at k]: the earlier stages are done and the model call of
    stage [k] raises. *)
Inductive raises_at : nat -> Prop :=
| stage1_raises e :
    provider (calls w) (stage1_request uploaded_file file_mime_type) = Raises e ->
    raises_at 1
| stage2_raises raw parsed e :
    stage1_done raw parsed ->
    provider (calls w ++ [stage1_request uploaded_file file_mime_type])
      (stage2_request (json_dumps parsed)) = Raises e ->
    raises_at 2
| stage3_raises raw parsed s2 e :
    stage2_done raw parsed s2 ->
    provider (calls w ++ [stage1_request uploaded_file file_mime_type;
                          stage2_request (json_dumps parsed)])
      (stage3_request (json_dumps parsed) (extract_intermediate s2)) = Raises e ->
    raises_at 3.

End Failures.

(** *** The schema as a check on values

    What validating a parsed value against [FinancialMetrics] would ask
    for: an object in which every field is present with a value of its
    declared type (a number for [float], a string, a list of strings). *)

Definition has_type {F : PyFloat} (t : FieldType) (v : value) : bool :=
  match t, v with
  | TFloat, VInt _ => true
  | TFloat, VFloat _ => true
  | TStr, VStr _ => true
  | TListStr, VList l =>
      forallb (fun x => match x with VStr _ => true | _ => false end) l
  | _, _ => false
  end.

Definition has_field_names {F : PyFloat} (v : value) : bool :=
  match v with
  | VDict d =>
      forallb (fun f => match dict_get (fst f) d with Some _ => true | None => false end)
        FinancialMetrics
  | _ => false
  end.

Definition conforms_to_schema {F : PyFloat} (v : value) : bool :=
  match v with
  | VDict d =>
      forallb (fun f => match dict_get (fst f) d with
                        | Some x => has_type (snd f) x
                        | None => false
                        end)
        FinancialMetrics
  | _ => false
  end.

(** *** The extraction as the specification words it

    From the first occurrence of the opening marker to the first
    occurrence of the closing marker after it, both included. *)
Definition extract_first_to_first (s : pystr) : option pystr :=
  match Re.find OPEN_MARKER s with
  | Some i =>
      match Re.find CLOSE_MARKER (skipn (i + length OPEN_MARKER) s) with
      | Some j =>
          Some (firstn (length OPEN_MARKER + j + length CLOSE_MARKER) (skipn i s))
      | None => None
      end
  | None => None
  end.

(** The run, written as a decision tree over the outputs of the three
    stages: the value returned, the requests sent and the events shown. *)
Definition chain_tree {F : PyFloat} {Lim : PyLimits} (provider : Provider)
    (uploaded_file : UploadedFile) (file_mime_type : pystr) (w : World)
  : result (option (pystr * pystr * pystr)) * list Request * list UiEvent :=
  let rq1 := stage1_request uploaded_file file_mime_type in
  let o1 := provider (calls w) rq1 in
  match truthy (executor_output o1) with
  | None => (Return None, [rq1], exception_events o1)
  | Some raw =>
      match json_loads raw with
      | JSONDecodeError =>
          (Return None, [rq1],
           [StError (py "Stage 1 failed: Gemini did not return valid JSON. Check document structure.");
            StCode raw (py "json")])
      | OtherError _ => (Uncaught, [rq1], [])
      | Loaded parsed =>
          if negb (dumps_returns parsed) then (Uncaught, [rq1], []) else
          let a1 := json_dumps parsed in
          let rq2 := stage2_request a1 in
          let o2 := provider (calls w ++ [rq1]) rq2 in
          let ui1 := [StSuccess (py "Stage 1 Complete: Structured Data Extracted.")] in
          match truthy (executor_output o2) with
          | None => (Return None, [rq1; rq2], ui1 ++ exception_events o2)
          | Some s2 =>
              let a2 := extract_intermediate s2 in
              let rq3 := stage3_request a1 a2 in
              let o3 := provider (calls w ++ [rq1; rq2]) rq3 in
              let ui2 := ui1 ++ [StSuccess (py "Stage 2 Complete: Analysis Ready.")] in
              match truthy (executor_output o3) with
              | None => (Return None, [rq1; rq2; rq3], ui2 ++ exception_events o3)
              | Some report =>
                  (Return (Some (report, a1, s2)), [rq1; rq2; rq3],
                   ui2 ++ [StSuccess (0x2705 :: py " Analysis Complete! Report Generated.")])
              end
          end
      end
  end.

(* ================================================================= *)
(** ** Scripted providers and sample inputs *)

Module Samples.

(** A provider that answers its n-th request with the n-th outcome of a
    script, whatever the request. *)
Definition scripted (replies : list Outcome) : Provider :=
  fun history _ => nth (length history) replies (Responds None).

Definition empty_world : World := {| calls := []; ui := [] |}.

(** Sample limits: the default limit of 4300 digits, with room for 991
    levels in the decoder, as an interpreter with the default recursion
    limit has when called with an almost empty stack, and for 990 in
    the encoder (how many the encoder really takes depends on what the
    innermost container holds).  And an interpreter without the digit
    limit and with room for [depth] levels, under which a text nested
    no deeper than that is judged on the grammar alone. *)

Fixpoint nesting {F : PyFloat} (o : value) : nat :=
  match o with
  | VList l => S (fold_right (fun x n => Nat.max (nesting x) n) 0%nat l)
  | VDict d => S (fold_right (fun kv n => Nat.max (nesting (snd kv)) n) 0%nat d)
  | _ => 0%nat
  end.

#[export] Instance DefaultLimits {F : PyFloat} : PyLimits :=
  {| int_max_str_digits := 4300;
     decoder_depth := 991;
     encoder_fits := fun o => (nesting o <=? 990)%nat |}.

Definition no_limits {F : PyFloat} (depth : nat) : PyLimits :=
  {| int_max_str_digits := 0;
     decoder_depth := depth;
     encoder_fits := fun _ => true |}.


Definition report_txt : UploadedFile :=
  {| file_name := py "report.txt";
     file_type := py "text/plain";
     file_bytes := py "Revenue: $100M current, $80M previous" |}.

Definition report_pdf : UploadedFile :=
  {| file_name := py "report.pdf";
     file_type := py "application/pdf";
     file_bytes := py "%PDF-1.7" |}.

(** A quoted JSON string. *)
Definition q (s : string) : pystr := dq ++ py s ++ dq.

(** Scenario C of the specification: a field of the wrong type. *)
Definition wrong_typed_output : pystr :=
  py "{" ++ q "revenue_current_period" ++ py ": " ++ q "N/A" ++ py "}".

Definition empty_object_output : pystr := py "{}".

Definition array_output : pystr := py "[1, 2]".

(** An output with the twelve fields of the schema. *)
Definition full_output : pystr :=
  py "{" ++ q "revenue_current_period" ++ py ": 100, "
    ++ q "revenue_previous_period" ++ py ": 80.0, "
    ++ q "net_income_current_period" ++ py ": 12.5, "
    ++ q "net_income_previous_period" ++ py ": -3, "
    ++ q "gross_margin_percentage" ++ py ": 0.40, "
    ++ q "operating_expense_total" ++ py ": 55, "
    ++ q "cash_from_operations" ++ py ": 2e1, "
    ++ q "total_debt" ++ py ": 0, "
    ++ q "cash_and_equivalents" ++ py ": 31.25, "
    ++ q "management_summary" ++ py ": " ++ q "Solid quarter." ++ py ", "
    ++ q "risk_factors" ++ py ": [" ++ q "FX" ++ py ", " ++ q "Rates" ++ py "], "
    ++ q "future_outlook_statement" ++ py ": " ++ q "Growth expected." ++ py "}".

(** The value it denotes, with exact decimal floats. *)
Definition full_parsed : value (F := DecimalFloat) :=
  Eval vm_compute in
    match json_loads full_output with
    | Loaded v => v
    | _ => VNull
    end.

(** A text that is not made of scalar values: the escape of a high
    surrogate followed by a raw low surrogate. *)
Definition raw_surrogate_output : pystr :=
  dq ++ py "\ud83d" ++ [0xde00] ++ dq.

(** The twelve fields again, around a given number and a given string. *)
Definition fields_output (revenue summary : pystr) : pystr :=
  py "{" ++ q "revenue_current_period" ++ py ": " ++ revenue ++ py ", "
    ++ q "revenue_previous_period" ++ py ": 80.0, "
    ++ q "net_income_current_period" ++ py ": 12.5, "
    ++ q "net_income_previous_period" ++ py ": -3, "
    ++ q "gross_margin_percentage" ++ py ": 0.40, "
    ++ q "operating_expense_total" ++ py ": 55, "
    ++ q "cash_from_operations" ++ py ": 2e1, "
    ++ q "total_debt" ++ py ": 0, "
    ++ q "cash_and_equivalents" ++ py ": 31.25, "
    ++ q "management_summary" ++ py ": " ++ summary ++ py ", "
    ++ q "risk_factors" ++ py ": [" ++ q "FX" ++ py ", " ++ q "Rates" ++ py "], "
    ++ q "future_outlook_statement" ++ py ": " ++ q "Growth expected." ++ py "}".

(** The fields with the surrogates above as management summary. *)
Definition surrogate_fields_output : pystr :=
  fields_output (py "100") raw_surrogate_output.

Definition surrogate_parsed : value (F := DecimalFloat) :=
  Eval vm_compute in
    match json_loads surrogate_fields_output with
    | Loaded v => v
    | _ => VNull
    end.

(** An integer of 4301 digits, one more than the default limit: alone,
    after an opening bracket that nothing closes, and as the first of
    the twelve fields. *)
Definition long_integer_output : pystr := repeat 49 4301.

Definition unclosed_long_integer_output : pystr := LBRACKET :: long_integer_output.

Definition long_integer_fields_output : pystr :=
  fields_output long_integer_output (q "Solid quarter.").

Definition not_json_output : pystr := py "Sorry, I cannot read this file.".

(** Stage-2 outputs. *)
Definition marked_output : pystr :=
  py "Intro <Chain_of_Thought>1. growth 25%</Chain_of_Thought><Intermediate_Analysis>ok</Intermediate_Analysis> bye".

Definition two_closings_output : pystr :=
  py "<Chain_of_Thought>a</Intermediate_Analysis>b</Intermediate_Analysis>c".

Definition no_closing_output : pystr :=
  py "<Chain_of_Thought>1. growth 25%</Chain_of_Thought><Intermediate_Analysis>ok".

Definition report_output : pystr := py "# Executive Summary".

End Samples.

(* ================================================================= *)
(** * Properties *)

(** ** Strings *)

Lemma str_eqb_refl (a : pystr) : str_eqb a a = true.
Proof.
  induction a as [|x a IH]; simpl; [reflexivity|].
  now rewrite N.eqb_refl, IH.
Qed.

Lemma str_eqb_eq (a b : pystr) : str_eqb a b = true <-> a = b.
Proof.
  split.
  - revert b; induction a as [|x a IH]; intros [|y b] H; simpl in H;
      try discriminate; [reflexivity|].
    apply andb_true_iff in H as [Hx Hab].
    apply N.eqb_eq in Hx. apply IH in Hab. now subst.
  - intros ->. apply str_eqb_refl.
Qed.

Lemma str_eqb_neq (a b : pystr) : str_eqb a b = false <-> a <> b.
Proof.
  destruct (str_eqb a b) eqn:E.
  - apply str_eqb_eq in E. split; [discriminate|congruence].
  - split; [|reflexivity]. intros _ H. apply str_eqb_eq in H. congruence.
Qed.

Lemma strip_prefix_app (p s : pystr) : strip_prefix p (p ++ s) = Some s.
Proof.
  induction p as [|a p IH]; simpl; [reflexivity|].
  now rewrite N.eqb_refl.
Qed.

Lemma strip_prefix_Some (p s r : pystr) :
  strip_prefix p s = Some r -> s = p ++ r.
Proof.
  revert s; induction p as [|a p IH]; intros s H; simpl in H.
  - now inversion H.
  - destruct s as [|b s]; [discriminate|].
    destruct (N.eqb_spec a b); [|discriminate].
    subst. simpl. f_equal. now apply IH.
Qed.

Lemma startswith_true (p s : pystr) :
  startswith p s = true <-> exists r, s = p ++ r.
Proof.
  unfold startswith. split.
  - destruct (strip_prefix p s) eqn:E; [|discriminate].
    intros _. exists p0. now apply strip_prefix_Some.
  - intros [r ->]. now rewrite strip_prefix_app.
Qed.

Lemma truthy_Some (o : option pystr) (s : pystr) :
  truthy o = Some s <-> o = Some s /\ s <> [].
Proof.
  destruct o as [[|c t]|]; simpl; split; intros H;
    try discriminate; try (destruct H; congruence).
  - inversion H; subst. split; [reflexivity|discriminate].
  - destruct H as [H _]. exact H.
Qed.

Lemma truthy_None (o : option pystr) :
  truthy o = None <-> o = None \/ o = Some [].
Proof.
  destruct o as [[|c t]|]; simpl; split; intros H; auto; try discriminate.
  destruct H; discriminate.
Qed.

(** ** Templates *)

Lemma stage2_format (a1 : pystr) :
  py_format STAGE_2_PROMPT_TEMPLATE (py "extracted_data_placeholder") a1
  = Some (stage2_prompt a1).
Proof. vm_compute. reflexivity. Qed.

Lemma stage3_format (data : pystr) :
  py_format STAGE_3_PROMPT_TEMPLATE (py "full_analysis_data_placeholder") data
  = Some (before_field STAGE_3_PROMPT_TEMPLATE ++ data
            ++ after_field STAGE_3_PROMPT_TEMPLATE).
Proof. vm_compute. reflexivity. Qed.

(** ** The executor and the chain, step by step *)

Section ChainFacts.
Context {F : PyFloat} {Lim : PyLimits}.
Variable provider : Provider.

Lemma run_gemini_stage_spec prompt contents config (w : World) :
  run_gemini_stage provider prompt contents config w
  = let rq := build_request prompt contents config in
    let o := provider (calls w) rq in
    (Return (executor_output o),
     {| calls := calls w ++ [rq]; ui := ui w ++ exception_events o |}).
Proof.
  unfold run_gemini_stage, mbind, generate_content. cbn.
  destruct (provider (calls w) (build_request prompt contents config)); cbn.
  - reflexivity.
  - now rewrite List.app_nil_r.
Qed.

Lemma executor_output_events (o : Outcome) (s : pystr) :
  truthy (executor_output o) = Some s -> exception_events o = [].
Proof. destruct o; simpl; [discriminate|reflexivity]. Qed.

Lemma chain_tree_spec (uploaded_file : UploadedFile) (file_mime_type : pystr)
    (w : World) :
  run_financial_analysis_chain provider uploaded_file file_mime_type w
  = let '(r, cs, es) := chain_tree provider uploaded_file file_mime_type w in
    (r, {| calls := calls w ++ cs; ui := ui w ++ es |}).
Proof.
  unfold run_financial_analysis_chain, chain_tree.
  unfold mbind at 1. rewrite run_gemini_stage_spec. cbn zeta beta iota.
  fold (stage1_request uploaded_file file_mime_type).
  set (rq1 := stage1_request uploaded_file file_mime_type).
  set (o1 := provider (calls w) rq1).
  destruct (truthy (executor_output o1)) as [raw|] eqn:E1; [|reflexivity].
  rewrite (executor_output_events _ _ E1), List.app_nil_r.
  destruct (json_loads raw) as [parsed| |e];
    [|cbn; rewrite <- ?List.app_assoc; reflexivity
     |cbn; now rewrite !List.app_nil_r; destruct w].
  unfold mbind at 1. unfold dumps_call.
  destruct (dumps_returns parsed);
    [|cbn; now rewrite !List.app_nil_r; destruct w].
  cbn [lift_option negb]. cbn iota.
  unfold mbind at 1. cbn [st_emit].
  unfold mbind at 1. rewrite stage2_format. cbn [lift_option].
  unfold mbind at 1. rewrite run_gemini_stage_spec. cbn zeta beta iota. cbn [calls ui].
  fold (stage2_request (json_dumps parsed)).
  set (rq2 := stage2_request (json_dumps parsed)).
  set (o2 := provider (calls w ++ [rq1]) rq2).
  destruct (truthy (executor_output o2)) as [s2|] eqn:E2;
    [|cbn; rewrite <- ?List.app_assoc; reflexivity].
  rewrite (executor_output_events _ _ E2), List.app_nil_r.
  unfold mbind at 1. cbn [st_emit].
  unfold mbind at 1. rewrite stage3_format. cbn [lift_option].
  unfold mbind at 1. rewrite run_gemini_stage_spec. cbn zeta beta iota. cbn [calls ui].
  fold (stage3_prompt (json_dumps parsed) (extract_intermediate s2)).
  fold (stage3_request (json_dumps parsed) (extract_intermediate s2)).
  set (rq3 := stage3_request (json_dumps parsed) (extract_intermediate s2)).
  rewrite <- !List.app_assoc. cbn [app].
  set (o3 := provider (calls w ++ [rq1; rq2]) rq3).
  destruct (truthy (executor_output o3)) as [report|] eqn:E3.
  - rewrite (executor_output_events _ _ E3).
    cbn. rewrite <- ?List.app_assoc. reflexivity.
  - cbn. rewrite <- ?List.app_assoc. reflexivity.
Qed.
End ChainFacts.

(** ** The search for the two markers *)

Section ReFacts.
Variables op cl : pystr.

Lemma find_None_cons (pat : pystr) (c : N) (s : pystr) :
  Re.find pat (c :: s) = None -> Re.find pat s = None.
Proof.
  simpl. destruct (startswith pat (c :: s)); [discriminate|].
  destruct (Re.find pat s); [discriminate|reflexivity].
Qed.

Lemma find_None_suffix (pat p s : pystr) :
  Re.find pat (p ++ s) = None -> Re.find pat s = None.
Proof.
  induction p as [|c p IH]; simpl app; intros H; [exact H|].
  apply IH. eapply find_None_cons; eassumption.
Qed.

Lemma find_None_startswith (pat s : pystr) :
  Re.find pat s = None -> startswith pat s = false.
Proof.
  destruct s; simpl; destruct (startswith pat _); congruence.
Qed.

Lemma match_any_then_None (s : pystr) :
  Re.find cl s = None -> Re.match_any_then cl s = None.
Proof.
  induction s as [|c s IH]; intros H.
  - simpl in *. destruct (startswith cl []); [discriminate|reflexivity].
  - pose proof (find_None_startswith _ _ H) as Hs.
    apply find_None_cons in H. simpl.
    rewrite (IH H). simpl. now rewrite Hs.
Qed.

Lemma search_None_open (s : pystr) :
  Re.find op s = None -> Re.search op cl s = None.
Proof.
  induction s as [|c s IH]; intros H.
  - simpl. unfold Re.match_at.
    apply find_None_startswith in H. unfold startswith in H.
    destruct (strip_prefix op []); [discriminate|reflexivity].
  - pose proof (find_None_startswith _ _ H) as Hs.
    apply find_None_cons in H. simpl.
    unfold Re.match_at. unfold startswith in Hs.
    destruct (strip_prefix op (c :: s)); [discriminate|]. now apply IH.
Qed.

Lemma match_at_None_close (s : pystr) :
  Re.find cl s = None -> Re.match_at op cl s = None.
Proof.
  intros H. unfold Re.match_at.
  destruct (strip_prefix op s) as [r|] eqn:E; [|reflexivity].
  apply strip_prefix_Some in E. subst s.
  apply find_None_suffix in H. now rewrite (match_any_then_None _ H).
Qed.

Lemma search_None_close (s : pystr) :
  Re.find cl s = None -> Re.search op cl s = None.
Proof.
  induction s as [|c s IH]; intros H; simpl.
  - now rewrite (match_at_None_close _ H).
  - rewrite (match_at_None_close _ H). apply IH.
    eapply find_None_cons; eassumption.
Qed.

Lemma rfind_None_match (s : pystr) :
  Re.rfind cl s = None -> Re.match_any_then cl s = None.
Proof.
  induction s as [|c s IH]; simpl; intros H.
  - destruct (startswith cl []); [discriminate|reflexivity].
  - destruct (Re.rfind cl s); [discriminate|]. simpl in H.
    rewrite IH by reflexivity. simpl.
    destruct (startswith cl (c :: s)); [discriminate|reflexivity].
Qed.

Lemma firstn_startswith (pat s : pystr) :
  startswith pat s = true -> firstn (length pat) s = pat.
Proof.
  intros H. apply startswith_true in H as [r ->].
  rewrite firstn_app, Nat.sub_diag, firstn_all. simpl. apply List.app_nil_r.
Qed.

Lemma rfind_Some_match (s : pystr) (j : nat) :
  Re.rfind cl s = Some j ->
  Re.match_any_then cl s = Some (firstn (j + length cl) s).
Proof.
  revert j; induction s as [|c s IH]; intros j H.
  - simpl in *. destruct (startswith cl []) eqn:E; [|discriminate].
    inversion H; subst. apply startswith_true in E as [r E].
    destruct cl; [reflexivity|discriminate].
  - simpl in H. simpl Re.match_any_then.
    destruct (Re.rfind cl s) as [j'|] eqn:E.
    + simpl in H. inversion H; subst. rewrite (IH j') by reflexivity.
      reflexivity.
    + simpl in H. rewrite (rfind_None_match _ E). simpl.
      destruct (startswith cl (c :: s)) eqn:Es; [|discriminate].
      inversion H; subst. simpl plus. now rewrite firstn_startswith.
Qed.

Lemma search_at_first (s : pystr) (i : nat) :
  Re.find op s = Some i ->
  startswith op (skipn i s) = true /\
  (forall m, Re.match_at op cl (skipn i s) = Some m -> Re.search op cl s = Some m).
Proof.
  revert i; induction s as [|c s IH]; intros i H.
  - simpl in H. destruct (startswith op []) eqn:E; [|discriminate].
    inversion H; subst. split; [exact E|]. intros m Hm. simpl in *. now rewrite Hm.
  - simpl in H. destruct (startswith op (c :: s)) eqn:E.
    + inversion H; subst. split; [exact E|]. intros m Hm. simpl in *. now rewrite Hm.
    + destruct (Re.find op s) as [i'|] eqn:E'; [|discriminate].
      simpl in H. inversion H; subst. destruct (IH i' eq_refl) as [H1 H2].
      split; [exact H1|]. intros m Hm. simpl.
      unfold Re.match_at at 1. unfold startswith in E.
      destruct (strip_prefix op (c :: s)); [discriminate|]. now apply H2.
Qed.

Lemma search_first_last (s : pystr) (i j : nat) :
  Re.find op s = Some i ->
  Re.rfind cl (skipn (i + length op) s) = Some j ->
  Re.search op cl s = Some (firstn (length op + j + length cl) (skipn i s)).
Proof.
  intros Hi Hj. destruct (search_at_first _ _ Hi) as [Hs Hm].
  apply Hm. unfold Re.match_at.
  apply startswith_true in Hs as [r Hr].
  rewrite Nat.add_comm, <- skipn_skipn, Hr in Hj.
  rewrite skipn_app, Nat.sub_diag, skipn_all in Hj. simpl in Hj.
  rewrite Hr, strip_prefix_app, (rfind_Some_match _ _ Hj). simpl. f_equal.
  rewrite <- Nat.add_assoc, firstn_app_2. reflexivity.
Qed.

End ReFacts.

(** ** Runs of the chain *)

Lemma skipn_length_app {A : Type} (l l' : list A) : skipn (length l) (l ++ l') = l'.
Proof. induction l; simpl; auto. Qed.

Section RunFacts.
Context {F : PyFloat} {Lim : PyLimits}.
Variable provider : Provider.
Variable uploaded_file : UploadedFile.
Variable file_mime_type : pystr.
Variable w : World.

Local Abbreviation tree := (chain_tree provider uploaded_file file_mime_type w).
Local Abbreviation result_of := (run_result provider uploaded_file file_mime_type w).
Local Abbreviation calls_of := (run_calls provider uploaded_file file_mime_type w).
Local Abbreviation ui_of := (run_ui provider uploaded_file file_mime_type w).
Local Abbreviation rq1 := (stage1_request uploaded_file file_mime_type).

Lemma run_tree r cs es :
  tree = (r, cs, es) -> result_of = r /\ calls_of = cs /\ ui_of = es.
Proof.
  intros H. unfold run_result, run_calls, run_ui, run.
  rewrite chain_tree_spec, H. cbn. now rewrite !skipn_length_app.
Qed.

Lemma tree_stage1_no_output :
  truthy (stage1_output provider uploaded_file file_mime_type w) = None ->
  tree = (Return None, [rq1],
          exception_events (provider (calls w) rq1)).
Proof. unfold stage1_output, chain_tree. cbn zeta. now intros ->. Qed.

Lemma tree_stage1_not_parseable raw :
  truthy (stage1_output provider uploaded_file file_mime_type w) = Some raw ->
  json_loads raw = JSONDecodeError ->
  tree = (Return None, [rq1],
          [StError (py "Stage 1 failed: Gemini did not return valid JSON. Check document structure.");
           StCode raw (py "json")]).
Proof. unfold stage1_output, chain_tree. cbn zeta. now intros -> ->. Qed.

Lemma tree_stage1_escapes raw :
  stage1_escapes provider uploaded_file file_mime_type w raw ->
  tree = (Uncaught, [rq1], []).
Proof.
  unfold stage1_escapes, stage1_output, chain_tree. cbn zeta.
  intros [-> [[e ->]|(parsed & -> & ->)]]; reflexivity.
Qed.

Lemma tree_stage2_no_output raw parsed :
  stage1_done provider uploaded_file file_mime_type w raw parsed ->
  truthy (stage2_output provider uploaded_file file_mime_type w (json_dumps parsed)) = None ->
  tree = (Return None, [rq1; stage2_request (json_dumps parsed)],
          [StSuccess (py "Stage 1 Complete: Structured Data Extracted.")]
            ++ exception_events
                 (provider (calls w ++ [rq1]) (stage2_request (json_dumps parsed)))).
Proof.
  unfold stage1_done, stage1_output, stage2_output, chain_tree. cbn zeta.
  now intros (-> & -> & ->) ->.
Qed.

Lemma tree_stage2_done raw parsed s2 :
  stage2_done provider uploaded_file file_mime_type w raw parsed s2 ->
  let a1 := json_dumps parsed in
  let a2 := extract_intermediate s2 in
  let o3 := provider (calls w ++ [rq1; stage2_request a1]) (stage3_request a1 a2) in
  tree =
    match truthy (executor_output o3) with
    | None =>
        (Return None, [rq1; stage2_request a1; stage3_request a1 a2],
         [StSuccess (py "Stage 1 Complete: Structured Data Extracted.");
          StSuccess (py "Stage 2 Complete: Analysis Ready.")]
           ++ exception_events o3)
    | Some report =>
        (Return (Some (report, a1, s2)),
         [rq1; stage2_request a1; stage3_request a1 a2],
         [StSuccess (py "Stage 1 Complete: Structured Data Extracted.");
          StSuccess (py "Stage 2 Complete: Analysis Ready.");
          StSuccess (0x2705 :: py " Analysis Complete! Report Generated.")])
    end.
Proof.
  unfold stage2_done, stage1_done, stage1_output, stage2_output, chain_tree.
  cbn zeta. intros [(-> & -> & ->) ->]. reflexivity.
Qed.

(** The requests of a run in which the first failure is at stage [k]. *)
Lemma first_failure_run k :
  first_failure provider uploaded_file file_mime_type w k ->
  result_of = Return None /\ length calls_of = k /\ nth_error calls_of 0 = Some rq1.
Proof.
  intros H. destruct H as [H|raw H1 H2|raw parsed H1 H2|raw parsed s2 H1 H2].
  - destruct (run_tree _ _ _ (tree_stage1_no_output H)) as (-> & -> & _). auto.
  - destruct (run_tree _ _ _ (tree_stage1_not_parseable _ H1 H2)) as (-> & -> & _). auto.
  - destruct (run_tree _ _ _ (tree_stage2_no_output _ _ H1 H2)) as (-> & -> & _). auto.
  - pose proof (tree_stage2_done _ _ _ H1) as T. cbn zeta in T.
    unfold stage3_output in H2. rewrite H2 in T.
    destruct (run_tree _ _ _ T) as (-> & -> & _). auto.
Qed.

Lemma raises_first_failure k :
  raises_at provider uploaded_file file_mime_type w k ->
  first_failure provider uploaded_file file_mime_type w k.
Proof.
  intros H. destruct H as [e H|raw parsed e H1 H|raw parsed s2 e H1 H].
  - apply stage1_no_output. unfold stage1_output. now rewrite H.
  - eapply stage2_no_output; [eassumption|]. unfold stage2_output. now rewrite H.
  - eapply stage3_no_output; [eassumption|]. unfold stage3_output. now rewrite H.
Qed.

End RunFacts.

Import Samples.

Section ChainClaims.
Context {F : PyFloat} {Lim : PyLimits}.
Variable provider : Provider.
Variable uploaded_file : UploadedFile.
Variable file_mime_type : pystr.
Variable w : World.

Local Abbreviation result_of := (run_result provider uploaded_file file_mime_type w).
Local Abbreviation calls_of := (run_calls provider uploaded_file file_mime_type w).
Local Abbreviation ui_of := (run_ui provider uploaded_file file_mime_type w).
Local Abbreviation rq1 := (stage1_request uploaded_file file_mime_type).
Local Abbreviation done1 := (stage1_done provider uploaded_file file_mime_type w).
Local Abbreviation done2 := (stage2_done provider uploaded_file file_mime_type w).

(** Every run starts with the Stage-1 request. *)
Lemma run_calls_head : exists rest, calls_of = rq1 :: rest.
Proof.
  destruct (chain_tree provider uploaded_file file_mime_type w) as [[r cs] es] eqn:T.
  destruct (run_tree _ _ _ _ _ _ _ T) as (_ & -> & _).
  unfold chain_tree in T. cbn zeta in T.
  repeat match type of T with
         | match ?x with _ => _ end = _ => destruct x
         end; inversion T; eauto.
Qed.

(** Once Stage 1 is done the second request is the Stage-2 request
    built from the serialized parse. *)
Lemma stage1_done_run raw parsed :
  done1 raw parsed ->
  nth_error calls_of 1 = Some (stage2_request (json_dumps parsed))
  /\ In (StSuccess (py "Stage 1 Complete: Structured Data Extracted.")) ui_of.
Proof.
  intros H.
  destruct (truthy (stage2_output provider uploaded_file file_mime_type w
                      (json_dumps parsed))) as [s2|] eqn:E2.
  - assert (H2 : done2 raw parsed s2) by (split; assumption).
    pose proof (tree_stage2_done _ _ _ _ _ _ _ H2) as T. cbn zeta in T.
    destruct (truthy (executor_output _)) in T;
      destruct (run_tree _ _ _ _ _ _ _ T) as (_ & -> & ->); split; simpl; auto.
  - destruct (run_tree _ _ _ _ _ _ _ (tree_stage2_no_output _ _ _ _ _ _ H E2)) as (_ & -> & ->).
    split; simpl; auto.
Qed.

Lemma stage2_done_run raw parsed s2 :
  done2 raw parsed s2 ->
  nth_error calls_of 2
  = Some (stage3_request (json_dumps parsed) (extract_intermediate s2)).
Proof.
  intros H2. pose proof (tree_stage2_done _ _ _ _ _ _ _ H2) as T. cbn zeta in T.
  destruct (truthy (executor_output _)) in T;
    destruct (run_tree _ _ _ _ _ _ _ T) as (_ & -> & _); reflexivity.
Qed.

(** Whatever was sent as second request came from a parsed output. *)
Lemma second_call_inv rq :
  nth_error calls_of 1 = Some rq ->
  exists raw parsed, done1 raw parsed /\ rq = stage2_request (json_dumps parsed).
Proof.
  intros H.
  destruct (truthy (stage1_output provider uploaded_file file_mime_type w))
    as [raw|] eqn:E1.
  - destruct (json_loads raw) as [parsed| |e] eqn:EJ.
    + destruct (dumps_returns parsed) eqn:ED.
      * assert (H1 : done1 raw parsed) by (repeat split; assumption).
        exists raw, parsed. split; [exact H1|].
        destruct (stage1_done_run _ _ H1) as [H' _]. congruence.
      * assert (HE : stage1_escapes provider uploaded_file file_mime_type w raw)
          by (split; [exact E1|right; now exists parsed]).
        destruct (run_tree _ _ _ _ _ _ _ (tree_stage1_escapes _ _ _ _ _ HE))
          as (_ & Hc & _).
        rewrite Hc in H. discriminate.
    + destruct (run_tree _ _ _ _ _ _ _ (tree_stage1_not_parseable _ _ _ _ _ E1 EJ)) as (_ & Hc & _).
      rewrite Hc in H. discriminate.
    + assert (HE : stage1_escapes provider uploaded_file file_mime_type w raw)
        by (split; [exact E1|left; now exists e]).
      destruct (run_tree _ _ _ _ _ _ _ (tree_stage1_escapes _ _ _ _ _ HE))
        as (_ & Hc & _).
      rewrite Hc in H. discriminate.
  - destruct (run_tree _ _ _ _ _ _ _ (tree_stage1_no_output _ _ _ _ E1)) as (_ & Hc & _).
    rewrite Hc in H. discriminate.
Qed.

End ChainClaims.

(** ** The claims about the chain *)

Section Claims.
Context {F : PyFloat} {Lim : PyLimits}.

(** X16 — when a stage fails in a way the chain handles (Stage 1: the
    executor returns no output, or an output that [json.loads] rejects
    with [JSONDecodeError]; Stages 2 and 3: no output), the chain
    returns the no-result value and the executor has been invoked for
    the stages up to the failing one only: a failure at Stage 1 leaves
    exactly one request, the Stage-1 request. *)
Theorem stage_failure_short_circuits (provider : Provider)
    (uploaded_file : UploadedFile) (file_mime_type : pystr) (w : World) (k : nat) :
  first_failure provider uploaded_file file_mime_type w k ->
  run_result provider uploaded_file file_mime_type w = Return None
  /\ length (run_calls provider uploaded_file file_mime_type w) = k
  /\ nth_error (run_calls provider uploaded_file file_mime_type w) 0
     = Some (stage1_request uploaded_file file_mime_type).
Proof. apply first_failure_run. Qed.

(** C6 — when the model call of a stage raises, the stage executor
    hands back [None] instead of letting the exception escape, and the
    chain returns the no-result value having sent exactly the requests
    of the stages up to that one: nothing is retried, nothing follows. *)
Theorem provider_error_aborts_chain (provider : Provider)
    (uploaded_file : UploadedFile) (file_mime_type : pystr) (w : World) (k : nat) :
  raises_at provider uploaded_file file_mime_type w k ->
  (forall prompt contents config w0 e,
      provider (calls w0) (build_request prompt contents config) = Raises e ->
      fst (run_gemini_stage provider prompt contents config w0) = Return None
      /\ length (calls (snd (run_gemini_stage provider prompt contents config w0)))
         = S (length (calls w0)))
  /\ run_result provider uploaded_file file_mime_type w = Return None
  /\ length (run_calls provider uploaded_file file_mime_type w) = k.
Proof.
  intros H. split.
  - intros prompt contents config w0 e He.
    rewrite run_gemini_stage_spec. cbn zeta. rewrite He. cbn.
    split; [reflexivity|]. rewrite length_app. simpl. lia.
  - apply raises_first_failure in H.
    destruct (first_failure_run _ _ _ _ _ H) as (H1 & H2 & _). auto.
Qed.

(** X17 — a non-empty Stage-1 output for which [json.loads] and then
    [json.dumps] return, whatever value it denotes, passes Stage 1: the
    success message is shown and the second request is the Stage-2
    request, whose prompt is the template around the indented
    serialization of the parsed value. *)
Theorem valid_json_proceeds (provider : Provider)
    (uploaded_file : UploadedFile) (file_mime_type : pystr) (w : World)
    (raw : pystr) (parsed : value) :
  stage1_done provider uploaded_file file_mime_type w raw parsed ->
  nth_error (run_calls provider uploaded_file file_mime_type w) 1
  = Some (stage2_request (json_dumps parsed))
  /\ req_contents (stage2_request (json_dumps parsed))
     = [PartText (before_field STAGE_2_PROMPT_TEMPLATE ++ json_dumps parsed
                    ++ after_field STAGE_2_PROMPT_TEMPLATE)]
  /\ In (StSuccess (py "Stage 1 Complete: Structured Data Extracted."))
       (run_ui provider uploaded_file file_mime_type w).
Proof.
  intros H. destruct (stage1_done_run _ _ _ _ _ _ H) as [H1 H2].
  repeat split; assumption || reflexivity.
Qed.

(** C1, as amended — for a non-empty Stage-1 output, the chain fails at
    Stage 1 when [json.loads] rejects it with [JSONDecodeError]: no
    result, the error message and the raw text are shown, and only the
    Stage-1 request has been sent.  When [json.loads] and [json.dumps]
    return, whatever the fields of the value, the chain sends the
    Stage-2 request. *)
Theorem stage1_fails_iff_not_json (provider : Provider)
    (uploaded_file : UploadedFile) (file_mime_type : pystr) (w : World)
    (raw : pystr) :
  truthy (stage1_output provider uploaded_file file_mime_type w) = Some raw ->
  (json_loads raw = JSONDecodeError ->
   run_result provider uploaded_file file_mime_type w = Return None
   /\ run_calls provider uploaded_file file_mime_type w
      = [stage1_request uploaded_file file_mime_type]
   /\ run_ui provider uploaded_file file_mime_type w
      = [StError (py "Stage 1 failed: Gemini did not return valid JSON. Check document structure.");
         StCode raw (py "json")])
  /\ (forall parsed,
        json_loads raw = Loaded parsed -> dumps_returns parsed = true ->
        nth_error (run_calls provider uploaded_file file_mime_type w) 1
        = Some (stage2_request (json_dumps parsed))).
Proof.
  intros H1. split.
  - intros H2.
    exact (run_tree _ _ _ _ _ _ _ (tree_stage1_not_parseable _ _ _ _ _ H1 H2)).
  - intros parsed H2 H3.
    assert (H : stage1_done provider uploaded_file file_mime_type w raw parsed)
      by (repeat split; assumption).
    now destruct (stage1_done_run _ _ _ _ _ _ H).
Qed.

(** C7, as amended — the artifact with which the chain goes past
    Stage 1 is the serialization of the value parsed from the Stage-1
    output, whatever its fields; the twelve fields are asked of the
    provider, as required properties of the response schema of the
    Stage-1 request. *)
Theorem artifact_is_serialized_parse (provider : Provider)
    (uploaded_file : UploadedFile) (file_mime_type : pystr) (w : World)
    (rq : Request) :
  nth_error (run_calls provider uploaded_file file_mime_type w) 1 = Some rq ->
  (exists raw parsed,
      stage1_done provider uploaded_file file_mime_type w raw parsed
      /\ rq = stage2_request (json_dumps parsed))
  /\ response_schema (req_config (stage1_request uploaded_file file_mime_type))
     = Some STAGE_1_SCHEMA
  /\ schema_required STAGE_1_SCHEMA = map fst FinancialMetrics
  /\ length FinancialMetrics = 12%nat.
Proof.
  intros H. split; [|repeat split].
  now apply second_call_inv.
Qed.

(** C8 — in any two runs that reach Stage 3 with the same Stage-1
    artifact and the same Stage-2 artifact, whatever the providers, the
    files and the earlier requests, the Stage-3 request is the same, and
    its prompt is the template around the two artifacts, each under its
    heading, with an empty line between them. *)
Theorem stage3_prompt_deterministic
    (provider provider' : Provider) (uploaded_file uploaded_file' : UploadedFile)
    (file_mime_type file_mime_type' : pystr) (w w' : World)
    (raw raw' : pystr) (parsed parsed' : value) (s2 s2' : pystr) :
  stage2_done provider uploaded_file file_mime_type w raw parsed s2 ->
  stage2_done provider' uploaded_file' file_mime_type' w' raw' parsed' s2' ->
  json_dumps parsed = json_dumps parsed' ->
  extract_intermediate s2 = extract_intermediate s2' ->
  let a1 := json_dumps parsed in
  let a2 := extract_intermediate s2 in
  nth_error (run_calls provider uploaded_file file_mime_type w) 2
  = Some (stage3_request a1 a2)
  /\ nth_error (run_calls provider' uploaded_file' file_mime_type' w') 2
     = Some (stage3_request a1 a2)
  /\ req_contents (stage3_request a1 a2)
     = [PartText
          (before_field STAGE_3_PROMPT_TEMPLATE
             ++ (py "STAGE 1 DATA:" ++ [LF] ++ a1 ++ [LF; LF]
                   ++ py "STAGE 2 ANALYSIS:" ++ [LF] ++ a2)
             ++ after_field STAGE_3_PROMPT_TEMPLATE)].
Proof.
  intros H H' E1 E2 a1 a2. subst a1 a2.
  rewrite (stage2_done_run _ _ _ _ _ _ _ H), (stage2_done_run _ _ _ _ _ _ _ H').
  rewrite E1, E2. repeat split.
Qed.

(** C9 — the media type handed to Stage 1 is a function of the reported
    content type of the file: [application/pdf] exactly when that is
    the reported type, [text/plain] for any other; the first request of
    the run carries the bytes of the file under that media type. *)
Theorem media_type_from_content_type (provider : Provider)
    (uploaded_file : UploadedFile) (w : World) :
  (mime_type_of uploaded_file = py "application/pdf"
   <-> file_type uploaded_file = py "application/pdf")
  /\ (file_type uploaded_file <> py "application/pdf"
      -> mime_type_of uploaded_file = py "text/plain")
  /\ nth_error
       (skipn (length (calls w))
          (calls (snd (execute_analysis provider uploaded_file w)))) 0
     = Some (stage1_request uploaded_file (mime_type_of uploaded_file))
  /\ req_contents (stage1_request uploaded_file (mime_type_of uploaded_file))
     = [PartBytes (file_bytes uploaded_file) (mime_type_of uploaded_file);
        PartText STAGE_1_PROMPT].
Proof.
  unfold mime_type_of.
  destruct (str_eqb (file_type uploaded_file) (py "application/pdf")) eqn:E.
  - apply str_eqb_eq in E. repeat split; auto; try congruence.
    destruct (run_calls_head provider uploaded_file (py "application/pdf") w)
      as [rest Hr].
    unfold run_calls, run in Hr. unfold execute_analysis, mime_type_of.
    rewrite E, str_eqb_refl. now rewrite Hr.
  - apply str_eqb_neq in E. repeat split; auto; try congruence.
    + intros H. vm_compute in H. discriminate.
    + destruct (run_calls_head provider uploaded_file (py "text/plain") w)
        as [rest Hr].
      unfold run_calls, run in Hr. unfold execute_analysis, mime_type_of.
      apply str_eqb_neq in E. rewrite E. now rewrite Hr.
Qed.

(** C5 — when the opening or the closing marker does not occur in the
    Stage-2 output, the artifact is that output as it is, and the third
    request is the Stage-3 request built from it. *)
Theorem missing_marker_falls_back (provider : Provider)
    (uploaded_file : UploadedFile) (file_mime_type : pystr) (w : World)
    (raw : pystr) (parsed : value) (s2 : pystr) :
  stage2_done provider uploaded_file file_mime_type w raw parsed s2 ->
  Re.find OPEN_MARKER s2 = None \/ Re.find CLOSE_MARKER s2 = None ->
  extract_intermediate s2 = s2
  /\ nth_error (run_calls provider uploaded_file file_mime_type w) 2
     = Some (stage3_request (json_dumps parsed) s2).
Proof.
  intros H Hm.
  assert (E : extract_intermediate s2 = s2).
  { unfold extract_intermediate.
    destruct Hm as [Hm|Hm];
      [rewrite (search_None_open _ _ _ Hm)|rewrite (search_None_close _ _ _ Hm)];
      reflexivity. }
  split; [exact E|].
  rewrite (stage2_done_run _ _ _ _ _ _ _ H). now rewrite E.
Qed.

(** C2, as amended — when the opening marker occurs, first at index
    [i], and the closing marker occurs after it, the artifact runs from
    that first opening marker to the last occurrence of the closing
    marker, both included. *)
Theorem extraction_first_to_last (s2 : pystr) (i j : nat) :
  Re.find OPEN_MARKER s2 = Some i ->
  Re.rfind CLOSE_MARKER (skipn (i + length OPEN_MARKER) s2) = Some j ->
  extract_intermediate s2
  = firstn (length OPEN_MARKER + j + length CLOSE_MARKER) (skipn i s2).
Proof.
  intros Hi Hj. unfold extract_intermediate.
  now rewrite (search_first_last _ _ _ _ _ Hi Hj).
Qed.

End Claims.

(** ** Witnesses and counterexamples on sample runs *)

Lemma stage_failure_short_circuits_witness :
  let provider := scripted [Responds (Some not_json_output)] in
  run_result provider report_txt (py "text/plain") empty_world = Return None
  /\ length (run_calls provider report_txt (py "text/plain") empty_world) = 1%nat
  /\ nth_error (run_calls provider report_txt (py "text/plain") empty_world) 0
     = Some (stage1_request report_txt (py "text/plain")).
Proof.
  apply (stage_failure_short_circuits
           (scripted [Responds (Some not_json_output)])
           report_txt (py "text/plain") empty_world 1).
  apply stage1_not_parseable with (raw := not_json_output); reflexivity.
Defined.

(** C4 — an output that is not parseable, an opening bracket and an
    integer of 4301 digits with nothing after, does not give the
    no-result value: the integer is converted before the end of the
    text is seen, [json.loads] raises [ValueError], which the handler
    of [JSONDecodeError] lets through, and the run ends in that
    exception after its one request, with nothing shown. *)
Lemma unparseable_output_raises :
  let provider := scripted [Responds (Some unclosed_long_integer_output)] in
  truthy (stage1_output provider report_txt (py "text/plain") empty_world)
  = Some unclosed_long_integer_output
  /\ json_loads (Lim := no_limits 1) unclosed_long_integer_output = JSONDecodeError
  /\ json_loads unclosed_long_integer_output = OtherError ValueError
  /\ run_result provider report_txt (py "text/plain") empty_world = Uncaught
  /\ run_calls provider report_txt (py "text/plain") empty_world
     = [stage1_request report_txt (py "text/plain")]
  /\ run_ui provider report_txt (py "text/plain") empty_world = [].
Proof. cbv zeta. repeat split; reflexivity. Qed.

Lemma provider_error_aborts_chain_witness :
  let provider :=
    scripted [Responds (Some full_output); Raises (py "429 quota exceeded")] in
  (forall prompt contents config w0 e,
      provider (calls w0) (build_request prompt contents config) = Raises e ->
      fst (run_gemini_stage provider prompt contents config w0) = Return None
      /\ length (calls (snd (run_gemini_stage provider prompt contents config w0)))
         = S (length (calls w0)))
  /\ run_result provider report_txt (py "text/plain") empty_world = Return None
  /\ length (run_calls provider report_txt (py "text/plain") empty_world) = 2%nat.
Proof.
  apply (provider_error_aborts_chain
           (scripted [Responds (Some full_output); Raises (py "429 quota exceeded")])
           report_txt (py "text/plain") empty_world 2).
  apply stage2_raises
    with (raw := full_output) (parsed := full_parsed) (e := py "429 quota exceeded");
    [repeat split; reflexivity | reflexivity].
Defined.

Lemma valid_json_proceeds_witness :
  let provider := scripted [Responds (Some array_output)] in
  let parsed := VList [VInt 1; VInt 2] in
  nth_error (run_calls provider report_txt (py "text/plain") empty_world) 1
  = Some (stage2_request (json_dumps parsed))
  /\ req_contents (stage2_request (json_dumps parsed))
     = [PartText (before_field STAGE_2_PROMPT_TEMPLATE ++ json_dumps parsed
                    ++ after_field STAGE_2_PROMPT_TEMPLATE)]
  /\ In (StSuccess (py "Stage 1 Complete: Structured Data Extracted."))
       (run_ui provider report_txt (py "text/plain") empty_world).
Proof.
  apply (valid_json_proceeds (scripted [Responds (Some array_output)])
           report_txt (py "text/plain") empty_world array_output
           (VList [VInt 1; VInt 2])).
  repeat split; reflexivity.
Defined.


Lemma stage1_fails_iff_not_json_witness :
  let provider := scripted [Responds (Some not_json_output)] in
  (json_loads not_json_output = JSONDecodeError ->
   run_result provider report_txt (py "text/plain") empty_world = Return None
   /\ run_calls provider report_txt (py "text/plain") empty_world
      = [stage1_request report_txt (py "text/plain")]
   /\ run_ui provider report_txt (py "text/plain") empty_world
      = [StError (py "Stage 1 failed: Gemini did not return valid JSON. Check document structure.");
         StCode not_json_output (py "json")])
  /\ (forall parsed,
        json_loads not_json_output = Loaded parsed -> dumps_returns parsed = true ->
        nth_error (run_calls provider report_txt (py "text/plain") empty_world) 1
        = Some (stage2_request (json_dumps parsed))).
Proof.
  apply (stage1_fails_iff_not_json (scripted [Responds (Some not_json_output)])
           report_txt (py "text/plain") empty_world not_json_output).
  reflexivity.
Defined.

(** Scenario C runs to the end: the output with the wrong-typed field
    is not empty, does not conform to the schema, and yet the chain
    sends the three requests and returns a report. *)
Lemma wrong_typed_field_proceeds :
  let provider :=
    scripted [Responds (Some wrong_typed_output); Responds (Some marked_output);
              Responds (Some report_output)] in
  let parsed := VDict [(py "revenue_current_period", VStr (py "N/A"))] in
  truthy (stage1_output provider report_txt (py "text/plain") empty_world)
  = Some wrong_typed_output
  /\ json_loads wrong_typed_output = Loaded parsed
  /\ conforms_to_schema parsed = false
  /\ run_result provider report_txt (py "text/plain") empty_world
     = Return (Some (report_output, json_dumps parsed, marked_output))
  /\ nth_error (run_calls provider report_txt (py "text/plain") empty_world) 1
     = Some (stage2_request (json_dumps parsed))
  /\ length (run_calls provider report_txt (py "text/plain") empty_world) = 3%nat.
Proof. cbv zeta. repeat split; reflexivity. Qed.

Lemma artifact_is_serialized_parse_witness :
  let provider := scripted [Responds (Some empty_object_output)] in
  (exists raw parsed,
      stage1_done provider report_txt (py "text/plain") empty_world raw parsed
      /\ stage2_request (py "{}") = stage2_request (json_dumps parsed))
  /\ response_schema (req_config (stage1_request report_txt (py "text/plain")))
     = Some STAGE_1_SCHEMA
  /\ schema_required STAGE_1_SCHEMA = map fst FinancialMetrics
  /\ length FinancialMetrics = 12%nat.
Proof.
  apply (artifact_is_serialized_parse (scripted [Responds (Some empty_object_output)])
           report_txt (py "text/plain") empty_world (stage2_request (py "{}"))).
  reflexivity.
Defined.

(** An empty object has none of the twelve fields, and the chain goes
    on to Stage 2 with it. *)
Lemma empty_object_proceeds :
  let provider := scripted [Responds (Some empty_object_output)] in
  truthy (stage1_output provider report_txt (py "text/plain") empty_world)
  = Some empty_object_output
  /\ json_loads empty_object_output = Loaded (VDict [])
  /\ has_field_names (VDict []) = false
  /\ nth_error (run_calls provider report_txt (py "text/plain") empty_world) 1
     = Some (stage2_request (py "{}")).
Proof. cbv zeta. repeat split; reflexivity. Qed.

Lemma stage3_prompt_deterministic_witness :
  let provider :=
    scripted [Responds (Some array_output); Responds (Some marked_output)] in
  let provider' :=
    scripted [Raises (py "503"); Responds (Some array_output);
              Responds (Some marked_output); Responds (Some report_output)] in
  let w' := {| calls := [stage1_request report_pdf (py "application/pdf")];
               ui := [StException (py "API Error during stage execution: 503")] |} in
  let a1 := json_dumps (VList [VInt 1; VInt 2]) in
  let a2 := extract_intermediate marked_output in
  nth_error (run_calls provider report_txt (py "text/plain") empty_world) 2
  = Some (stage3_request a1 a2)
  /\ nth_error (run_calls provider' report_pdf (py "application/pdf") w') 2
     = Some (stage3_request a1 a2)
  /\ req_contents (stage3_request a1 a2)
     = [PartText
          (before_field STAGE_3_PROMPT_TEMPLATE
             ++ (py "STAGE 1 DATA:" ++ [LF] ++ a1 ++ [LF; LF]
                   ++ py "STAGE 2 ANALYSIS:" ++ [LF] ++ a2)
             ++ after_field STAGE_3_PROMPT_TEMPLATE)].
Proof.
  apply (stage3_prompt_deterministic
           (scripted [Responds (Some array_output); Responds (Some marked_output)])
           (scripted [Raises (py "503"); Responds (Some array_output);
                      Responds (Some marked_output); Responds (Some report_output)])
           report_txt report_pdf (py "text/plain") (py "application/pdf")
           empty_world
           {| calls := [stage1_request report_pdf (py "application/pdf")];
              ui := [StException (py "API Error during stage execution: 503")] |}
           array_output array_output
           (VList [VInt 1; VInt 2]) (VList [VInt 1; VInt 2])
           marked_output marked_output);
    try reflexivity; repeat split; reflexivity.
Defined.

Lemma missing_marker_falls_back_witness :
  let provider :=
    scripted [Responds (Some array_output); Responds (Some no_closing_output)] in
  let parsed := VList [VInt 1; VInt 2] in
  extract_intermediate no_closing_output = no_closing_output
  /\ nth_error (run_calls provider report_txt (py "text/plain") empty_world) 2
     = Some (stage3_request (json_dumps parsed) no_closing_output).
Proof.
  apply (missing_marker_falls_back
           (scripted [Responds (Some array_output); Responds (Some no_closing_output)])
           report_txt (py "text/plain") empty_world array_output
           (VList [VInt 1; VInt 2]) no_closing_output).
  - repeat split; reflexivity.
  - right. reflexivity.
Defined.

Lemma extraction_first_to_last_witness :
  extract_intermediate two_closings_output
  = firstn (length OPEN_MARKER + 26 + length CLOSE_MARKER) (skipn 0 two_closings_output).
Proof.
  apply (extraction_first_to_last two_closings_output 0 26); reflexivity.
Defined.

(** With two closing markers after the opening one, both markers occur
    in order, and the artifact is not the text that stops at the first
    closing marker. *)
Lemma two_closings_not_first :
  Re.find OPEN_MARKER two_closings_output = Some 0%nat
  /\ Re.find CLOSE_MARKER (skipn (0 + length OPEN_MARKER) two_closings_output)
     = Some 1%nat
  /\ extract_first_to_first two_closings_output
     = Some (py "<Chain_of_Thought>a</Intermediate_Analysis>")
  /\ extract_intermediate two_closings_output
     = py "<Chain_of_Thought>a</Intermediate_Analysis>b</Intermediate_Analysis>"
  /\ str_eqb (extract_intermediate two_closings_output)
       (py "<Chain_of_Thought>a</Intermediate_Analysis>") = false.
Proof. repeat split; reflexivity. Qed.

(** ** Numbers: the lexer and [int.__repr__] *)

Lemma number_stop_cons (c : N) (rest : pystr) :
  number_stop (c :: rest) = true ->
  is_digit c = false /\ (c =? DOT) = false /\ (c =? CH_e) = false
  /\ (c =? CH_E) = false /\ (c =? PLUS) = false /\ (c =? MINUS) = false.
Proof.
  simpl. rewrite negb_true_iff, !orb_false_iff. tauto.
Qed.

Lemma span_digits_app (s rest ds r : pystr) :
  span_digits s = (ds, r) -> number_stop rest = true ->
  span_digits (s ++ rest) = (ds, r ++ rest).
Proof.
  revert ds r; induction s as [|c s IH]; intros ds r H Hs; simpl in *.
  - inversion H; subst. destruct rest as [|c rest]; [reflexivity|].
    apply number_stop_cons in Hs as (Hd & _). simpl. now rewrite Hd.
  - destruct (is_digit c).
    + destruct (span_digits s) as [ds' r'] eqn:E. inversion H; subst.
      now rewrite (IH ds' r eq_refl Hs).
    + now inversion H.
Qed.

Lemma span_digits_concat (s ds r : pystr) :
  span_digits s = (ds, r) -> s = ds ++ r.
Proof.
  revert ds r; induction s as [|c s IH]; intros ds r H; simpl in *.
  - now inversion H.
  - destruct (is_digit c).
    + destruct (span_digits s) as [ds' r'] eqn:E. inversion H; subst.
      simpl. f_equal. now apply IH.
    + now inversion H.
Qed.

Lemma match_frac_app (s rest f r : pystr) :
  match_frac s = (f, r) -> number_stop rest = true ->
  match_frac (s ++ rest) = (f, r ++ rest).
Proof.
  intros H Hs. destruct s as [|c s]; simpl in *.
  - inversion H; subst. destruct rest as [|c rest]; [reflexivity|].
    apply number_stop_cons in Hs as (_ & Hd & _). simpl. now rewrite Hd.
  - destruct (c =? DOT); [|now inversion H].
    destruct (span_digits s) as [ds r'] eqn:E.
    rewrite (span_digits_app _ _ _ _ E Hs).
    destruct ds; now inversion H.
Qed.

Lemma match_frac_concat (s f r : pystr) : match_frac s = (f, r) -> s = f ++ r.
Proof.
  intros H. destruct s as [|c s]; simpl in *; [now inversion H|].
  destruct (N.eqb_spec c DOT); [|now inversion H].
  destruct (span_digits s) as [ds r'] eqn:E. apply span_digits_concat in E.
  destruct ds; inversion H; subst; reflexivity.
Qed.

Lemma match_exp_app (s rest e r : pystr) :
  match_exp s = (e, r) -> number_stop rest = true ->
  match_exp (s ++ rest) = (e, r ++ rest).
Proof.
  intros H Hs. destruct s as [|c s]; simpl in *.
  - inversion H; subst. destruct rest as [|c rest]; [reflexivity|].
    apply number_stop_cons in Hs as (_ & _ & He1 & He2 & _). simpl. now rewrite He1, He2.
  - destruct ((c =? CH_e) || (c =? CH_E)); [|now inversion H].
    destruct s as [|c1 s]; simpl in *.
    + inversion H; subst. destruct rest as [|c2 rest]; [reflexivity|].
      apply number_stop_cons in Hs as (Hd & _ & _ & _ & Hp & Hm). simpl.
      rewrite Hm, Hp. simpl. now rewrite Hd.
    + destruct ((c1 =? MINUS) || (c1 =? PLUS)).
      * destruct (span_digits s) as [ds r'] eqn:E.
        rewrite (span_digits_app _ _ _ _ E Hs). destruct ds; now inversion H.
      * destruct (span_digits (c1 :: s)) as [ds r'] eqn:E.
        change (c1 :: s ++ rest) with ((c1 :: s) ++ rest).
        rewrite (span_digits_app _ _ _ _ E Hs). destruct ds; now inversion H.
Qed.

Lemma match_exp_concat (s e r : pystr) : match_exp s = (e, r) -> s = e ++ r.
Proof.
  intros H. destruct s as [|c s]; simpl in *; [now inversion H|].
  destruct ((c =? CH_e) || (c =? CH_E)); [|now inversion H].
  destruct s as [|c1 s]; simpl in *; [now inversion H|].
  destruct ((c1 =? MINUS) || (c1 =? PLUS)).
  - destruct (span_digits s) as [ds r'] eqn:E. apply span_digits_concat in E.
    destruct ds; inversion H; subst; reflexivity.
  - destruct (span_digits (c1 :: s)) as [ds r'] eqn:E.
    apply span_digits_concat in E.
    destruct ds; inversion H; subst; simpl; [reflexivity|].
    f_equal. exact E.
Qed.

Lemma match_integer_app (s rest i r : pystr) :
  match_integer s = Some (i, r) -> number_stop rest = true ->
  match_integer (s ++ rest) = Some (i, r ++ rest).
Proof.
  intros H Hs. unfold match_integer in *.
  destruct s as [|c s]; [discriminate|]. simpl in *.
  destruct (c =? MINUS).
  - destruct s as [|c1 s]; [discriminate|]. simpl.
    destruct (c1 =? CH_0); [now inversion H|].
    destruct (is_digit c1); [|discriminate].
    destruct (span_digits s) as [ds r'] eqn:E.
    rewrite (span_digits_app _ _ _ _ E Hs). now inversion H.
  - destruct (c =? CH_0); [now inversion H|].
    destruct (is_digit c); [|discriminate].
    destruct (span_digits s) as [ds r'] eqn:E.
    rewrite (span_digits_app _ _ _ _ E Hs). now inversion H.
Qed.

Lemma match_integer_concat (s i r : pystr) :
  match_integer s = Some (i, r) -> s = i ++ r.
Proof.
  intros H. unfold match_integer in *.
  destruct s as [|c s]; [discriminate|]. simpl in *.
  destruct (N.eqb_spec c MINUS).
  - destruct s as [|c1 s]; [discriminate|].
    destruct (N.eqb_spec c1 CH_0); [inversion H; subst; reflexivity|].
    destruct (is_digit c1); [|discriminate].
    destruct (span_digits s) as [ds r'] eqn:E. apply span_digits_concat in E.
    inversion H; subst. reflexivity.
  - destruct (N.eqb_spec c CH_0); [inversion H; subst; reflexivity|].
    destruct (is_digit c); [|discriminate].
    destruct (span_digits s) as [ds r'] eqn:E. apply span_digits_concat in E.
    inversion H; subst. reflexivity.
Qed.

Lemma match_integer_head (s i r : pystr) :
  match_integer s = Some (i, r) ->
  exists c t, s = c :: t /\ (c = MINUS \/ is_digit c = true).
Proof.
  intros H. unfold match_integer in *.
  destruct s as [|c s]; [discriminate|]. exists c, s. split; [reflexivity|].
  simpl in H. destruct (N.eqb_spec c MINUS); [now left|right].
  destruct (N.eqb_spec c CH_0); [subst; reflexivity|].
  destruct (is_digit c); [reflexivity|discriminate].
Qed.

Lemma match_number_app (t rest i f e r : pystr) :
  match_number t = Some (i, f, e, r) -> number_stop rest = true ->
  match_number (t ++ rest) = Some (i, f, e, r ++ rest).
Proof.
  intros H Hs. unfold match_number in *.
  destruct (match_integer t) as [[i' s1]|] eqn:Ei; [|discriminate].
  rewrite (match_integer_app _ _ _ _ Ei Hs).
  destruct (match_frac s1) as [f' s2] eqn:Ef.
  rewrite (match_frac_app _ _ _ _ Ef Hs).
  destruct (match_exp s2) as [e' s3] eqn:Ee.
  rewrite (match_exp_app _ _ _ _ Ee Hs). now inversion H.
Qed.

Lemma match_number_concat (t i f e r : pystr) :
  match_number t = Some (i, f, e, r) -> t = i ++ f ++ e ++ r.
Proof.
  intros H. unfold match_number in *.
  destruct (match_integer t) as [[i' s1]|] eqn:Ei; [|discriminate].
  destruct (match_frac s1) as [f' s2] eqn:Ef.
  destruct (match_exp s2) as [e' s3] eqn:Ee.
  apply match_integer_concat in Ei. apply match_frac_concat in Ef.
  apply match_exp_concat in Ee. inversion H; subst. reflexivity.
Qed.

Lemma match_number_head (t i f e r : pystr) :
  match_number t = Some (i, f, e, r) ->
  exists c t', t = c :: t' /\ (c = MINUS \/ is_digit c = true).
Proof.
  intros H. unfold match_number in *.
  destruct (match_integer t) as [[i' s1]|] eqn:Ei; [|discriminate].
  eapply match_integer_head; eassumption.
Qed.

(** ** Integers *)

Lemma to_uint_head (p : positive) :
  match Pos.to_uint p with
  | Decimal.Nil | Decimal.D0 _ => False
  | _ => True
  end.
Proof.
  pose proof (DecimalPos.Unsigned.to_of (Pos.to_uint p)) as H.
  rewrite DecimalPos.Unsigned.of_to in H. simpl in H.
  pose proof (DecimalPos.Unsigned.to_uint_nonzero p) as Hz.
  pose proof (DecimalPos.Unsigned.to_uint_nonnil p) as Hn.
  destruct (Pos.to_uint p) as [|u| | | | | | | | | ] eqn:E; auto.
  unfold Decimal.unorm in H. simpl in H.
  destruct (Decimal.nzhead u) eqn:Eu.
  - inversion H; subst. now apply Hz.
  - exfalso. apply (DecimalFacts.nzhead_nonzero u u). congruence.
  - discriminate. - discriminate. - discriminate. - discriminate.
  - discriminate. - discriminate. - discriminate. - discriminate.
  - discriminate.
Qed.

Lemma chars_of_uint_digits (u : Decimal.uint) :
  span_digits (chars_of_uint u) = (chars_of_uint u, []).
Proof.
  induction u; simpl; try reflexivity; now rewrite IHu.
Qed.

Lemma uint_of_chars_of_uint (u : Decimal.uint) :
  uint_of_chars (chars_of_uint u) = u.
Proof.
  unfold uint_of_chars. induction u; simpl; try reflexivity; now rewrite IHu.
Qed.

Lemma match_integer_uint (u : Decimal.uint) :
  match u with Decimal.Nil | Decimal.D0 _ => False | _ => True end ->
  match_integer (chars_of_uint u) = Some (chars_of_uint u, [])
  /\ match_integer (MINUS :: chars_of_uint u) = Some (MINUS :: chars_of_uint u, []).
Proof.
  destruct u; intros H; try contradiction; unfold match_integer; simpl;
    rewrite chars_of_uint_digits; split; reflexivity.
Qed.

Lemma match_integer_intstr (z : Z) :
  match_integer (intstr z) = Some (intstr z, []).
Proof.
  unfold intstr, Z.to_int. destruct z as [|p|p].
  - reflexivity.
  - apply match_integer_uint, to_uint_head.
  - apply match_integer_uint, to_uint_head.
Qed.

Lemma match_number_intstr (z : Z) :
  match_number (intstr z) = Some (intstr z, [], [], []).
Proof. unfold match_number. now rewrite match_integer_intstr. Qed.

Lemma chars_of_uint_not_minus (u : Decimal.uint) (c : N) (r : pystr) :
  chars_of_uint u = c :: r -> (c =? MINUS) = false.
Proof. destruct u; simpl; intros H; inversion H; reflexivity. Qed.

Lemma int_of_str_intstr (z : Z) : int_of_str (intstr z) = z.
Proof.
  rewrite <- (DecimalZ.of_to z) at 2. unfold intstr.
  destruct (Z.to_int z) as [u|u] eqn:E.
  - unfold int_of_str. destruct (chars_of_uint u) as [|c r] eqn:Eu.
    + destruct u; try discriminate. reflexivity.
    + rewrite (chars_of_uint_not_minus _ _ _ Eu), <- Eu.
      now rewrite uint_of_chars_of_uint.
  - simpl. now rewrite uint_of_chars_of_uint.
Qed.

(** ** Strings: escapes written by the encoder, read by the decoder *)

Local Ltac Zify.zify_post_hook ::= Z.to_euclidean_division_equations.

Lemma hexval_hex_digit (d : N) : d < 16 -> hexval (hex_digit d) = Some d.
Proof.
  intros H.
  assert (d = 0 \/ d = 1 \/ d = 2 \/ d = 3 \/ d = 4 \/ d = 5 \/ d = 6 \/ d = 7
          \/ d = 8 \/ d = 9 \/ d = 10 \/ d = 11 \/ d = 12 \/ d = 13 \/ d = 14
          \/ d = 15) as D by lia.
  repeat (destruct D as [->|D]; [reflexivity|]). now subst.
Qed.

Lemma decode_u_escape (n : N) (rest : pystr) :
  n < 0x10000 ->
  exists h, u_escape n = BACKSLASH :: CH_u :: h
            /\ decode_uXXXX (h ++ rest) = Some (n, rest).
Proof.
  intros H. unfold u_escape. eexists. split; [reflexivity|].
  simpl. rewrite !hexval_hex_digit by (apply N.mod_lt; discriminate).
  do 2 f_equal. lia.
Qed.

Lemma lor_add (a b k : N) : b < 2 ^ k -> N.lor (a * 2 ^ k) b = a * 2 ^ k + b.
Proof.
  intros H.
  assert (L : N.land (a * 2 ^ k) b = 0).
  { apply N.bits_inj_0. intros i. rewrite N.land_spec.
    destruct (N.lt_ge_cases i k) as [Hi|Hi].
    - now rewrite N.mul_pow2_bits_low.
    - rewrite <- (N.mod_small b (2 ^ k)) by assumption.
      rewrite N.mod_pow2_bits_high by assumption. apply andb_false_r. }
  rewrite <- N.lxor_lor by assumption. symmetry. now apply N.add_nocarry_lxor.
Qed.

(** The two halves written for a character outside the basic plane. *)
Lemma surrogate_halves (c : N) :
  0x10000 <= c -> c < 0x110000 ->
  let n := c - 0x10000 in
  let hi := N.lor 0xd800 (N.land (N.shiftr n 10) 0x3ff) in
  let lo := N.lor 0xdc00 (N.land n 0x3ff) in
  hi = 0xd800 + n / 1024 /\ lo = 0xdc00 + n mod 1024
  /\ 0x10000 + N.lor (N.shiftl (hi - 0xd800) 10) (lo - 0xdc00) = c.
Proof.
  intros H1 H2 n hi lo.
  assert (Hn : n < 0x100000) by (unfold n; lia).
  assert (Hhi : hi = 0xd800 + n / 1024).
  { unfold hi. change 0x3ff with (N.ones 10).
    rewrite N.land_ones, N.shiftr_div_pow2.
    change (2 ^ 10) with 1024. rewrite (N.mod_small (n / 1024)) by lia.
    change 0xd800 with (54 * 2 ^ 10). apply lor_add. change (2 ^ 10) with 1024. lia. }
  assert (Hlo : lo = 0xdc00 + n mod 1024).
  { unfold lo. change 0x3ff with (N.ones 10). rewrite N.land_ones.
    change (2 ^ 10) with 1024.
    change 0xdc00 with (55 * 2 ^ 10). apply lor_add. change (2 ^ 10) with 1024. lia. }
  repeat split; try assumption.
  rewrite Hhi, Hlo, N.shiftl_mul_pow2.
  replace (0xd800 + n / 1024 - 0xd800) with (n / 1024) by lia.
  replace (0xdc00 + n mod 1024 - 0xdc00) with (n mod 1024) by lia.
  rewrite lor_add by (change (2 ^ 10) with 1024; lia).
  change (2 ^ 10) with 1024. unfold n. lia.
Qed.

Lemma strip_prefix_u_other (a b : N) (t : pystr) :
  (b =? CH_u) = false -> strip_prefix [BACKSLASH; CH_u] (a :: b :: t) = None.
Proof.
  intros H. cbn [strip_prefix]. destruct (BACKSLASH =? a); [|reflexivity].
  now rewrite N.eqb_sym, H.
Qed.

Lemma strip_prefix_u_raw (c : N) (t : pystr) :
  (c =? BACKSLASH) = false -> strip_prefix [BACKSLASH; CH_u] (c :: t) = None.
Proof. intros H. cbn [strip_prefix]. now rewrite N.eqb_sym, H. Qed.

Section ScanString.

Local Arguments backslash : simpl never.
Local Arguments decode_uXXXX : simpl never.
Local Arguments strip_prefix : simpl never.
Local Arguments is_high_surrogate : simpl never.
Local Arguments is_low_surrogate : simpl never.
Local Arguments cons_res : simpl never.
Local Arguments u_escape : simpl never.

Lemma scanstring_fuel_raw (fuel : nat) (c : N) (s : pystr) :
  (c =? QUOTE) = false -> (c =? BACKSLASH) = false -> (c <? 0x20) = false ->
  scanstring_fuel (S fuel) (c :: s) = cons_res c (scanstring_fuel fuel s).
Proof. intros H1 H2 H3. cbn [scanstring_fuel]. now rewrite H1, H2, H3. Qed.

Lemma scanstring_fuel_simple (fuel : nat) (esc ch : N) (s : pystr) :
  (esc =? CH_u) = false -> backslash esc = Some ch ->
  scanstring_fuel (S fuel) (BACKSLASH :: esc :: s)
  = cons_res ch (scanstring_fuel fuel s).
Proof. intros H1 H2. cbn [scanstring_fuel N.eqb Pos.eqb]. now rewrite H1, H2. Qed.

Lemma scanstring_fuel_u (fuel : nat) (n : N) (s : pystr) :
  n < 0x10000 ->
  (is_high_surrogate n = true -> no_low_escape s) ->
  scanstring_fuel (S fuel) (u_escape n ++ s)
  = cons_res n (scanstring_fuel fuel s).
Proof.
  intros Hn Hs. destruct (decode_u_escape n s Hn) as (h & -> & Hd).
  cbn [scanstring_fuel N.eqb Pos.eqb app]. rewrite Hd.
  destruct (is_high_surrogate n); [|reflexivity].
  specialize (Hs eq_refl). unfold no_low_escape in Hs.
  destruct (strip_prefix [BACKSLASH; CH_u] s) as [r3|]; [|reflexivity].
  destruct Hs as (u2 & r4 & -> & ->). reflexivity.
Qed.

Lemma scanstring_fuel_pair (fuel : nat) (c : N) (s : pystr) :
  0x10000 <= c -> c < 0x110000 ->
  scanstring_fuel (S fuel)
    ((u_escape (N.lor 0xd800 (N.land (N.shiftr (c - 0x10000) 10) 0x3ff))
        ++ u_escape (N.lor 0xdc00 (N.land (c - 0x10000) 0x3ff))) ++ s)
  = cons_res c (scanstring_fuel fuel s).
Proof.
  intros H1 H2.
  destruct (surrogate_halves c H1 H2) as (Hhi & Hlo & Hc). cbn zeta in *.
  set (n := c - 0x10000) in *.
  set (hi := N.lor 0xd800 (N.land (N.shiftr n 10) 0x3ff)) in *.
  set (lo := N.lor 0xdc00 (N.land n 0x3ff)) in *.
  assert (Hn : n < 0x100000) by (unfold n; lia).
  rewrite <- List.app_assoc.
  assert (Hhi' : hi < 0x10000) by lia.
  assert (Hlo' : lo < 0x10000) by lia.
  destruct (decode_u_escape hi (u_escape lo ++ s) Hhi') as (h & Eh & Hd).
  destruct (decode_u_escape lo s Hlo') as (h' & Eh' & Hd').
  rewrite Eh. cbn [scanstring_fuel N.eqb Pos.eqb app]. rewrite Hd.
  assert (Hh : is_high_surrogate hi = true).
  { unfold is_high_surrogate. apply andb_true_iff. split; apply N.leb_le; lia. }
  assert (Hl : is_low_surrogate lo = true).
  { unfold is_low_surrogate. apply andb_true_iff. split; apply N.leb_le; lia. }
  rewrite Hh, Eh'. change (BACKSLASH :: CH_u :: h') with ([BACKSLASH; CH_u] ++ h').
  rewrite <- List.app_assoc, strip_prefix_app, Hd', Hl, Hc. reflexivity.
Qed.

Lemma escape_char_view (c : N) : c < 0x110000 -> escape_view c (escape_char c).
Proof.
  intros H. unfold escape_char.
  destruct (N.eqb_spec c BACKSLASH); [subst; now apply esc_simple|].
  destruct (N.eqb_spec c QUOTE); [subst; now apply esc_simple|].
  destruct (N.leb_spec SPACE c); destruct (N.leb_spec c 126); cbn [andb];
    try (apply esc_raw; [now apply N.eqb_neq|now apply N.eqb_neq|apply N.ltb_ge; lia]).
  - destruct (N.eqb_spec c BS); [lia|]. destruct (N.eqb_spec c FF); [lia|].
    destruct (N.eqb_spec c LF); [lia|]. destruct (N.eqb_spec c CR); [lia|].
    destruct (N.eqb_spec c TAB); [lia|].
    destruct (N.ltb_spec c 0x10000); [now apply esc_u|now apply esc_pair].
  - destruct (N.eqb_spec c BS); [subst; now apply esc_simple|].
    destruct (N.eqb_spec c FF); [subst; now apply esc_simple|].
    destruct (N.eqb_spec c LF); [subst; now apply esc_simple|].
    destruct (N.eqb_spec c CR); [subst; now apply esc_simple|].
    destruct (N.eqb_spec c TAB); [subst; now apply esc_simple|].
    destruct (N.ltb_spec c 0x10000); [now apply esc_u|lia].
  - lia.
Qed.

Lemma scanstring_fuel_escape (fuel : nat) (c : N) (t : pystr) :
  c < 0x110000 ->
  (is_high_surrogate c = true -> no_low_escape t) ->
  scanstring_fuel (S fuel) (escape_char c ++ t)
  = cons_res c (scanstring_fuel fuel t).
Proof.
  intros Hc Ht.
  destruct (escape_char_view c Hc) as [esc H1 H2|H1 H2 H3|H|H1 H2].
  - now apply scanstring_fuel_simple.
  - now apply scanstring_fuel_raw.
  - now apply scanstring_fuel_u.
  - now apply scanstring_fuel_pair.
Qed.

Lemma escape_char_length (c : N) : c < 0x110000 -> (0 < length (escape_char c))%nat.
Proof.
  intros Hc. destruct (escape_char_view c Hc); simpl; try lia;
    rewrite length_app; simpl; lia.
Qed.

Lemma no_low_escape_next (s : pystr) (rest : pystr) :
  match s with
  | [] => True
  | c :: _ => c < 0x110000 /\ is_low_surrogate c = false
  end ->
  no_low_escape (flat_map escape_char s ++ QUOTE :: rest).
Proof.
  unfold no_low_escape. destruct s as [|c s]; intros H.
  - reflexivity.
  - destruct H as [Hc Hl]. cbn [flat_map]. rewrite <- List.app_assoc.
    destruct (escape_char_view c Hc) as [esc H1 H2|H1 H2 H3|H|H1 H2].
    + cbn [app]. now rewrite strip_prefix_u_other.
    + cbn [app]. now rewrite strip_prefix_u_raw.
    + destruct (decode_u_escape c (flat_map escape_char s ++ QUOTE :: rest) H)
        as (h & -> & Hd).
      change ((BACKSLASH :: CH_u :: h) ++ ?x) with ([BACKSLASH; CH_u] ++ h ++ x).
      rewrite strip_prefix_app. eauto.
    + destruct (surrogate_halves c H1 H2) as (Hhi & _ & _). cbn zeta in Hhi.
      set (hi := N.lor 0xd800 (N.land (N.shiftr (c - 0x10000) 10) 0x3ff)) in *.
      assert (Hhi' : hi < 0x10000) by lia.
      rewrite <- List.app_assoc.
      destruct (decode_u_escape hi
                  (u_escape (N.lor 0xdc00 (N.land (c - 0x10000) 0x3ff))
                     ++ flat_map escape_char s ++ QUOTE :: rest) Hhi')
        as (h & -> & Hd).
      change ((BACKSLASH :: CH_u :: h) ++ ?x) with ([BACKSLASH; CH_u] ++ h ++ x).
      rewrite strip_prefix_app. exists hi. eexists. split; [exact Hd|].
      unfold is_low_surrogate. apply andb_false_iff. left. apply N.leb_gt. lia.
Qed.

Lemma str_ok_cons (c : N) (s : pystr) :
  str_ok (c :: s) = true ->
  c < 0x110000 /\ str_ok s = true
  /\ (is_high_surrogate c = true ->
      match s with
      | [] => True
      | c' :: _ => c' < 0x110000 /\ is_low_surrogate c' = false
      end).
Proof.
  unfold str_ok. cbn [forallb no_surrogate_pair].
  rewrite !andb_true_iff. intros [[H1 H2] [H3 H4]].
  apply N.ltb_lt in H1. repeat split; auto.
  intros Hh. destruct s as [|c' s]; [exact I|].
    cbn [forallb] in H2. apply andb_true_iff in H2 as [H2 _].
    apply N.ltb_lt in H2. split; [exact H2|].
    rewrite Hh in H3. cbn in H3. now apply negb_true_iff in H3.
Qed.

Lemma scanstring_fuel_escaped (s rest : pystr) (fuel : nat) :
  str_ok s = true ->
  (length (flat_map escape_char s ++ QUOTE :: rest) < fuel)%nat ->
  scanstring_fuel fuel (flat_map escape_char s ++ QUOTE :: rest) = Ok s rest.
Proof.
  revert fuel; induction s as [|c s IH]; intros fuel Hok Hf.
  - destruct fuel; [inversion Hf|]. reflexivity.
  - destruct fuel; [inversion Hf|].
    apply str_ok_cons in Hok as (Hc & Hok & Hn).
    cbn [flat_map] in *. rewrite <- List.app_assoc in *.
    assert (Hnext : is_high_surrogate c = true ->
                    no_low_escape (flat_map escape_char s ++ QUOTE :: rest)).
    { intros Hh. apply no_low_escape_next. exact (Hn Hh). }
    rewrite (scanstring_fuel_escape fuel c _ Hc Hnext).
    assert (Hlen : (length (flat_map escape_char s ++ QUOTE :: rest) < fuel)%nat).
    { pose proof (escape_char_length c Hc). rewrite length_app in Hf. lia. }
    rewrite (IH fuel Hok Hlen). reflexivity.
Qed.

(** The decoder reads back what [encode_basestring_ascii] wrote. *)
Lemma scanstring_encoded (s rest : pystr) :
  str_ok s = true ->
  scanstring (flat_map escape_char s ++ QUOTE :: rest) = Ok s rest.
Proof.
  intros H. unfold scanstring. apply scanstring_fuel_escaped; [exact H|lia].
Qed.

End ScanString.

(** ** Objects: building a [dict] from distinct keys *)

Lemma existsb_str_eqb (k : pystr) (ks : list pystr) :
  existsb (str_eqb k) ks = true <-> In k ks.
Proof.
  rewrite existsb_exists. split.
  - intros (x & Hx & E). apply str_eqb_eq in E. now subst.
  - intros H. exists k. split; [exact H|apply str_eqb_refl].
Qed.

Lemma distinct_NoDup (ks : list pystr) : distinct ks = true <-> NoDup ks.
Proof.
  induction ks as [|k ks IH]; simpl.
  - split; [constructor|reflexivity].
  - rewrite andb_true_iff, negb_true_iff, IH. split.
    + intros [H1 H2]. constructor; [|exact H2].
      intros Hin. apply existsb_str_eqb in Hin. congruence.
    + intros H. inversion H; subst. split; [|assumption].
      destruct (existsb (str_eqb k) ks) eqn:E; [|reflexivity].
      apply existsb_str_eqb in E. contradiction.
Qed.

Section Dict.
Variable A : Type.

Lemma dict_set_fresh (k : pystr) (v : A) (d : list (pystr * A)) :
  ~ In k (map fst d) -> dict_set k v d = d ++ [(k, v)].
Proof.
  induction d as [|[k' v'] d IH]; simpl; intros H; [reflexivity|].
  destruct (str_eqb k k') eqn:E.
  - apply str_eqb_eq in E. subst. exfalso. apply H. now left.
  - rewrite IH; [reflexivity|]. intros Hin. apply H. now right.
Qed.

Lemma dict_set_keys (k : pystr) (v : A) (d : list (pystr * A)) :
  In k (map fst d) -> map fst (dict_set k v d) = map fst d.
Proof.
  induction d as [|[k' v'] d IH]; simpl; intros H; [contradiction|].
  destruct (str_eqb k k') eqn:E.
  - apply str_eqb_eq in E. now subst.
  - simpl. rewrite IH; [reflexivity|]. destruct H as [H|H]; [|exact H].
    subst. now rewrite str_eqb_refl in E.
Qed.

Lemma dict_set_NoDup (k : pystr) (v : A) (d : list (pystr * A)) :
  NoDup (map fst d) -> NoDup (map fst (dict_set k v d)).
Proof.
  intros H. destruct (in_dec (list_eq_dec N.eq_dec) k (map fst d)) as [Hin|Hin].
  - now rewrite dict_set_keys.
  - rewrite dict_set_fresh, map_app by assumption. simpl.
    apply NoDup_app; [exact H|repeat constructor; intros []|].
    intros x Hx [Hk|[]]. now subst.
Qed.

Lemma dict_set_Forall (Q : pystr * A -> Prop) (k : pystr) (v : A)
    (d : list (pystr * A)) :
  Q (k, v) -> Forall Q d -> Forall Q (dict_set k v d).
Proof.
  intros Hq H. induction H as [|[k' v'] d Hx Hd IH]; simpl.
  - now repeat constructor.
  - destruct (str_eqb k k'); constructor; auto.
Qed.

Lemma fold_dict_set_distinct (pairs acc : list (pystr * A)) :
  NoDup (map fst (acc ++ pairs)) ->
  fold_left (fun d kv => dict_set (fst kv) (snd kv) d) pairs acc = acc ++ pairs.
Proof.
  revert acc; induction pairs as [|[k v] pairs IH]; intros acc H; simpl.
  - now rewrite List.app_nil_r.
  - rewrite dict_set_fresh.
    + rewrite IH; rewrite <- List.app_assoc; [reflexivity|exact H].
    + rewrite map_app in H. simpl in H. apply NoDup_remove_2 in H.
      intros Hin. apply H. apply in_or_app. now left.
Qed.

Lemma dict_of_pairs_distinct (d : list (pystr * A)) :
  distinct (map fst d) = true -> dict_of_pairs d = d.
Proof.
  intros H. apply distinct_NoDup in H. unfold dict_of_pairs.
  now rewrite fold_dict_set_distinct.
Qed.

Lemma fold_dict_set_inv (Q : pystr * A -> Prop) (pairs acc : list (pystr * A)) :
  NoDup (map fst acc) -> Forall Q acc -> Forall Q pairs ->
  let d := fold_left (fun d kv => dict_set (fst kv) (snd kv) d) pairs acc in
  NoDup (map fst d) /\ Forall Q d.
Proof.
  revert acc; induction pairs as [|[k v] pairs IH]; intros acc Hn Ha Hp; simpl.
  - auto.
  - inversion Hp; subst. apply IH; auto using dict_set_NoDup, dict_set_Forall.
Qed.

Lemma dict_of_pairs_inv (Q : pystr * A -> Prop) (pairs : list (pystr * A)) :
  Forall Q pairs ->
  distinct (map fst (dict_of_pairs pairs)) = true /\ Forall Q (dict_of_pairs pairs).
Proof.
  intros H. rewrite distinct_NoDup.
  apply (fold_dict_set_inv Q pairs []); auto. constructor.
Qed.

End Dict.

(** ** Values: the decoder reads back what the encoder wrote *)

Section ValueInduction.
Context {F : PyFloat} {Lim : PyLimits}.
Variable P : value -> Prop.
Hypothesis HNull : P VNull.
Hypothesis HBool : forall b, P (VBool b).
Hypothesis HInt : forall z, P (VInt z).
Hypothesis HFloat : forall f, P (VFloat f).
Hypothesis HStr : forall s, P (VStr s).
Hypothesis HList : forall l, Forall P l -> P (VList l).
Hypothesis HDict : forall d, Forall (fun kv => P (snd kv)) d -> P (VDict d).

Fixpoint value_nested_ind (v : value) : P v :=
  match v with
  | VNull => HNull
  | VBool b => HBool b
  | VInt z => HInt z
  | VFloat f => HFloat f
  | VStr s => HStr s
  | VList l =>
      HList l
        ((fix go (l : list value) : Forall P l :=
            match l with
            | [] => Forall_nil P
            | x :: r => Forall_cons x (value_nested_ind x) (go r)
            end) l)
  | VDict d =>
      HDict d
        ((fix go (d : list (pystr * value)) : Forall (fun kv => P (snd kv)) d :=
            match d with
            | [] => Forall_nil _
            | (k, x) :: r =>
                Forall_cons (P := fun kv => P (snd kv)) (k, x)
                  (value_nested_ind x) (go r)
            end) d)
  end.

End ValueInduction.

Lemma skip_ws_spaces (n : nat) (s : pystr) : skip_ws (repeat SPACE n ++ s) = skip_ws s.
Proof. induction n; simpl; auto. Qed.

Lemma skip_ws_newline_indent (lvl : nat) (c : N) (t : pystr) :
  is_ws c = false -> skip_ws (newline_indent lvl ++ c :: t) = c :: t.
Proof.
  intros H. unfold newline_indent. cbn [app skip_ws is_ws N.eqb Pos.eqb orb].
  rewrite skip_ws_spaces. cbn [skip_ws]. now rewrite H.
Qed.

Lemma skip_ws_head (c : N) (t : pystr) : is_ws c = false -> skip_ws (c :: t) = c :: t.
Proof. intros H. cbn [skip_ws]. now rewrite H. Qed.

Lemma number_stop_newline_indent (lvl : nat) (t : pystr) :
  number_stop (newline_indent lvl ++ t) = true.
Proof. reflexivity. Qed.

(** The first character of a number. *)
Lemma number_head (c : N) :
  c = MINUS \/ is_digit c = true ->
  is_ws c = false /\ (c =? QUOTE) = false /\ (c =? LBRACE) = false
  /\ (c =? LBRACKET) = false /\ (c =? RBRACKET) = false /\ (c =? RBRACE) = false
  /\ (c =? CH_n) = false /\ (c =? CH_t) = false /\ (c =? CH_f) = false
  /\ (c =? 0xfeff) = false.
Proof.
  intros H.
  assert (R : c = MINUS \/ (CH_0 <= c /\ c <= CH_9)).
  { destruct H as [H|H]; [now left|right]. unfold is_digit in H.
    apply andb_true_iff in H as [H1 H2]. apply N.leb_le in H1, H2. lia. }
  unfold is_ws. rewrite !orb_false_iff.
  repeat split; apply N.eqb_neq; lia.
Qed.

Section RoundTrip.
Context {F : PyFloat} {L : PyFloatLaws F} {Lim : PyLimits}.

Lemma scan_once_number (fuel depth : nat) (s i f e r : pystr) :
  match_number s = Some (i, f, e, r) ->
  scan_once (S fuel) depth s = scan_number s.
Proof.
  intros H. destruct (match_number_head _ _ _ _ _ H) as (c & t & -> & Hc).
  destruct (number_head c Hc) as (_ & H1 & H2 & H3 & _ & _ & H4 & H5 & H6 & _).
  cbn [scan_once]. rewrite H1, H2, H3.
  change (py "null") with [CH_n; 117; 108; 108].
  change (py "true") with [CH_t; 114; 117; 101].
  change (py "false") with [CH_f; 97; 108; 115; 101].
  cbn [strip_prefix].
  rewrite (N.eqb_sym CH_n c), (N.eqb_sym CH_t c), (N.eqb_sym CH_f c), H4, H5, H6.
  reflexivity.
Qed.

Lemma scan_number_intstr (z : Z) (rest : pystr) :
  int_fits z = true ->
  number_stop rest = true ->
  scan_number (intstr z ++ rest) = Ok (VInt z) rest.
Proof.
  intros Hz H. unfold scan_number.
  rewrite (match_number_app _ _ _ _ _ _ (match_number_intstr z) H).
  unfold int_fits in Hz. apply negb_true_iff in Hz. rewrite Hz.
  now rewrite int_of_str_intstr.
Qed.

Lemma scan_number_float_repr (x : finite) (rest : pystr) :
  number_stop rest = true ->
  exists i f e,
    match_number (float_repr x ++ rest) = Some (i, f, e, rest)
    /\ scan_number (float_repr x ++ rest) = Ok (VFloat (FFin x)) rest.
Proof.
  intros H. pose proof (float_repr_literal x) as Hl.
  pose proof (float_repr_roundtrip x) as Hr.
  unfold is_float_literal in Hl.
  destruct (match_number (float_repr x)) as [[[[i f] e] r]|] eqn:E; [|discriminate].
  destruct r; [|discriminate].
  pose proof (match_number_concat _ _ _ _ _ E) as Hc.
  rewrite !List.app_nil_r in Hc.
  pose proof (match_number_app _ _ _ _ _ _ E H) as Ha. cbn [app] in Ha.
  exists i, f, e. split; [exact Ha|].
  unfold scan_number. rewrite Ha, <- Hc, Hr.
  destruct f; [destruct e; [discriminate|]|]; reflexivity.
Qed.

(** The first character of an encoded value. *)
Lemma iterencode_head (lvl : nat) (v : value) :
  exists c t, iterencode lvl v = c :: t
              /\ is_ws c = false /\ (c =? RBRACKET) = false
              /\ (c =? 0xfeff) = false.
Proof.
  destruct v as [|[|]|z|[|[|]|x]|s|[|v l]|[|kv d]];
    try (eexists; eexists; split; [reflexivity|repeat split; reflexivity]).
  - destruct (match_number_head _ _ _ _ _ (match_number_intstr z))
      as (c & t & E & Hc).
    destruct (number_head c Hc) as (H1 & _ & _ & _ & H2 & _ & _ & _ & _ & H3).
    exists c, t. cbn [iterencode]. auto.
  - destruct (scan_number_float_repr x [] eq_refl) as (i & f & e & E & _).
    rewrite List.app_nil_r in E.
    destruct (match_number_head _ _ _ _ _ E) as (c & t & E' & Hc).
    destruct (number_head c Hc) as (H1 & _ & _ & _ & H2 & _ & _ & _ & _ & H3).
    exists c, t. cbn [iterencode floatstr]. auto.
Qed.

Lemma join_cons (sep a : pystr) (cs : list pystr) :
  join sep (a :: cs)
  = a ++ match cs with [] => [] | _ :: _ => sep ++ join sep cs end.
Proof. destruct cs; cbn [join]; [now rewrite List.app_nil_r|reflexivity]. Qed.

Lemma skip_ws_newline_indent_app (lvl : nat) (s : pystr) :
  (exists c t, s = c :: t /\ is_ws c = false) ->
  skip_ws (newline_indent lvl ++ s) = s.
Proof. intros (c & t & -> & H). now apply skip_ws_newline_indent. Qed.

Lemma array_items_encoded (lvl f0 d : nat) (rest : pystr) (l : list value) :
  forall (v : value) (f : nat),
  Forall (fun v => reads_back v /\ within_limits d v = true) (v :: l) ->
  let X := join (COMMA :: newline_indent (S lvl)) (map (iterencode (S lvl)) (v :: l))
             ++ newline_indent lvl ++ RBRACKET :: rest in
  (length X < f0)%nat -> (length X < f)%nat ->
  array_items (scan_once f0 d) f X = Ok (v :: l) rest.
Proof.
  induction l as [|v' l IH]; intros v f Hall X H0 Hf; subst X;
    inversion Hall as [|? ? [Hv Hv'] Hl]; subst.
  - cbn [map join] in *. destruct f; [inversion Hf|].
    cbn [array_items].
    rewrite (Hv (S lvl) f0 d (newline_indent lvl ++ RBRACKET :: rest) eq_refl H0 Hv').
    cbn [bind]. rewrite skip_ws_newline_indent by reflexivity. reflexivity.
  - cbn [map] in *. rewrite join_cons in *. cbn iota in *.
    rewrite <- !List.app_assoc in *. cbn [app] in *.
    destruct f; [inversion Hf|].
    cbn [array_items].
    rewrite (Hv (S lvl) f0 d
               (COMMA :: newline_indent (S lvl)
                  ++ join (COMMA :: newline_indent (S lvl))
                       (iterencode (S lvl) v' :: map (iterencode (S lvl)) l)
                  ++ newline_indent lvl ++ RBRACKET :: rest) eq_refl H0 Hv').
    cbn [bind]. rewrite skip_ws_head by reflexivity. cbn [N.eqb Pos.eqb].
    assert (Hlen : forall n,
      (length (iterencode (S lvl) v ++ COMMA :: newline_indent (S lvl)
         ++ join (COMMA :: newline_indent (S lvl))
              (iterencode (S lvl) v' :: map (iterencode (S lvl)) l)
         ++ newline_indent lvl ++ RBRACKET :: rest) < n)%nat ->
      (length (join (COMMA :: newline_indent (S lvl))
                 (iterencode (S lvl) v' :: map (iterencode (S lvl)) l)
               ++ newline_indent lvl ++ RBRACKET :: rest) < Nat.pred n)%nat).
    { intros n Hn. rewrite length_app in Hn. cbn [length] in Hn.
      rewrite length_app in Hn. lia. }
    rewrite skip_ws_newline_indent_app.
    + assert (H0' := Hlen f0 H0). assert (Hf' := Hlen (S f) Hf).
      cbn [Nat.pred] in Hf'.
      assert (H0'' : (length (join (COMMA :: newline_indent (S lvl))
                 (iterencode (S lvl) v' :: map (iterencode (S lvl)) l)
               ++ newline_indent lvl ++ RBRACKET :: rest) < f0)%nat) by lia.
      rewrite (IH v' f Hl H0'' Hf'). reflexivity.
    + rewrite join_cons, <- List.app_assoc.
      destruct (iterencode_head (S lvl) v') as (c & t & -> & Hc & _).
      cbn [app]. eauto.
Qed.

Lemma skip_ws_iterencode (lvl : nat) (v : value) (rest : pystr) :
  skip_ws (iterencode lvl v ++ rest) = iterencode lvl v ++ rest.
Proof.
  destruct (iterencode_head lvl v) as (c & t & -> & Hc & _).
  cbn [app]. now apply skip_ws_head.
Qed.

Lemma object_item_eq (lvl : nat) (kv : pystr * value) :
  object_item lvl kv = QUOTE :: object_item_body lvl kv.
Proof.
  unfold object_item, object_item_body, encode_basestring_ascii.
  cbn [app]. now rewrite <- List.app_assoc.
Qed.

Lemma object_item_body_scan (lvl f0 d : nat) (k : pystr) (v : value) (R : pystr) :
  str_ok k = true -> reads_back v -> within_limits d v = true ->
  number_stop R = true ->
  (length (iterencode (S lvl) v ++ R) < f0)%nat ->
  (let* (key, r) := scanstring (object_item_body lvl (k, v) ++ R) in
   match skip_ws r with
   | c :: r1 =>
       if c =? COLON then
         let* (v0, r2) := scan_once f0 d (skip_ws r1) in Ok (key, v0) r2
       else DecodeError
   | [] => DecodeError
   end) = Ok (k, v) R.
Proof.
  intros Hk Hv Hv' HR Hlen. unfold object_item_body. cbn [fst snd].
  rewrite <- List.app_assoc. cbn [app].
  rewrite scanstring_encoded by exact Hk. cbn [bind].
  rewrite skip_ws_head by reflexivity. cbn [N.eqb Pos.eqb].
  change (skip_ws (SPACE :: ?s)) with (skip_ws s).
  rewrite skip_ws_iterencode, (Hv (S lvl) f0 d R HR Hlen Hv'). reflexivity.
Qed.

Lemma object_items_step (scan : pystr -> res value) (f : nat) (s : pystr)
    (kv : pystr * value) (R : pystr) :
  (let* (key, r) := scanstring s in
   match skip_ws r with
   | c :: r1 =>
       if c =? COLON then
         let* (v0, r2) := scan (skip_ws r1) in Ok (key, v0) r2
       else DecodeError
   | [] => DecodeError
   end) = Ok kv R ->
  object_items scan (S f) s
  = match skip_ws R with
    | c2 :: r3 =>
        if c2 =? RBRACE then Ok [kv] r3
        else if c2 =? COMMA then
          match skip_ws r3 with
          | c3 :: r4 =>
              if c3 =? QUOTE then
                let* (kvs, r5) := object_items scan f r4 in Ok (kv :: kvs) r5
              else DecodeError
          | [] => DecodeError
          end
        else DecodeError
    | [] => DecodeError
    end.
Proof.
  intros H. cbn [object_items].
  destruct (scanstring s) as [key r| | |e]; cbn [bind] in *; try discriminate.
  destruct (skip_ws r) as [|c r1]; [discriminate|].
  destruct (c =? COLON); [|discriminate].
  destruct (scan (skip_ws r1)) as [v0 r2| | |e]; cbn [bind] in *; try discriminate.
  inversion H; subst. reflexivity.
Qed.

Lemma object_items_encoded (lvl f0 dp : nat) (rest : pystr)
    (d : list (pystr * value)) :
  forall (kv : pystr * value) (f : nat),
  Forall (fun kv => str_ok (fst kv) = true /\ reads_back (snd kv)
                    /\ within_limits dp (snd kv) = true) (kv :: d) ->
  let X := join (COMMA :: newline_indent (S lvl)) (map (object_item lvl) (kv :: d))
             ++ newline_indent lvl ++ RBRACE :: rest in
  (length X < f0)%nat -> (length X < f)%nat ->
  exists X', X = QUOTE :: X'
             /\ object_items (scan_once f0 dp) f X' = Ok (kv :: d) rest.
Proof.
  induction d as [|kv' d IH]; intros [k v] f Hall X H0 Hf; subst X;
    inversion Hall as [|? ? (Hk & Hv & Hv') Hl]; subst; cbn [fst snd] in Hk, Hv, Hv'.
  - cbn [map join] in *. rewrite object_item_eq in *. cbn [app] in *.
    eexists. split; [reflexivity|].
    destruct f; [inversion Hf|].
    rewrite (object_items_step (scan_once f0 dp) f _ (k, v)
               (newline_indent lvl ++ RBRACE :: rest)).
    + rewrite skip_ws_newline_indent by reflexivity. reflexivity.
    + apply object_item_body_scan; auto.
      unfold object_item_body in H0. cbn [length fst snd] in H0.
      rewrite <- List.app_assoc, length_app in H0. cbn [app length] in H0. lia.
  - cbn [map] in *. rewrite join_cons in *. cbn iota in *.
    rewrite (object_item_eq lvl (k, v)) in H0, Hf |- *.
    rewrite <- !List.app_assoc in H0, Hf |- *. cbn [app] in H0, Hf |- *.
    set (J := join (COMMA :: newline_indent (S lvl))
                (object_item lvl kv' :: map (object_item lvl) d)
                ++ newline_indent lvl ++ RBRACE :: rest) in *.
    eexists. split; [reflexivity|].
    destruct f; [inversion Hf|].
    assert (Hlen : forall n,
      (length (QUOTE :: object_item_body lvl (k, v)
                 ++ COMMA :: newline_indent (S lvl) ++ J) < n)%nat ->
      (length (iterencode (S lvl) v ++ COMMA :: newline_indent (S lvl) ++ J) < n)%nat
      /\ (length J < Nat.pred n)%nat).
    { intros n Hn. unfold object_item_body in Hn. cbn [length fst snd] in Hn.
      rewrite <- List.app_assoc, length_app in Hn. cbn [app length] in Hn.
      rewrite !length_app in *. cbn [length] in *. rewrite length_app in *. lia. }
    destruct (Hlen f0 H0) as [Hv0 HJ0]. destruct (Hlen (S f) Hf) as [_ HJf].
    cbn [Nat.pred] in HJf.
    assert (HJ0' : (length J < f0)%nat) by lia.
    destruct (IH kv' f Hl HJ0' HJf) as (X' & EX & HX). fold J in EX.
    rewrite (object_items_step (scan_once f0 dp) f _ (k, v)
               (COMMA :: newline_indent (S lvl) ++ J)).
    + rewrite skip_ws_head by reflexivity. cbn [N.eqb Pos.eqb].
      rewrite EX, skip_ws_newline_indent by reflexivity. cbn [N.eqb Pos.eqb].
      rewrite HX. reflexivity.
    + apply object_item_body_scan; auto.
Qed.

Lemma JSONArray_items (scan : pystr -> res value) (f : nat) (s : pystr)
    (c : N) (t : pystr) (vs : list value) (rest : pystr) :
  skip_ws s = c :: t -> (c =? RBRACKET) = false ->
  array_items scan f (c :: t) = Ok vs rest ->
  JSONArray scan f s = Ok (VList vs) rest.
Proof. intros H1 H2 H3. unfold JSONArray. now rewrite H1, H2, H3. Qed.

Lemma JSONObject_items (scan : pystr -> res value) (f : nat) (s t : pystr)
    (pairs : list (pystr * value)) (rest : pystr) :
  skip_ws s = QUOTE :: t ->
  object_items scan f t = Ok pairs rest ->
  JSONObject scan f s = Ok (VDict (dict_of_pairs pairs)) rest.
Proof. intros H1 H2. unfold JSONObject. rewrite H1. cbn. now rewrite H2. Qed.

Lemma well_formed_list (d : nat) (l : list value) :
  Forall (fun v => well_formed v = true -> reads_back v) l ->
  forallb well_formed l = true -> forallb (within_limits d) l = true ->
  Forall (fun v => reads_back v /\ within_limits d v = true) l.
Proof.
  intros H Hw Hl. rewrite forallb_forall in Hw, Hl. rewrite Forall_forall in *.
  auto.
Qed.

Lemma well_formed_dict (dp : nat) (d : list (pystr * value)) :
  Forall (fun kv => well_formed (snd kv) = true -> reads_back (snd kv)) d ->
  forallb (fun kv => str_ok (fst kv) && well_formed (snd kv)) d = true ->
  forallb (fun kv => within_limits dp (snd kv)) d = true ->
  Forall (fun kv => str_ok (fst kv) = true /\ reads_back (snd kv)
                    /\ within_limits dp (snd kv) = true) d.
Proof.
  intros H Hw Hl. rewrite forallb_forall in Hw, Hl. rewrite Forall_forall in *.
  intros kv Hin. specialize (Hw kv Hin). apply andb_true_iff in Hw as [H1 H2].
  auto.
Qed.

(** Every well-formed value is read back from its encoding, where it
    is within the limits. *)
Lemma well_formed_reads_back (v : value) : well_formed v = true -> reads_back v.
Proof.
  induction v as [|b|z|f|s|l IH|d IH] using value_nested_ind;
    intros Hw lvl fuel depth rest Hs Hf Hl; (destruct fuel; [inversion Hf|]).
  - reflexivity.
  - destruct b; reflexivity.
  - cbn [iterencode].
    rewrite (scan_once_number fuel depth _ _ _ _ _
               (match_number_app _ _ _ _ _ _ (match_number_intstr z) Hs)).
    now apply scan_number_intstr.
  - destruct f as [|[|]|x]; try reflexivity.
    destruct (scan_number_float_repr x rest Hs) as (i & f & e & E & Hn).
    cbn [iterencode floatstr]. now rewrite (scan_once_number fuel depth _ _ _ _ _ E).
  - cbn [iterencode well_formed] in *. unfold encode_basestring_ascii.
    cbn [app scan_once N.eqb Pos.eqb]. rewrite <- List.app_assoc. cbn [app].
    now rewrite scanstring_encoded.
  - cbn [within_limits] in Hl. apply andb_true_iff in Hl as [Hd Hl].
    apply Nat.ltb_lt in Hd.
    assert (Hd' : (decoder_depth <=? depth)%nat = false) by (apply Nat.leb_gt; lia).
    destruct l as [|v l].
    { cbn [iterencode app]. change (py "[]") with [LBRACKET; RBRACKET].
      cbn [app scan_once N.eqb Pos.eqb]. now rewrite Hd'. }
    cbn [well_formed] in Hw. pose proof (well_formed_list _ _ IH Hw Hl) as Hall.
    cbn [iterencode] in *. cbn [app scan_once N.eqb Pos.eqb] in *.
    rewrite Hd'.
    rewrite <- !List.app_assoc in *. cbn [app] in *.
    set (X := join (COMMA :: newline_indent (S lvl))
                (map (iterencode (S lvl)) (v :: l))
                ++ newline_indent lvl ++ RBRACKET :: rest) in *.
    assert (HX : (length X < fuel)%nat).
    { cbn [length] in Hf. unfold newline_indent at 1 in Hf.
      cbn [app length] in Hf. rewrite length_app in Hf. lia. }
    pose proof (array_items_encoded lvl fuel (S depth) rest l v fuel Hall HX HX) as HA.
    fold X in HA.
    assert (HH : exists c t, X = c :: t /\ is_ws c = false /\ (c =? RBRACKET) = false).
    { unfold X. cbn [map]. rewrite join_cons, <- List.app_assoc.
      destruct (iterencode_head (S lvl) v) as (c & t & -> & H1 & H2 & _).
      cbn [app]. eauto. }
    destruct HH as (c & t & EX & H1 & H2).
    apply (JSONArray_items _ _ _ c t).
    + rewrite EX. now apply skip_ws_newline_indent.
    + exact H2.
    + rewrite <- EX. exact HA.
  - cbn [within_limits] in Hl. apply andb_true_iff in Hl as [Hd0 Hl].
    apply Nat.ltb_lt in Hd0.
    assert (Hd' : (decoder_depth <=? depth)%nat = false) by (apply Nat.leb_gt; lia).
    destruct d as [|kv d].
    { cbn [iterencode app]. change (py "{}") with [LBRACE; RBRACE].
      cbn [app scan_once N.eqb Pos.eqb]. now rewrite Hd'. }
    cbn [well_formed] in Hw. apply andb_true_iff in Hw as [Hd Hw].
    pose proof (well_formed_dict _ _ IH Hw Hl) as Hall.
    cbn [iterencode] in *. cbn [app scan_once N.eqb Pos.eqb] in *.
    rewrite Hd'.
    rewrite <- !List.app_assoc in *. cbn [app] in *.
    change (fun kv0 : pystr * value =>
              encode_basestring_ascii (fst kv0)
                ++ COLON :: SPACE :: iterencode (S lvl) (snd kv0))
      with (object_item lvl) in *.
    set (X := join (COMMA :: newline_indent (S lvl))
                (map (object_item lvl) (kv :: d))
                ++ newline_indent lvl ++ RBRACE :: rest) in *.
    assert (HX : (length X < fuel)%nat).
    { cbn [length] in Hf. unfold newline_indent at 1 in Hf.
      cbn [app length] in Hf. rewrite length_app in Hf. unfold X, pystr in *. lia. }
    destruct (object_items_encoded lvl fuel (S depth) rest d kv fuel Hall HX HX)
      as (X' & EX & HO).
    rewrite <- (dict_of_pairs_distinct _ (kv :: d) Hd) at 2.
    apply (JSONObject_items (scan_once fuel (S depth)) fuel
             (newline_indent (S lvl) ++ X) X').
    + assert (EX' : X = QUOTE :: X') by exact EX.
      rewrite EX'. now apply skip_ws_newline_indent.
    + exact HO.
Qed.

(** [json.loads(json.dumps(v, indent=2))] is [v], where [v] is within
    the limits of the decoder. *)
Lemma json_loads_dumps (v : value) :
  well_formed v = true -> within_limits 0 v = true ->
  json_loads (json_dumps v) = Loaded v.
Proof.
  intros Hw Hl. unfold json_loads, json_dumps.
  destruct (iterencode_head 0%nat v) as (c & t & E & H1 & _ & H3).
  assert (Hb : startswith [0xfeff] (iterencode 0 v) = false).
  { rewrite E. unfold startswith. cbn [strip_prefix].
    now rewrite N.eqb_sym, H3. }
  rewrite Hb. rewrite E at 2. rewrite skip_ws_head by exact H1. rewrite <- E.
  rewrite <- (List.app_nil_r (iterencode 0 v)) at 2.
  rewrite (well_formed_reads_back v Hw 0%nat _ 0%nat [] eq_refl).
  - reflexivity.
  - rewrite List.app_nil_r. lia.
  - exact Hl.
Qed.

End RoundTrip.

(** ** What the decoder builds from a text of scalar values *)

Lemma keeps_refl (s : pystr) : keeps s s.
Proof. split; auto. Qed.

Lemma shrinks_keeps (r s : pystr) : shrinks r s -> keeps r s.
Proof. intros [H1 H2]. split; [lia|exact H2]. Qed.

Lemma keeps_trans (a b c : pystr) : keeps a b -> keeps b c -> keeps a c.
Proof. intros [H1 H2] [H3 H4]. split; [lia|auto]. Qed.

Lemma shrinks_keeps_trans (a b c : pystr) : shrinks a b -> keeps b c -> shrinks a c.
Proof. intros [H1 H2] [H3 H4]. split; [lia|auto]. Qed.

Lemma keeps_shrinks_trans (a b c : pystr) : keeps a b -> shrinks b c -> shrinks a c.
Proof. intros [H1 H2] [H3 H4]. split; [lia|auto]. Qed.

Lemma shrinks_trans (a b c : pystr) : shrinks a b -> shrinks b c -> shrinks a c.
Proof. intros [H1 H2] [H3 H4]. split; [lia|auto]. Qed.

Lemma scalar_cons (c : N) (s : pystr) :
  scalar (c :: s) <-> is_scalar c = true /\ scalar s.
Proof. unfold scalar. cbn [forallb]. apply andb_true_iff. Qed.

Lemma scalar_app (p s : pystr) : scalar (p ++ s) <-> scalar p /\ scalar s.
Proof. unfold scalar. rewrite forallb_app. apply andb_true_iff. Qed.

Lemma shrinks_cons (c : N) (s : pystr) : shrinks s (c :: s).
Proof. split; [simpl; lia|]. intros H. now apply scalar_cons in H. Qed.

Lemma keeps_app (p s : pystr) : keeps s (p ++ s).
Proof.
  split; [rewrite length_app; lia|]. intros H. now apply scalar_app in H.
Qed.

Lemma shrinks_app (p s : pystr) : p <> [] -> shrinks s (p ++ s).
Proof.
  intros Hp. split.
  - rewrite length_app. destruct p; [congruence|simpl; lia].
  - intros H. now apply scalar_app in H.
Qed.

Lemma keeps_skip_ws (s : pystr) : keeps (skip_ws s) s.
Proof.
  induction s as [|c s IH]; [apply keeps_refl|]. cbn [skip_ws].
  destruct (is_ws c); [|apply keeps_refl].
  eapply keeps_trans; [exact IH|]. apply shrinks_keeps, shrinks_cons.
Qed.

Lemma keeps_strip_prefix (p s r : pystr) : strip_prefix p s = Some r -> keeps r s.
Proof. intros H. apply strip_prefix_Some in H. subst. apply keeps_app. Qed.

Lemma shrinks_strip_prefix (p s r : pystr) :
  p <> [] -> strip_prefix p s = Some r -> shrinks r s.
Proof. intros Hp H. apply strip_prefix_Some in H. subst. now apply shrinks_app. Qed.

Lemma hexval_bound (c d : N) : hexval c = Some d -> d < 16.
Proof.
  unfold hexval.
  destruct ((48 <=? c) && (c <=? 57)) eqn:E1.
  { apply andb_true_iff in E1 as [H1 H2]. apply N.leb_le in H1, H2.
    intros H. inversion H. lia. }
  destruct ((97 <=? c) && (c <=? 102)) eqn:E2.
  { apply andb_true_iff in E2 as [H1 H2]. apply N.leb_le in H1, H2.
    intros H. inversion H. lia. }
  destruct ((65 <=? c) && (c <=? 70)) eqn:E3; [|discriminate].
  apply andb_true_iff in E3 as [H1 H2]. apply N.leb_le in H1, H2.
  intros H. inversion H. lia.
Qed.

Lemma decode_uXXXX_inv (s : pystr) (u : N) (r : pystr) :
  decode_uXXXX s = Some (u, r) ->
  u < 0x10000 /\ exists a b c d, s = a :: b :: c :: d :: r.
Proof.
  unfold decode_uXXXX. destruct s as [|a [|b [|c [|d r']]]]; try discriminate.
  destruct (hexval a) as [x3|] eqn:E3; [|discriminate].
  destruct (hexval b) as [x2|] eqn:E2; [|discriminate].
  destruct (hexval c) as [x1|] eqn:E1; [|discriminate].
  destruct (hexval d) as [x0|] eqn:E0; [|discriminate].
  intros H. inversion H; subst.
  apply hexval_bound in E3, E2, E1, E0. split; [lia|]. eauto 6.
Qed.

Lemma shrinks_decode (s : pystr) (u : N) (r : pystr) :
  decode_uXXXX s = Some (u, r) -> shrinks r s.
Proof.
  intros H. apply decode_uXXXX_inv in H as (_ & a & b & c & d & ->).
  change (a :: b :: c :: d :: r) with ([a; b; c; d] ++ r).
  now apply shrinks_app.
Qed.

Lemma cons_res_Ok (c : N) (r : res pystr) (out rest : pystr) :
  cons_res c r = Ok out rest -> exists out', out = c :: out' /\ r = Ok out' rest.
Proof.
  unfold cons_res. destruct r as [o r'| | |e]; cbn [bind]; try discriminate.
  intros H. inversion H; subst. eauto.
Qed.

Lemma scanstring_fuel_inv (f : nat) (s out r : pystr) :
  scanstring_fuel (S f) s = Ok out r ->
  (out = [] /\ s = QUOTE :: r)
  \/ exists c out' rest',
       out = c :: out' /\ token s c rest' /\ scanstring_fuel f rest' = Ok out' r.
Proof.
  cbn [scanstring_fuel]. destruct s as [|c rest]; [discriminate|].
  destruct (N.eqb_spec c QUOTE) as [->|Hq].
  { intros H. inversion H; subst. now left. }
  destruct (N.eqb_spec c BACKSLASH) as [->|Hb].
  - destruct rest as [|esc rest1]; [discriminate|].
    destruct (N.eqb_spec esc CH_u) as [->|Hu].
    + destruct (decode_uXXXX rest1) as [[uni rest2]|] eqn:Ed; [|discriminate].
      destruct (is_high_surrogate uni) eqn:Eh.
      * destruct (strip_prefix [BACKSLASH; CH_u] rest2) as [rest3|] eqn:Es.
        -- destruct (decode_uXXXX rest3) as [[uni2 rest4]|] eqn:Ed2; [|discriminate].
           destruct (is_low_surrogate uni2) eqn:El; intros H;
             apply cons_res_Ok in H as (out' & -> & H); right.
           ++ eexists _, out', rest4. repeat split; [|exact H].
              eapply tok_pair; eassumption.
           ++ exists uni, out', rest2. repeat split; [|exact H].
              apply tok_u; [exact Ed|]. intros _. unfold no_low_escape.
              rewrite Es. eauto.
        -- intros H. apply cons_res_Ok in H as (out' & -> & H). right.
           exists uni, out', rest2. repeat split; [|exact H].
           apply tok_u; [exact Ed|]. intros _. unfold no_low_escape.
           now rewrite Es.
      * intros H. apply cons_res_Ok in H as (out' & -> & H). right.
        exists uni, out', rest2. repeat split; [|exact H].
        apply tok_u; [exact Ed|]. congruence.
    + destruct (backslash esc) as [ch|] eqn:Eb; [|discriminate].
      intros H. apply cons_res_Ok in H as (out' & -> & H). right.
      exists ch, out', rest1. repeat split; [|exact H].
      apply tok_simple; [now apply N.eqb_neq|exact Eb].
  - destruct (c <? 0x20) eqn:El; [discriminate|].
    intros H. apply cons_res_Ok in H as (out' & -> & H). right.
    exists c, out', rest. repeat split; [|exact H].
    apply tok_raw; [now apply N.eqb_neq|now apply N.eqb_neq|exact El].
Qed.

Lemma backslash_inv (esc ch : N) : backslash esc = Some ch -> ch < 128.
Proof.
  unfold backslash.
  repeat match goal with
         | |- (if ?b then _ else _) = _ -> _ => destruct b
         end; intros H; inversion H; reflexivity.
Qed.

Lemma is_scalar_inv (c : N) :
  is_scalar c = true ->
  c < 0x110000 /\ is_high_surrogate c = false /\ is_low_surrogate c = false.
Proof.
  unfold is_scalar, is_surrogate, is_high_surrogate, is_low_surrogate.
  rewrite andb_true_iff, negb_true_iff, andb_false_iff, N.ltb_lt, !N.leb_gt.
  intros [H1 H2]. rewrite !andb_false_iff, !N.leb_gt. lia.
Qed.

Lemma small_not_surrogate (c : N) :
  c < 0xd800 -> is_high_surrogate c = false /\ is_low_surrogate c = false.
Proof.
  unfold is_high_surrogate, is_low_surrogate.
  rewrite !andb_false_iff, !N.leb_gt. lia.
Qed.

Lemma big_not_surrogate (c : N) :
  0x10000 <= c -> is_high_surrogate c = false /\ is_low_surrogate c = false.
Proof.
  unfold is_high_surrogate, is_low_surrogate.
  rewrite !andb_false_iff, !N.leb_gt. lia.
Qed.

(** The character joined from two surrogate escapes. *)
Lemma joined_bound (uni uni2 : N) :
  is_high_surrogate uni = true -> is_low_surrogate uni2 = true ->
  let c := 0x10000 + N.lor (N.shiftl (uni - 0xd800) 10) (uni2 - 0xdc00) in
  0x10000 <= c /\ c < 0x110000.
Proof.
  unfold is_high_surrogate, is_low_surrogate.
  rewrite !andb_true_iff, !N.leb_le. intros [H1 H2] [H3 H4]. cbn zeta.
  rewrite N.shiftl_mul_pow2, lor_add by (change (2 ^ 10) with 1024; lia).
  change (2 ^ 10) with 1024. lia.
Qed.

Lemma token_shrinks (s : pystr) (c : N) (rest : pystr) :
  token s c rest -> shrinks rest s.
Proof.
  intros H. destruct H as [c rest|esc ch rest|uni rest1 rest2 Hd
                            |uni uni2 rest1 rest2 rest3 rest4 Hd _ Hs Hd2].
  - apply shrinks_cons.
  - eapply shrinks_trans; apply shrinks_cons.
  - apply shrinks_decode in Hd.
    eapply shrinks_trans; [exact Hd|].
    eapply shrinks_trans; apply shrinks_cons.
  - apply shrinks_decode in Hd, Hd2. apply keeps_strip_prefix in Hs.
    eapply shrinks_trans; [exact Hd2|].
    eapply keeps_shrinks_trans; [exact Hs|].
    eapply shrinks_trans; [exact Hd|].
    eapply shrinks_trans; apply shrinks_cons.
Qed.

Lemma token_char (s : pystr) (c : N) (rest : pystr) :
  token s c rest -> scalar s ->
  c < 0x110000 /\ (is_high_surrogate c = true -> no_low_escape rest).
Proof.
  intros H Hs. destruct H as [c rest|esc ch rest He Hb|uni rest1 rest2 Hd Hn
                               |uni uni2 rest1 rest2 rest3 rest4 Hd Hh Hp Hd2 Hl].
  - apply scalar_cons in Hs as [Hc _]. apply is_scalar_inv in Hc as (K1 & K2 & _).
    split; [exact K1|congruence].
  - apply backslash_inv in Hb.
    destruct (small_not_surrogate ch) as [K1 _]; [lia|]. split; [lia|congruence].
  - apply decode_uXXXX_inv in Hd as [Hu _]. split; [lia|exact Hn].
  - destruct (joined_bound uni uni2 Hh Hl) as [H1 H2]. cbn zeta in *.
    split; [exact H2|].
    destruct (big_not_surrogate _ H1) as [H3 _]. congruence.
Qed.

Lemma token_not_low (s : pystr) (c : N) (rest : pystr) :
  token s c rest -> scalar s -> no_low_escape s -> is_low_surrogate c = false.
Proof.
  intros H Hs Hn. destruct H as [c rest|esc ch rest He Hb|uni rest1 rest2 Hd _
                                  |uni uni2 rest1 rest2 rest3 rest4 Hd Hh Hp Hd2 Hl].
  - apply scalar_cons in Hs as [Hc _]. now apply is_scalar_inv in Hc.
  - apply backslash_inv in Hb. apply small_not_surrogate. lia.
  - unfold no_low_escape in Hn.
    change (BACKSLASH :: CH_u :: rest1) with ([BACKSLASH; CH_u] ++ rest1) in Hn.
    rewrite strip_prefix_app in Hn. destruct Hn as (u2 & r4 & E & Hl).
    congruence.
  - destruct (joined_bound uni uni2 Hh Hl) as [H1 _]. cbn zeta in H1.
    now apply big_not_surrogate.
Qed.

Lemma str_ok_cons_intro (c : N) (out : pystr) :
  c < 0x110000 -> str_ok out = true ->
  (is_high_surrogate c = true ->
   match out with [] => True | c' :: _ => is_low_surrogate c' = false end) ->
  str_ok (c :: out) = true.
Proof.
  unfold str_ok. cbn [forallb no_surrogate_pair].
  rewrite !andb_true_iff. intros Hc [H1 H2] Hn.
  repeat split; auto; [now apply N.ltb_lt|].
  destruct out as [|c' out]; [reflexivity|].
  destruct (is_high_surrogate c); [|reflexivity].
  now rewrite (Hn eq_refl).
Qed.

Lemma scanstring_fuel_good (f : nat) :
  forall s out r,
  scanstring_fuel f s = Ok out r ->
  shrinks r s
  /\ (scalar s -> str_ok out = true)
  /\ (scalar s -> no_low_escape s ->
      match out with [] => True | c :: _ => is_low_surrogate c = false end).
Proof.
  induction f as [|f IH]; intros s out r H; [discriminate|].
  apply scanstring_fuel_inv in H as [[-> ->]|(c & out' & rest' & -> & Ht & H)].
  - split; [apply shrinks_cons|]. split; auto.
  - destruct (IH _ _ _ H) as (H1 & H2 & H3).
    pose proof (token_shrinks _ _ _ Ht) as Hsh.
    split; [eapply shrinks_trans; eassumption|]. split.
    + intros Hs. destruct (token_char _ _ _ Ht Hs) as [Hc Hn].
      destruct Hsh as [_ Hsc]. specialize (Hsc Hs).
      apply str_ok_cons_intro; [exact Hc|exact (H2 Hsc)|].
      intros Hh. exact (H3 Hsc (Hn Hh)).
    + intros Hs Hn. eapply token_not_low; eassumption.
Qed.

Lemma scanstring_good (s out r : pystr) :
  scanstring s = Ok out r -> shrinks r s /\ (scalar s -> str_ok out = true).
Proof.
  intros H. apply scanstring_fuel_good in H as (H1 & H2 & _). auto.
Qed.

Lemma bind_Ok {A B : Type} (r : res A) (k : A -> pystr -> res B) (b : B)
    (rest : pystr) :
  bind r k = Ok b rest -> exists a r', r = Ok a r' /\ k a r' = Ok b rest.
Proof. destruct r; cbn [bind]; try discriminate. eauto. Qed.

Lemma match_integer_nonempty (s i r : pystr) :
  match_integer s = Some (i, r) -> i <> [].
Proof.
  unfold match_integer. destruct (match_sign s) as [sign s1].
  destruct s1 as [|c r']; [discriminate|].
  destruct (c =? CH_0).
  - intros H. inversion H. destruct sign; discriminate.
  - destruct (is_digit c); [|discriminate].
    destruct (span_digits r') as [ds r'']. intros H. inversion H.
    destruct sign; discriminate.
Qed.

Lemma match_number_shrinks (s i f e r : pystr) :
  match_number s = Some (i, f, e, r) -> shrinks r s.
Proof.
  intros H. pose proof (match_number_concat _ _ _ _ _ H) as E.
  unfold match_number in H.
  destruct (match_integer s) as [[i' s1]|] eqn:Ei; [|discriminate].
  destruct (match_frac s1) as [f' s2]. destruct (match_exp s2) as [e' s3].
  inversion H; subst i' f' e' s3. apply match_integer_nonempty in Ei.
  rewrite E. rewrite !List.app_assoc. apply shrinks_app.
  destruct i; [congruence|discriminate].
Qed.

Section Good.
Context {F : PyFloat} {Lim : PyLimits}.

Lemma scan_number_good : good_scan scan_number.
Proof.
  intros s v r. unfold scan_number.
  destruct (match_number s) as [[[[i f] e] rest]|] eqn:E.
  - apply match_number_shrinks in E.
    destruct f; [destruct e; [destruct (over_digit_limit _); [discriminate|]|]|];
      intros H; inversion H; subst; auto.
  - destruct (strip_prefix (py "NaN") s) as [r1|] eqn:E1.
    { intros H. inversion H; subst. split; [|reflexivity].
      eapply shrinks_strip_prefix; [|exact E1]. discriminate. }
    destruct (strip_prefix (py "Infinity") s) as [r2|] eqn:E2.
    { intros H. inversion H; subst. split; [|reflexivity].
      eapply shrinks_strip_prefix; [|exact E2]. discriminate. }
    destruct (strip_prefix (py "-Infinity") s) as [r3|] eqn:E3; [|discriminate].
    intros H. inversion H; subst. split; [|reflexivity].
    eapply shrinks_strip_prefix; [|exact E3]. discriminate.
Qed.

Section Loops.
Variable scan : pystr -> res value.
Hypothesis Hscan : good_scan scan.

Lemma array_items_good (f : nat) :
  forall s vs r,
  array_items scan f s = Ok vs r ->
  shrinks r s /\ (scalar s -> forallb well_formed vs = true).
Proof.
  induction f as [|f IH]; intros s vs r H; [discriminate|].
  cbn [array_items] in H. apply bind_Ok in H as (v & r1 & Hv & H).
  destruct (Hscan _ _ _ Hv) as [S1 W1].
  pose proof (keeps_skip_ws r1) as K1.
  destruct (skip_ws r1) as [|c r'] eqn:E; [discriminate|].
  pose proof (shrinks_cons c r') as S2.
  assert (S3 : shrinks r' s).
  { eapply shrinks_trans; [exact S2|]. eapply keeps_shrinks_trans; eassumption. }
  destruct (c =? RBRACKET).
  - inversion H; subst. split; [exact S3|]. intros Hs. cbn [forallb].
    now rewrite (W1 Hs).
  - destruct (c =? COMMA); [|discriminate].
    apply bind_Ok in H as (vs' & r2 & Hi & H). inversion H; subst.
    destruct (IH _ _ _ Hi) as [S4 W4].
    pose proof (keeps_skip_ws r') as K2.
    assert (S5 : shrinks (skip_ws r') s) by (eapply keeps_shrinks_trans; eassumption).
    split; [eapply shrinks_trans; eassumption|].
    intros Hs. cbn [forallb]. rewrite (W1 Hs). apply W4. now apply S5.
Qed.

Lemma object_items_good (f : nat) :
  forall s pairs r,
  object_items scan f s = Ok pairs r ->
  shrinks r s
  /\ (scalar s ->
      forallb (fun kv => str_ok (fst kv) && well_formed (snd kv)) pairs = true).
Proof.
  induction f as [|f IH]; intros s pairs r H; [discriminate|].
  cbn [object_items] in H. apply bind_Ok in H as (key & r0 & Hk & H).
  destruct (scanstring_good _ _ _ Hk) as [S0 W0].
  pose proof (keeps_skip_ws r0) as K0.
  destruct (skip_ws r0) as [|c r1] eqn:E0; [discriminate|].
  destruct (c =? COLON); [|discriminate].
  apply bind_Ok in H as (v & r2 & Hv & H).
  destruct (Hscan _ _ _ Hv) as [S2 W2].
  assert (S1 : shrinks (skip_ws r1) s).
  { eapply keeps_shrinks_trans; [apply keeps_skip_ws|].
    eapply shrinks_trans; [apply shrinks_cons|].
    eapply keeps_shrinks_trans; eassumption. }
  assert (S2' : shrinks r2 s) by (eapply shrinks_trans; eassumption).
  pose proof (keeps_skip_ws r2) as K2.
  destruct (skip_ws r2) as [|c2 r3] eqn:E2; [discriminate|].
  assert (S3 : shrinks r3 s).
  { eapply shrinks_trans; [apply shrinks_cons|].
    eapply keeps_shrinks_trans; eassumption. }
  assert (W : scalar s -> str_ok (fst (key, v)) && well_formed (snd (key, v)) = true).
  { intros Hs. cbn [fst snd]. rewrite (W0 Hs). apply W2. now apply S1. }
  destruct (c2 =? RBRACE).
  - inversion H; subst. split; [exact S3|]. intros Hs. cbn [forallb].
    now rewrite (W Hs).
  - destruct (c2 =? COMMA); [|discriminate].
    pose proof (keeps_skip_ws r3) as K3.
    destruct (skip_ws r3) as [|c3 r4] eqn:E3; [discriminate|].
    destruct (c3 =? QUOTE); [|discriminate].
    apply bind_Ok in H as (kvs & r5 & Hi & H). inversion H; subst.
    destruct (IH _ _ _ Hi) as [S4 W4].
    assert (S5 : shrinks r4 s).
    { eapply shrinks_trans; [apply shrinks_cons|].
      eapply keeps_shrinks_trans; eassumption. }
    split; [eapply shrinks_trans; eassumption|].
    intros Hs. cbn [forallb]. rewrite (W Hs). apply W4. now apply S5.
Qed.

Lemma JSONArray_good (f : nat) : good_scan (JSONArray scan f).
Proof.
  intros s v r. unfold JSONArray.
  pose proof (keeps_skip_ws s) as K.
  destruct (skip_ws s) as [|c r'] eqn:E; [discriminate|].
  destruct (c =? RBRACKET).
  - intros H. inversion H; subst. split; [|reflexivity].
    eapply shrinks_keeps_trans; [apply shrinks_cons|exact K].
  - intros H. apply bind_Ok in H as (vs & r1 & Hi & H). inversion H; subst.
    destruct (array_items_good _ _ _ _ Hi) as [S1 W1].
    split; [eapply shrinks_keeps_trans; eassumption|].
    intros Hs. cbn [well_formed]. apply W1. now apply K.
Qed.

Lemma JSONObject_good (f : nat) : good_scan (JSONObject scan f).
Proof.
  intros s v r. unfold JSONObject.
  pose proof (keeps_skip_ws s) as K.
  destruct (skip_ws s) as [|c r'] eqn:E; [discriminate|].
  destruct (c =? RBRACE).
  - intros H. inversion H; subst. split; [|reflexivity].
    eapply shrinks_keeps_trans; [apply shrinks_cons|exact K].
  - destruct (c =? QUOTE); [|discriminate].
    intros H. apply bind_Ok in H as (pairs & r1 & Hi & H). inversion H; subst.
    destruct (object_items_good _ _ _ _ Hi) as [S1 W1].
    assert (S2 : shrinks r' s).
    { eapply shrinks_keeps_trans; [apply shrinks_cons|exact K]. }
    split; [eapply shrinks_trans; eassumption|].
    intros Hs. cbn [well_formed].
    assert (Hp : Forall (fun kv => str_ok (fst kv) && well_formed (snd kv) = true)
                   pairs).
    { apply Forall_forall. apply forallb_forall. apply W1. now apply S2. }
    destruct (dict_of_pairs_inv _ _ pairs Hp) as [D1 D2].
    rewrite D1. cbn [andb]. apply forallb_forall. now apply Forall_forall.
Qed.

End Loops.

Lemma scan_once_good (fuel : nat) : forall depth, good_scan (scan_once fuel depth).
Proof.
  induction fuel as [|fuel IH]; intros depth s v r H; [discriminate|].
  cbn [scan_once] in H. destruct s as [|c rest]; [discriminate|].
  pose proof (shrinks_cons c rest) as S0.
  destruct (c =? QUOTE).
  { apply bind_Ok in H as (str & r1 & Hs & H). inversion H; subst.
    destruct (scanstring_good _ _ _ Hs) as [S1 W1].
    split; [eapply shrinks_trans; eassumption|].
    intros Hsc. cbn [well_formed]. apply W1. now apply S0. }
  destruct (c =? LBRACE).
  { destruct (decoder_depth <=? depth)%nat; [discriminate|].
    destruct (JSONObject_good _ (IH (S depth)) fuel _ _ _ H) as [S1 W1].
    split; [eapply shrinks_trans; eassumption|].
    intros Hsc. apply W1. now apply S0. }
  destruct (c =? LBRACKET).
  { destruct (decoder_depth <=? depth)%nat; [discriminate|].
    destruct (JSONArray_good _ (IH (S depth)) fuel _ _ _ H) as [S1 W1].
    split; [eapply shrinks_trans; eassumption|].
    intros Hsc. apply W1. now apply S0. }
  destruct (strip_prefix (py "null") (c :: rest)) as [r1|] eqn:E1.
  { inversion H; subst. split; [|reflexivity].
    eapply shrinks_strip_prefix; [|exact E1]. discriminate. }
  destruct (strip_prefix (py "true") (c :: rest)) as [r2|] eqn:E2.
  { inversion H; subst. split; [|reflexivity].
    eapply shrinks_strip_prefix; [|exact E2]. discriminate. }
  destruct (strip_prefix (py "false") (c :: rest)) as [r3|] eqn:E3.
  { inversion H; subst. split; [|reflexivity].
    eapply shrinks_strip_prefix; [|exact E3]. discriminate. }
  now apply scan_number_good.
Qed.

(** A text of scalar values that [json.loads] accepts denotes a
    well-formed value. *)
Lemma json_loads_Loaded (raw : pystr) (v : value) :
  json_loads raw = Loaded v ->
  exists rest, scan_once (S (length raw)) 0 (skip_ws raw) = Ok v rest.
Proof.
  unfold json_loads. destruct (startswith [0xfeff] raw); [discriminate|].
  destruct (scan_once (S (length raw)) 0 (skip_ws raw)) as [v' rest| | |e];
    try discriminate.
  destruct (skip_ws rest); [|discriminate]. intros H. inversion H; subst.
  now exists rest.
Qed.

Lemma json_loads_well_formed (raw : pystr) (v : value) :
  scalar raw -> json_loads raw = Loaded v -> well_formed v = true.
Proof.
  intros Hs H. destruct (json_loads_Loaded _ _ H) as [rest E].
  destruct (scan_once_good _ _ _ _ _ E) as [_ W]. apply W.
  now apply (keeps_skip_ws raw).
Qed.

End Good.

(** ** The fuel given by [json_loads] is enough *)

Lemma cons_res_fuel (c : N) (r : res pystr) :
  r <> OutOfFuel -> cons_res c r <> OutOfFuel.
Proof. destruct r; cbn; congruence. Qed.

Lemma scanstring_fuel_enough (f : nat) :
  forall s, (length s < f)%nat -> scanstring_fuel f s <> OutOfFuel.
Proof.
  induction f as [|f IH]; intros s Hf; [inversion Hf|].
  cbn [scanstring_fuel]. destruct s as [|c rest]; [discriminate|].
  cbn [length] in Hf.
  destruct (c =? QUOTE); [discriminate|].
  destruct (c =? BACKSLASH).
  - destruct rest as [|esc rest1]; [discriminate|]. cbn [length] in Hf.
    destruct (esc =? CH_u).
    + destruct (decode_uXXXX rest1) as [[uni rest2]|] eqn:Ed; [|discriminate].
      pose proof (shrinks_decode _ _ _ Ed) as [L2 _].
      assert (R2 : scanstring_fuel f rest2 <> OutOfFuel) by (apply IH; lia).
      destruct (is_high_surrogate uni); [|now apply cons_res_fuel].
      destruct (strip_prefix [BACKSLASH; CH_u] rest2) as [rest3|] eqn:Es;
        [|now apply cons_res_fuel].
      destruct (decode_uXXXX rest3) as [[uni2 rest4]|] eqn:Ed2; [|discriminate].
      pose proof (keeps_strip_prefix _ _ _ Es) as [L3 _].
      pose proof (shrinks_decode _ _ _ Ed2) as [L4 _].
      destruct (is_low_surrogate uni2); apply cons_res_fuel; [apply IH; lia|exact R2].
    + destruct (backslash esc); [|discriminate].
      apply cons_res_fuel, IH. lia.
  - destruct (c <? 0x20); [discriminate|]. apply cons_res_fuel, IH. lia.
Qed.

Lemma scanstring_total (s : pystr) : scanstring s <> OutOfFuel.
Proof. apply scanstring_fuel_enough. lia. Qed.

Section Fuel.
Context {F : PyFloat} {Lim : PyLimits}.

Section LoopsFuel.
Variable scan : pystr -> res value.
Variable n : nat.
Hypothesis Hgood : good_scan scan.
Hypothesis Hscan : forall s, (length s <= n)%nat -> scan s <> OutOfFuel.

Lemma array_items_enough (f : nat) :
  forall s, (length s <= n)%nat -> (length s < f)%nat ->
            array_items scan f s <> OutOfFuel.
Proof.
  induction f as [|f IH]; intros s Hn Hf; [inversion Hf|].
  cbn [array_items]. pose proof (Hscan s Hn) as Hs.
  destruct (scan s) as [v r| | |e] eqn:E; cbn [bind]; try congruence.
  destruct (Hgood _ _ _ E) as [[L1 _] _].
  pose proof (keeps_skip_ws r) as [L2 _].
  destruct (skip_ws r) as [|c r'] eqn:E2; [discriminate|]. cbn [length] in L2.
  destruct (c =? RBRACKET); [discriminate|].
  destruct (c =? COMMA); [|discriminate].
  pose proof (keeps_skip_ws r') as [L3 _].
  specialize (IH (skip_ws r')).
  destruct (array_items scan f (skip_ws r')); cbn [bind]; try discriminate.
  apply IH; lia.
Qed.

Lemma object_items_enough (f : nat) :
  forall s, (length s <= n)%nat -> (length s < f)%nat ->
            object_items scan f s <> OutOfFuel.
Proof.
  induction f as [|f IH]; intros s Hn Hf; [inversion Hf|].
  cbn [object_items]. pose proof (scanstring_total s) as Hs.
  destruct (scanstring s) as [key r0| | |e] eqn:E; cbn [bind]; try congruence.
  destruct (scanstring_good _ _ _ E) as [[L0 _] _].
  pose proof (keeps_skip_ws r0) as [K0 _].
  destruct (skip_ws r0) as [|c r1] eqn:E0; [discriminate|]. cbn [length] in K0.
  destruct (c =? COLON); [|discriminate].
  pose proof (keeps_skip_ws r1) as [K1 _].
  assert (Hv : scan (skip_ws r1) <> OutOfFuel) by (apply Hscan; lia).
  destruct (scan (skip_ws r1)) as [v r2| | |e] eqn:E1; cbn [bind]; try congruence.
  destruct (Hgood _ _ _ E1) as [[L2 _] _].
  pose proof (keeps_skip_ws r2) as [K2 _].
  destruct (skip_ws r2) as [|c2 r3] eqn:E2; [discriminate|]. cbn [length] in K2.
  destruct (c2 =? RBRACE); [discriminate|].
  destruct (c2 =? COMMA); [|discriminate].
  pose proof (keeps_skip_ws r3) as [K3 _].
  destruct (skip_ws r3) as [|c3 r4] eqn:E3; [discriminate|]. cbn [length] in K3.
  destruct (c3 =? QUOTE); [|discriminate].
  specialize (IH r4).
  destruct (object_items scan f r4); cbn [bind]; try discriminate.
  apply IH; lia.
Qed.

End LoopsFuel.

Lemma scan_once_enough (fuel : nat) :
  forall depth s, (length s < fuel)%nat -> scan_once fuel depth s <> OutOfFuel.
Proof.
  induction fuel as [|fuel IH]; intros depth s Hf; [inversion Hf|].
  cbn [scan_once]. destruct s as [|c rest]; [discriminate|]. cbn [length] in Hf.
  assert (Hscan : forall s', (length s' <= Nat.pred fuel)%nat ->
                             scan_once fuel (S depth) s' <> OutOfFuel).
  { intros s' Hs'. apply IH. lia. }
  destruct (c =? QUOTE).
  { pose proof (scanstring_total rest) as Hs.
    destruct (scanstring rest); cbn [bind]; congruence. }
  destruct (c =? LBRACE).
  { destruct (decoder_depth <=? depth)%nat; [discriminate|].
    unfold JSONObject. pose proof (keeps_skip_ws rest) as [K _].
    destruct (skip_ws rest) as [|c1 r1]; [discriminate|]. cbn [length] in K.
    destruct (c1 =? RBRACE); [discriminate|].
    destruct (c1 =? QUOTE); [|discriminate].
    pose proof (object_items_enough (scan_once fuel (S depth)) (Nat.pred fuel)
                  (scan_once_good fuel (S depth)) Hscan fuel r1) as Ho.
    destruct (object_items (scan_once fuel (S depth)) fuel r1); cbn [bind];
      try discriminate.
    exfalso. apply Ho; [lia|lia|reflexivity]. }
  destruct (c =? LBRACKET).
  { destruct (decoder_depth <=? depth)%nat; [discriminate|].
    unfold JSONArray. pose proof (keeps_skip_ws rest) as [K _].
    destruct (skip_ws rest) as [|c1 r1]; [discriminate|]. cbn [length] in K.
    destruct (c1 =? RBRACKET); [discriminate|].
    pose proof (array_items_enough (scan_once fuel (S depth)) (Nat.pred fuel)
                  (scan_once_good fuel (S depth)) Hscan fuel (c1 :: r1)) as Ha.
    destruct (array_items (scan_once fuel (S depth)) fuel (c1 :: r1)); cbn [bind];
      try discriminate.
    exfalso. apply Ha; [cbn [length]; lia|cbn [length]; lia|reflexivity]. }
  destruct (strip_prefix (py "null") (c :: rest)); [discriminate|].
  destruct (strip_prefix (py "true") (c :: rest)); [discriminate|].
  destruct (strip_prefix (py "false") (c :: rest)); [discriminate|].
  unfold scan_number.
  destruct (match_number (c :: rest)) as [[[[i f] e] r]|].
  - destruct f; [destruct e; [destruct (over_digit_limit _)|]|]; discriminate.
  - destruct (strip_prefix (py "NaN") (c :: rest)); [discriminate|].
    destruct (strip_prefix (py "Infinity") (c :: rest)); [discriminate|].
    destruct (strip_prefix (py "-Infinity") (c :: rest)); discriminate.
Qed.

(** [json_loads] never runs out of fuel: its [JSONDecodeError] is a
    decoding error. *)
Lemma json_loads_fuel (raw : pystr) :
  scan_once (S (length raw)) 0 (skip_ws raw) <> OutOfFuel.
Proof.
  apply scan_once_enough. pose proof (keeps_skip_ws raw) as [K _]. lia.
Qed.

End Fuel.

(** ** The exact decimal floats satisfy the laws *)

Lemma intstr_shape (z : Z) :
  exists u, u <> Decimal.Nil
            /\ (intstr z = chars_of_uint u \/ intstr z = MINUS :: chars_of_uint u).
Proof.
  unfold intstr, Z.to_int. destruct z as [|p|p].
  - exists (Decimal.D0 Decimal.Nil). split; [discriminate|now left].
  - exists (Pos.to_uint p). split; [apply DecimalPos.Unsigned.to_uint_nonnil|now left].
  - exists (Pos.to_uint p). split; [apply DecimalPos.Unsigned.to_uint_nonnil|now right].
Qed.

Lemma span_digits_digits (ds rest : pystr) :
  span_digits ds = (ds, []) ->
  match rest with [] => True | c :: _ => is_digit c = false end ->
  span_digits (ds ++ rest) = (ds, rest).
Proof.
  revert rest; induction ds as [|d ds IH]; intros rest H Hr; cbn [app].
  - destruct rest as [|c rest]; [reflexivity|]. cbn [span_digits]. now rewrite Hr.
  - cbn [span_digits] in *. destruct (is_digit d); [|discriminate].
    destruct (span_digits ds) as [ds' r'] eqn:E. inversion H; subst.
    now rewrite (IH rest eq_refl Hr).
Qed.

Lemma match_integer_intstr_app (z : Z) (rest : pystr) :
  match rest with [] => True | c :: _ => is_digit c = false end ->
  match_integer (intstr z ++ rest) = Some (intstr z, rest).
Proof.
  intros Hr. unfold intstr, Z.to_int. destruct z as [|p|p].
  - reflexivity.
  - pose proof (to_uint_head p) as Hh.
    destruct (Pos.to_uint p) as [|u|u|u|u|u|u|u|u|u|u]; try contradiction;
      unfold match_integer; cbn [chars_of_uint app match_sign N.eqb Pos.eqb];
      change (is_digit _) with true; cbv iota;
      rewrite (span_digits_digits _ _ (chars_of_uint_digits u) Hr); reflexivity.
  - pose proof (to_uint_head p) as Hh.
    destruct (Pos.to_uint p) as [|u|u|u|u|u|u|u|u|u|u]; try contradiction;
      unfold match_integer; cbn [chars_of_uint app match_sign N.eqb Pos.eqb];
      change (is_digit _) with true; cbv iota;
      rewrite (span_digits_digits _ _ (chars_of_uint_digits u) Hr); reflexivity.
Qed.

Lemma match_exp_intstr (z : Z) :
  match_exp (CH_e :: intstr z) = (CH_e :: intstr z, [])
  /\ exponent_of_group (CH_e :: intstr z) = z.
Proof.
  pose proof (int_of_str_intstr z) as Hz.
  destruct (intstr_shape z) as (u & Hu & [E|E]); rewrite E in *.
  - destruct u; try congruence;
      (split; [cbn [match_exp chars_of_uint N.eqb Pos.eqb orb];
               cbn [span_digits]; change (is_digit _) with true; cbv iota;
               rewrite chars_of_uint_digits; reflexivity
              |exact Hz]).
  - split; [|exact Hz].
    cbn [match_exp N.eqb Pos.eqb orb]. rewrite chars_of_uint_digits.
    destruct u; try congruence; reflexivity.
Qed.

Lemma match_number_dec_repr (x : decfloat) :
  match_number (dec_repr x)
  = Some (intstr (mantissa x), [], CH_e :: intstr (exponent x), []).
Proof.
  unfold match_number, dec_repr.
  rewrite match_integer_intstr_app by reflexivity.
  cbn [match_frac N.eqb Pos.eqb].
  destruct (match_exp_intstr (exponent x)) as [-> _]. reflexivity.
Qed.

#[export] Instance DecimalFloatLaws : PyFloatLaws DecimalFloat.
Proof.
  split; intros x; cbn [finite float_repr float_of_str DecimalFloat] in *.
  - unfold is_float_literal. now rewrite match_number_dec_repr.
  - unfold dec_of_str. rewrite match_number_dec_repr. cbn [tl length].
    rewrite List.app_nil_r, int_of_str_intstr.
    destruct (match_exp_intstr (exponent x)) as [_ ->].
    destruct x. cbn. f_equal. f_equal. lia.
Qed.

(** ** What the decoder returns is within its limits *)

Lemma count_digits_all (s : pystr) :
  forallb is_digit s = true -> count_digits s = length s.
Proof.
  unfold count_digits. induction s as [|c s IH]; [reflexivity|].
  cbn [forallb filter]. intros H. apply andb_true_iff in H as [Hc Hs].
  rewrite Hc. cbn [length]. now rewrite IH.
Qed.

Lemma count_digits_minus (s : pystr) : count_digits (MINUS :: s) = count_digits s.
Proof. reflexivity. Qed.

Lemma chars_of_uint_all_digits (u : Decimal.uint) :
  forallb is_digit (chars_of_uint u) = true.
Proof. induction u; cbn [chars_of_uint forallb]; try reflexivity; exact IHu. Qed.

Lemma length_chars_of_uint (u : Decimal.uint) :
  length (chars_of_uint u) = Decimal.nb_digits u.
Proof. induction u; cbn [chars_of_uint length Decimal.nb_digits]; congruence. Qed.

Lemma count_digits_chars_of_uint (u : Decimal.uint) :
  count_digits (chars_of_uint u) = Decimal.nb_digits u.
Proof.
  rewrite count_digits_all by apply chars_of_uint_all_digits.
  apply length_chars_of_uint.
Qed.

Lemma nb_digits_digit_of (c : N) (u : Decimal.uint) :
  Decimal.nb_digits (digit_of c u) = S (Decimal.nb_digits u).
Proof.
  unfold digit_of.
  repeat match goal with |- context [if ?b then _ else _] => destruct b end;
    reflexivity.
Qed.

Lemma nb_digits_uint_of_chars (s : pystr) :
  Decimal.nb_digits (uint_of_chars s) = length s.
Proof.
  unfold uint_of_chars. induction s as [|c s IH]; [reflexivity|].
  cbn [fold_right length]. now rewrite nb_digits_digit_of, IH.
Qed.

Lemma uint_of_chars_nonnil (c : N) (s : pystr) : uint_of_chars (c :: s) <> Decimal.Nil.
Proof.
  intros H. apply (f_equal Decimal.nb_digits) in H.
  rewrite nb_digits_uint_of_chars in H. discriminate.
Qed.

Lemma span_digits_all (s ds r : pystr) :
  span_digits s = (ds, r) -> forallb is_digit ds = true.
Proof.
  revert ds r; induction s as [|c s IH]; intros ds r H; cbn [span_digits] in H.
  - now inversion H.
  - destruct (is_digit c) eqn:E; [|now inversion H].
    destruct (span_digits s) as [ds' r'] eqn:E'. inversion H; subst.
    cbn [forallb]. now rewrite E, (IH ds' r eq_refl).
Qed.

(** The integer group of a number: an optional minus and digits. *)
Lemma match_integer_shape (s i r : pystr) :
  match_integer s = Some (i, r) ->
  exists c ds, is_digit c = true /\ forallb is_digit ds = true
               /\ (i = c :: ds \/ i = MINUS :: c :: ds).
Proof.
  unfold match_integer.
  assert (G : forall sign s1,
             (sign = [] \/ sign = [MINUS]) ->
             match s1 with
             | c :: r0 =>
                 if c =? CH_0 then Some (sign ++ [CH_0], r0)
                 else if is_digit c
                      then let (ds, r') := span_digits r0 in Some (sign ++ c :: ds, r')
                      else None
             | [] => None
             end = Some (i, r) ->
             exists c ds, is_digit c = true /\ forallb is_digit ds = true
                          /\ (i = c :: ds \/ i = MINUS :: c :: ds)).
  { intros sign s1 Hsign H. destruct s1 as [|c r0]; [discriminate|].
    destruct (N.eqb_spec c CH_0) as [->|_].
    - inversion H; subst. exists CH_0, [].
      split; [reflexivity|]. split; [reflexivity|].
      destruct Hsign as [->| ->]; [now left|now right].
    - destruct (is_digit c) eqn:Ec; [|discriminate].
      destruct (span_digits r0) as [ds r'] eqn:Ed. inversion H; subst.
      exists c, ds. split; [exact Ec|]. split; [exact (span_digits_all _ _ _ Ed)|].
      destruct Hsign as [->| ->]; [now left|now right]. }
  unfold match_sign. destruct s as [|c0 s0]; [discriminate|].
  destruct (c0 =? MINUS); intros H.
  - exact (G [MINUS] s0 (or_intror eq_refl) H).
  - exact (G [] (c0 :: s0) (or_introl eq_refl) H).
Qed.

Lemma is_digit_not_minus (c : N) : is_digit c = true -> (c =? MINUS) = false.
Proof.
  unfold is_digit. intros H. apply andb_true_iff in H as [H _].
  apply N.leb_le in H. apply N.eqb_neq. lia.
Qed.

(** Printing the integer read from an integer group takes no more
    digits than the group has. *)
Lemma digits_of_read_integer (s i r : pystr) :
  match_integer s = Some (i, r) ->
  (count_digits (intstr (int_of_str i)) <= count_digits i)%nat.
Proof.
  intros H. destruct (match_integer_shape _ _ _ H) as (c & ds & Hc & Hds & [->| ->]).
  - assert (Hall : forallb is_digit (c :: ds) = true)
      by (cbn [forallb]; now rewrite Hc, Hds).
    unfold int_of_str. rewrite (is_digit_not_minus c Hc).
    unfold intstr. rewrite DecimalZ.to_of. cbn [Decimal.norm].
    rewrite count_digits_chars_of_uint, (count_digits_all _ Hall).
    rewrite <- (nb_digits_uint_of_chars (c :: ds)).
    apply DecimalFacts.nb_digits_unorm, uint_of_chars_nonnil.
  - assert (Hall : forallb is_digit (c :: ds) = true)
      by (cbn [forallb]; now rewrite Hc, Hds).
    unfold int_of_str. cbn [N.eqb Pos.eqb].
    unfold intstr. rewrite DecimalZ.to_of. cbn [Decimal.norm].
    rewrite count_digits_minus, (count_digits_all _ Hall).
    pose proof (DecimalFacts.nb_digits_nzhead (uint_of_chars (c :: ds))) as Hn.
    rewrite nb_digits_uint_of_chars in Hn.
    destruct (Decimal.nzhead (uint_of_chars (c :: ds))) eqn:E;
      cbn iota; rewrite ?count_digits_minus, count_digits_chars_of_uint;
      try exact Hn.
    cbn [Decimal.nb_digits length]. lia.
Qed.

Section WithinLimits.
Context {F : PyFloat} {Lim : PyLimits}.

Lemma over_digit_limit_mono (n m : nat) :
  (n <= m)%nat -> over_digit_limit m = false -> over_digit_limit n = false.
Proof.
  unfold over_digit_limit. intros Hnm H.
  destruct (Nat.ltb_spec 0 int_max_str_digits) as [H0|H0];
    [|now rewrite andb_false_r].
  rewrite andb_true_r in *.
  apply andb_false_iff in H. apply andb_false_iff.
  destruct H as [H|H]; apply Nat.ltb_ge in H; [left|right]; apply Nat.ltb_ge; lia.
Qed.

Lemma scan_number_within (depth : nat) (s : pystr) (v : value) (r : pystr) :
  scan_number s = Ok v r -> within_limits depth v = true.
Proof.
  unfold scan_number.
  destruct (match_number s) as [[[[i f] e] rest]|] eqn:E.
  - destruct f; [destruct e|]; try (intros H; now inversion H).
    destruct (over_digit_limit (count_digits i)) eqn:Eo; [discriminate|].
    intros H. inversion H; subst. cbn [within_limits]. unfold int_fits.
    apply negb_true_iff. unfold match_number in E.
    destruct (match_integer s) as [[i' s1]|] eqn:Ei; [|discriminate].
    destruct (match_frac s1) as [f' s2]. destruct (match_exp s2) as [e' s3].
    inversion E; subst.
    exact (over_digit_limit_mono _ _ (digits_of_read_integer _ _ _ Ei) Eo).
  - destruct (strip_prefix (py "NaN") s); [intros H; now inversion H|].
    destruct (strip_prefix (py "Infinity") s); [intros H; now inversion H|].
    destruct (strip_prefix (py "-Infinity") s); [intros H; now inversion H|].
    discriminate.
Qed.

Section LoopsWithin.
Variable scan : pystr -> res value.
Variable P : value -> bool.
Hypothesis Hscan : forall s v r, scan s = Ok v r -> P v = true.

Lemma array_items_all (f : nat) :
  forall s vs r, array_items scan f s = Ok vs r -> forallb P vs = true.
Proof.
  induction f as [|f IH]; intros s vs r H; [discriminate|].
  cbn [array_items] in H. apply bind_Ok in H as (v & r1 & Hv & H).
  destruct (skip_ws r1) as [|c r']; [discriminate|].
  destruct (c =? RBRACKET).
  - inversion H; subst. cbn [forallb]. now rewrite (Hscan _ _ _ Hv).
  - destruct (c =? COMMA); [|discriminate].
    apply bind_Ok in H as (vs' & r2 & Hi & H). inversion H; subst.
    cbn [forallb]. now rewrite (Hscan _ _ _ Hv), (IH _ _ _ Hi).
Qed.

Lemma object_items_all (f : nat) :
  forall s pairs r,
  object_items scan f s = Ok pairs r ->
  forallb (fun kv => P (snd kv)) pairs = true.
Proof.
  induction f as [|f IH]; intros s pairs r H; [discriminate|].
  cbn [object_items] in H. apply bind_Ok in H as (key & r0 & Hk & H).
  destruct (skip_ws r0) as [|c r1]; [discriminate|].
  destruct (c =? COLON); [|discriminate].
  apply bind_Ok in H as (v & r2 & Hv & H).
  destruct (skip_ws r2) as [|c2 r3]; [discriminate|].
  destruct (c2 =? RBRACE).
  - inversion H; subst. cbn [forallb snd]. now rewrite (Hscan _ _ _ Hv).
  - destruct (c2 =? COMMA); [|discriminate].
    destruct (skip_ws r3) as [|c3 r4]; [discriminate|].
    destruct (c3 =? QUOTE); [|discriminate].
    apply bind_Ok in H as (kvs & r5 & Hi & H). inversion H; subst.
    cbn [forallb snd]. now rewrite (Hscan _ _ _ Hv), (IH _ _ _ Hi).
Qed.

Lemma dict_of_pairs_all (pairs : list (pystr * value)) :
  forallb (fun kv => P (snd kv)) pairs = true ->
  forallb (fun kv => P (snd kv)) (dict_of_pairs pairs) = true.
Proof.
  intros H. apply forallb_forall. apply Forall_forall.
  refine (proj2 (dict_of_pairs_inv _ (fun kv => P (snd kv) = true) pairs _)).
  apply Forall_forall. now apply forallb_forall.
Qed.

End LoopsWithin.

Lemma scan_once_within (fuel : nat) :
  forall depth s v r,
  scan_once fuel depth s = Ok v r -> within_limits depth v = true.
Proof.
  induction fuel as [|fuel IH]; intros depth s v r H; [discriminate|].
  cbn [scan_once] in H. destruct s as [|c rest]; [discriminate|].
  destruct (c =? QUOTE).
  { apply bind_Ok in H as (str & r1 & _ & H). now inversion H. }
  destruct (c =? LBRACE).
  { destruct (Nat.leb_spec decoder_depth depth) as [|Hd]; [discriminate|].
    unfold JSONObject in H. destruct (skip_ws rest) as [|c1 r1]; [discriminate|].
    cbn [within_limits].
    destruct (c1 =? RBRACE).
    - inversion H; subst. cbn [within_limits forallb].
      rewrite andb_true_r. apply Nat.ltb_lt. lia.
    - destruct (c1 =? QUOTE); [|discriminate].
      apply bind_Ok in H as (pairs & r2 & Hi & H). inversion H; subst.
      cbn [within_limits]. apply andb_true_iff. split; [apply Nat.ltb_lt; lia|].
      apply (dict_of_pairs_all (within_limits (S depth))).
      exact (object_items_all _ _ (IH (S depth)) _ _ _ _ Hi). }
  destruct (c =? LBRACKET).
  { destruct (Nat.leb_spec decoder_depth depth) as [|Hd]; [discriminate|].
    unfold JSONArray in H. destruct (skip_ws rest) as [|c1 r1]; [discriminate|].
    destruct (c1 =? RBRACKET).
    - inversion H; subst. cbn [within_limits forallb].
      rewrite andb_true_r. apply Nat.ltb_lt. lia.
    - apply bind_Ok in H as (vs & r2 & Hi & H). inversion H; subst.
      cbn [within_limits]. apply andb_true_iff. split; [apply Nat.ltb_lt; lia|].
      exact (array_items_all _ _ (IH (S depth)) _ _ _ _ Hi). }
  destruct (strip_prefix (py "null") (c :: rest)); [now inversion H|].
  destruct (strip_prefix (py "true") (c :: rest)); [now inversion H|].
  destruct (strip_prefix (py "false") (c :: rest)); [now inversion H|].
  exact (scan_number_within _ _ _ _ H).
Qed.

(** What [json.loads] returns can be read back by the decoder. *)
Lemma json_loads_within (raw : pystr) (v : value) :
  json_loads raw = Loaded v -> within_limits 0 v = true.
Proof.
  intros H. destruct (json_loads_Loaded _ _ H) as [rest E].
  exact (scan_once_within _ _ _ _ _ E).
Qed.

(** The integers of a value that the decoder can read back can be
    printed. *)
Lemma within_limits_ints_fit (v : value) :
  forall depth, within_limits depth v = true -> ints_fit v = true.
Proof.
  induction v as [|b|z|f|s|l IH|d IH] using value_nested_ind; intros depth H;
    try reflexivity.
  - exact H.
  - cbn [within_limits ints_fit] in *. apply andb_true_iff in H as [_ H].
    apply forallb_forall. intros x Hx. rewrite forallb_forall in H.
    rewrite Forall_forall in IH. exact (IH x Hx _ (H x Hx)).
  - cbn [within_limits ints_fit] in *. apply andb_true_iff in H as [_ H].
    apply forallb_forall. intros x Hx. rewrite forallb_forall in H.
    rewrite Forall_forall in IH. exact (IH x Hx _ (H x Hx)).
Qed.

End WithinLimits.

Section RoundTripLoaded.
Context {F : PyFloat} {L : PyFloatLaws F} {Lim : PyLimits}.

(** Parsing the serialization of a value parsed from a text of scalar
    values gives that value. *)
Lemma json_loads_round_trip (raw : pystr) (v : value) :
  scalar raw -> json_loads raw = Loaded v ->
  json_loads (json_dumps v) = Loaded v.
Proof.
  intros Hs H. apply json_loads_dumps.
  - exact (json_loads_well_formed _ _ Hs H).
  - exact (json_loads_within _ _ H).
Qed.

End RoundTripLoaded.

(** ** The round trip of Stage 1 *)

(** C3, as amended — when the Stage-1 output is a text of Unicode scalar
    values for which [json.loads] and [json.dumps] return, with the
    twelve field names of the schema, the chain goes on to Stage 2 with
    a prompt that embeds the indented serialization of the parsed
    value, and parsing that serialization gives the value parsed from
    the raw output. *)
Theorem stage1_round_trip {F : PyFloat} {L : PyFloatLaws F} {Lim : PyLimits}
    (provider : Provider) (uploaded_file : UploadedFile)
    (file_mime_type : pystr) (w : World) (raw : pystr) (parsed : value) :
  stage1_done provider uploaded_file file_mime_type w raw parsed ->
  scalar raw ->
  has_field_names parsed = true ->
  nth_error (run_calls provider uploaded_file file_mime_type w) 1
  = Some (stage2_request (json_dumps parsed))
  /\ req_contents (stage2_request (json_dumps parsed))
     = [PartText (before_field STAGE_2_PROMPT_TEMPLATE ++ json_dumps parsed
                    ++ after_field STAGE_2_PROMPT_TEMPLATE)]
  /\ json_loads (json_dumps parsed) = json_loads raw.
Proof.
  intros H Hs _. destruct (stage1_done_run _ _ _ _ _ _ H) as [H1 _].
  destruct H as (_ & Hp & _). repeat split; [exact H1|].
  rewrite Hp. now apply json_loads_round_trip with (raw := raw).
Qed.

Lemma stage1_round_trip_witness :
  let provider := scripted [Responds (Some full_output)] in
  nth_error (run_calls provider report_txt (py "text/plain") empty_world) 1
  = Some (stage2_request (json_dumps full_parsed))
  /\ req_contents (stage2_request (json_dumps full_parsed))
     = [PartText (before_field STAGE_2_PROMPT_TEMPLATE ++ json_dumps full_parsed
                    ++ after_field STAGE_2_PROMPT_TEMPLATE)]
  /\ json_loads (json_dumps full_parsed) = json_loads full_output.
Proof.
  apply (stage1_round_trip (scripted [Responds (Some full_output)])
           report_txt (py "text/plain") empty_world full_output full_parsed).
  - repeat split; reflexivity.
  - reflexivity.
  - reflexivity.
Defined.

(** The claim as first worded fails twice.  A raw low surrogate after
    the escape of a high surrogate is accepted, the two are written as
    two escapes, and the decoder joins those into one character: the
    summary read from the serialization is not the one read from the
    output.  And an output that the grammar accepts, with the twelve
    fields, but with an integer of 4301 digits, makes [json.loads]
    raise [ValueError]: the run ends there, after one request. *)
Lemma round_trip_fails_on_surrogates_and_long_integers :
  (forallb is_scalar surrogate_fields_output = false
   /\ json_loads surrogate_fields_output = Loaded surrogate_parsed
   /\ has_field_names surrogate_parsed = true
   /\ dumps_returns surrogate_parsed = true
   /\ match surrogate_parsed with
      | VDict d => dict_get (py "management_summary") d
      | _ => None
      end = Some (VStr [0xd83d; 0xde00])
   /\ match json_loads (json_dumps surrogate_parsed) with
      | Loaded (VDict d) => dict_get (py "management_summary") d
      | _ => None
      end = Some (VStr [0x1f600]))
  /\ (match json_loads (Lim := no_limits 2) long_integer_fields_output with
      | Loaded v => has_field_names v
      | _ => false
      end = true
      /\ json_loads long_integer_fields_output = OtherError ValueError
      /\ run_result (scripted [Responds (Some long_integer_fields_output)])
           report_txt (py "text/plain") empty_world = Uncaught
      /\ run_calls (scripted [Responds (Some long_integer_fields_output)])
           report_txt (py "text/plain") empty_world
         = [stage1_request report_txt (py "text/plain")]).
Proof. repeat split; reflexivity. Qed.

(** The same on the smallest text. *)
Remark raw_surrogates_are_joined :
  forallb is_scalar raw_surrogate_output = false
  /\ json_loads raw_surrogate_output = Loaded (VStr [0xd83d; 0xde00])
  /\ json_loads (json_dumps (VStr [0xd83d; 0xde00])) = Loaded (VStr [0x1f600]).
Proof. repeat split; reflexivity. Qed.

(* ================================================================= *)
(** * Further properties of the code *)

(** ** The chain as a whole *)

Section ChainOutcomes.
Context {F : PyFloat} {Lim : PyLimits}.
Variable provider : Provider.
Variable uploaded_file : UploadedFile.
Variable file_mime_type : pystr.
Variable w : World.

Local Abbreviation result_of := (run_result provider uploaded_file file_mime_type w).
Local Abbreviation calls_of := (run_calls provider uploaded_file file_mime_type w).
Local Abbreviation ui_of := (run_ui provider uploaded_file file_mime_type w).
Local Abbreviation rq1 := (stage1_request uploaded_file file_mime_type).
Local Abbreviation out1 := (stage1_output provider uploaded_file file_mime_type w).
Local Abbreviation out2 := (stage2_output provider uploaded_file file_mime_type w).
Local Abbreviation out3 := (stage3_output provider uploaded_file file_mime_type w).
Local Abbreviation done2 := (stage2_done provider uploaded_file file_mime_type w).
Local Abbreviation failure := (first_failure provider uploaded_file file_mime_type w).

Lemma run_all_stages (raw : pystr) (parsed : value) (s2 report : pystr) :
  done2 raw parsed s2 ->
  truthy (out3 (json_dumps parsed) (extract_intermediate s2)) = Some report ->
  result_of = Return (Some (report, json_dumps parsed, s2))
  /\ calls_of = [rq1; stage2_request (json_dumps parsed);
                 stage3_request (json_dumps parsed) (extract_intermediate s2)]
  /\ ui_of = [StSuccess (py "Stage 1 Complete: Structured Data Extracted.");
              StSuccess (py "Stage 2 Complete: Analysis Ready.");
              StSuccess (0x2705 :: py " Analysis Complete! Report Generated.")].
Proof.
  intros H2 H3. pose proof (tree_stage2_done _ _ _ _ _ _ _ H2) as T.
  cbn zeta in T. unfold stage3_output in H3. rewrite H3 in T.
  exact (run_tree _ _ _ _ _ _ _ T).
Qed.

Local Abbreviation escapes := (stage1_escapes provider uploaded_file file_mime_type w).

(** Every run fails at some stage, ends in an exception of the parse of
    the Stage-1 output, or goes through the three stages. *)
Lemma run_cases :
  (exists k, failure k)
  \/ (exists raw, escapes raw)
  \/ (exists raw parsed s2 report,
        done2 raw parsed s2
        /\ truthy (out3 (json_dumps parsed) (extract_intermediate s2)) = Some report).
Proof.
  destruct (truthy out1) as [raw|] eqn:E1;
    [|left; exists 1%nat; now apply stage1_no_output].
  destruct (json_loads raw) as [parsed| |e] eqn:EJ;
    [|left; exists 1%nat; now apply stage1_not_parseable with (raw := raw)
     |right; left; exists raw; split; [exact E1|left; now exists e]].
  destruct (dumps_returns parsed) eqn:ED;
    [|right; left; exists raw; split; [exact E1|right; now exists parsed]].
  assert (D1 : stage1_done provider uploaded_file file_mime_type w raw parsed)
    by (repeat split; assumption).
  destruct (truthy (out2 (json_dumps parsed))) as [s2|] eqn:E2;
    [|left; exists 2%nat; now apply stage2_no_output with (raw := raw) (parsed := parsed)].
  assert (D2 : done2 raw parsed s2) by (split; assumption).
  destruct (truthy (out3 (json_dumps parsed) (extract_intermediate s2)))
    as [report|] eqn:E3.
  - right. right. exists raw, parsed, s2, report. auto.
  - left. exists 3%nat.
    now apply stage3_no_output with (raw := raw) (parsed := parsed) (s2 := s2).
Qed.

(** A run that ends in such an exception: one request, nothing shown. *)
Lemma run_escapes (raw : pystr) :
  escapes raw -> result_of = Uncaught /\ calls_of = [rq1] /\ ui_of = [].
Proof. intros H. exact (run_tree _ _ _ _ _ _ _ (tree_stage1_escapes _ _ _ _ _ H)). Qed.

Lemma first_failure_calls (k : nat) :
  failure k ->
  exists a1 a2, calls_of = firstn k [rq1; stage2_request a1; stage3_request a1 a2].
Proof.
  intros H. destruct H as [H|raw H1 H2|raw parsed H1 H2|raw parsed s2 H1 H2].
  - destruct (run_tree _ _ _ _ _ _ _ (tree_stage1_no_output _ _ _ _ H)) as (_ & -> & _).
    exists [], []. reflexivity.
  - destruct (run_tree _ _ _ _ _ _ _ (tree_stage1_not_parseable _ _ _ _ _ H1 H2))
      as (_ & -> & _).
    exists [], []. reflexivity.
  - destruct (run_tree _ _ _ _ _ _ _ (tree_stage2_no_output _ _ _ _ _ _ H1 H2))
      as (_ & -> & _).
    exists (json_dumps parsed), []. reflexivity.
  - pose proof (tree_stage2_done _ _ _ _ _ _ _ H1) as T. cbn zeta in T.
    unfold stage3_output in H2. rewrite H2 in T.
    destruct (run_tree _ _ _ _ _ _ _ T) as (_ & -> & _).
    exists (json_dumps parsed), (extract_intermediate s2). reflexivity.
Qed.

(** The requests of a run: a prefix of the three stage requests. *)
Lemma run_calls_prefix :
  exists k a1 a2,
    (1 <= k <= 3)%nat
    /\ calls_of = firstn k [rq1; stage2_request a1; stage3_request a1 a2].
Proof.
  destruct run_cases as [[k Hk]|[[raw He]|(raw & parsed & s2 & report & H2 & H3)]].
  - destruct (first_failure_calls k Hk) as (a1 & a2 & E).
    exists k, a1, a2. split; [|exact E]. destruct Hk; lia.
  - destruct (run_escapes raw He) as (_ & E & _).
    exists 1%nat, [], []. split; [lia|exact E].
  - destruct (run_all_stages _ _ _ _ H2 H3) as (_ & E & _).
    exists 3%nat, (json_dumps parsed), (extract_intermediate s2). split; [lia|exact E].
Qed.

End ChainOutcomes.

Section ChainExtras.
Context {F : PyFloat} {Lim : PyLimits}.

(** X1 — when the three stages return non-empty text (and the first
    parses), the chain returns the report of Stage 3, the serialized
    Stage-1 value and the Stage-2 output as the provider gave it (not
    the part cut out of it); three requests have been sent and the
    three success messages shown, in order. *)
Theorem chain_success (provider : Provider) (uploaded_file : UploadedFile)
    (file_mime_type : pystr) (w : World)
    (raw : pystr) (parsed : value) (s2 report : pystr) :
  stage2_done provider uploaded_file file_mime_type w raw parsed s2 ->
  truthy (stage3_output provider uploaded_file file_mime_type w
            (json_dumps parsed) (extract_intermediate s2)) = Some report ->
  run_result provider uploaded_file file_mime_type w
  = Return (Some (report, json_dumps parsed, s2))
  /\ run_calls provider uploaded_file file_mime_type w
     = [stage1_request uploaded_file file_mime_type;
        stage2_request (json_dumps parsed);
        stage3_request (json_dumps parsed) (extract_intermediate s2)]
  /\ run_ui provider uploaded_file file_mime_type w
     = [StSuccess (py "Stage 1 Complete: Structured Data Extracted.");
        StSuccess (py "Stage 2 Complete: Analysis Ready.");
        StSuccess (0x2705 :: py " Analysis Complete! Report Generated.")].
Proof. apply run_all_stages. Qed.

(** X2 — a run ends in one of three ways: some stage is the first to
    fail and the chain returns [None]; the parse of the Stage-1 output
    ends in an exception that the chain does not catch ([json.loads]
    raises something other than [JSONDecodeError], or [json.dumps]
    raises), after one request and with nothing shown; or the three
    stages are done and the chain returns the triple.  It never returns
    a part of a result. *)
Theorem chain_outcomes (provider : Provider) (uploaded_file : UploadedFile)
    (file_mime_type : pystr) (w : World) :
  (exists k,
      first_failure provider uploaded_file file_mime_type w k
      /\ run_result provider uploaded_file file_mime_type w = Return None)
  \/ (exists raw,
        stage1_escapes provider uploaded_file file_mime_type w raw
        /\ run_result provider uploaded_file file_mime_type w = Uncaught
        /\ run_calls provider uploaded_file file_mime_type w
           = [stage1_request uploaded_file file_mime_type]
        /\ run_ui provider uploaded_file file_mime_type w = [])
  \/ (exists raw parsed s2 report,
        stage2_done provider uploaded_file file_mime_type w raw parsed s2
        /\ truthy (stage3_output provider uploaded_file file_mime_type w
                     (json_dumps parsed) (extract_intermediate s2)) = Some report
        /\ run_result provider uploaded_file file_mime_type w
           = Return (Some (report, json_dumps parsed, s2))).
Proof.
  destruct (run_cases provider uploaded_file file_mime_type w)
    as [[k Hk]|[[raw He]|(raw & parsed & s2 & report & H2 & H3)]].
  - left. exists k. split; [exact Hk|].
    now destruct (first_failure_run _ _ _ _ _ Hk).
  - right. left. exists raw. split; [exact He|].
    exact (run_escapes _ _ _ _ _ He).
  - right. right. exists raw, parsed, s2, report.
    split; [exact H2|]. split; [exact H3|].
    exact (proj1 (run_all_stages _ _ _ _ _ _ _ _ H2 H3)).
Qed.

(** X3 — a run sends between one and three requests, all to the same
    model.  The first carries the bytes of the file, then the Stage-1
    prompt, with the JSON response schema and no cap on the output;
    every later request carries a single text part, the prompt, and
    the default configuration with its cap of 4096 tokens: the file and
    the schema are sent once. *)
Theorem requests_of_a_run (provider : Provider) (uploaded_file : UploadedFile)
    (file_mime_type : pystr) (w : World) :
  (1 <= length (run_calls provider uploaded_file file_mime_type w) <= 3)%nat
  /\ Forall (fun rq => req_model rq = py "gemini-2.5-pro")
       (run_calls provider uploaded_file file_mime_type w)
  /\ (exists rq rest,
        run_calls provider uploaded_file file_mime_type w = rq :: rest
        /\ req_contents rq
           = [PartBytes (file_bytes uploaded_file) file_mime_type;
              PartText STAGE_1_PROMPT]
        /\ req_config rq
           = {| response_mime_type := Some (py "application/json");
                response_schema := Some STAGE_1_SCHEMA;
                max_output_tokens := None |}
        /\ Forall (fun rq' =>
                     (exists prompt, req_contents rq' = [PartText prompt])
                     /\ req_config rq'
                        = {| response_mime_type := None;
                             response_schema := None;
                             max_output_tokens := Some 4096 |})
             rest).
Proof.
  destruct (run_calls_prefix provider uploaded_file file_mime_type w)
    as (k & a1 & a2 & Hk & E).
  rewrite E.
  assert (K : k = 1%nat \/ k = 2%nat \/ k = 3%nat) by lia.
  destruct K as [ -> | [ -> | -> ] ]; cbn [firstn length].
  - split; [lia|]. split; [repeat constructor|].
    eexists _, _. repeat split; constructor.
  - split; [lia|]. split; [repeat constructor|].
    eexists _, _. split; [reflexivity|]. repeat split.
    repeat constructor. eexists; reflexivity.
  - split; [lia|]. split; [repeat constructor|].
    eexists _, _. split; [reflexivity|]. repeat split.
    repeat constructor; eexists; reflexivity.
Qed.

(** X6 — the two templates take any text: whatever the artifact holds,
    braces included, [format] succeeds and puts it as it is between
    the fixed text before the placeholder and the fixed text after it,
    neither of which holds a brace. *)
Theorem templates_take_any_text (a : pystr) :
  py_format STAGE_2_PROMPT_TEMPLATE (py "extracted_data_placeholder") a
  = Some (before_field STAGE_2_PROMPT_TEMPLATE ++ a
            ++ after_field STAGE_2_PROMPT_TEMPLATE)
  /\ py_format STAGE_3_PROMPT_TEMPLATE (py "full_analysis_data_placeholder") a
     = Some (before_field STAGE_3_PROMPT_TEMPLATE ++ a
               ++ after_field STAGE_3_PROMPT_TEMPLATE)
  /\ forallb (fun c => negb ((c =? LBRACE) || (c =? RBRACE)))
       (before_field STAGE_2_PROMPT_TEMPLATE ++ after_field STAGE_2_PROMPT_TEMPLATE
          ++ before_field STAGE_3_PROMPT_TEMPLATE
          ++ after_field STAGE_3_PROMPT_TEMPLATE) = true.
Proof.
  split; [apply stage2_format|]. split; [apply stage3_format|].
  vm_compute. reflexivity.
Qed.

End ChainExtras.

Lemma chain_success_witness :
  let provider := scripted [Responds (Some array_output);
                            Responds (Some marked_output);
                            Responds (Some report_output)] in
  let parsed := VList [VInt 1; VInt 2] in
  run_result provider report_txt (py "text/plain") empty_world
  = Return (Some (report_output, json_dumps parsed, marked_output))
  /\ run_calls provider report_txt (py "text/plain") empty_world
     = [stage1_request report_txt (py "text/plain");
        stage2_request (json_dumps parsed);
        stage3_request (json_dumps parsed) (extract_intermediate marked_output)]
  /\ run_ui provider report_txt (py "text/plain") empty_world
     = [StSuccess (py "Stage 1 Complete: Structured Data Extracted.");
        StSuccess (py "Stage 2 Complete: Analysis Ready.");
        StSuccess (0x2705 :: py " Analysis Complete! Report Generated.")].
Proof.
  apply (chain_success
           (scripted [Responds (Some array_output);
                      Responds (Some marked_output);
                      Responds (Some report_output)])
           report_txt (py "text/plain") empty_world array_output
           (VList [VInt 1; VInt 2]) marked_output report_output).
  - repeat split; reflexivity.
  - reflexivity.
Defined.

(** ** The match of line 199 *)

Section SearchFacts.
Variables op cl : pystr.

Lemma match_any_then_Some (r x : pystr) :
  Re.match_any_then cl r = Some x ->
  exists mid post, x = mid ++ cl /\ r = x ++ post.
Proof.
  revert x; induction r as [|c r IH]; intros x H; simpl in H.
  - destruct (startswith cl []) eqn:E; [|discriminate].
    inversion H; subst x. apply startswith_true in E as [r' E].
    exists [], r'. split; [reflexivity|exact E].
  - destruct (Re.match_any_then cl r) as [y|] eqn:E; simpl in H.
    + inversion H; subst x. destruct (IH y eq_refl) as (mid & post & -> & E').
      exists (c :: mid), post. split; [reflexivity|]. simpl. f_equal. exact E'.
    + destruct (startswith cl (c :: r)) eqn:E'; [|discriminate].
      inversion H; subst x. apply startswith_true in E' as [r' E'].
      exists [], r'. split; [reflexivity|exact E'].
Qed.

Lemma match_at_Some (s m : pystr) :
  Re.match_at op cl s = Some m ->
  exists mid post, m = op ++ mid ++ cl /\ s = m ++ post.
Proof.
  unfold Re.match_at. intros H.
  destruct (strip_prefix op s) as [r|] eqn:E; [|discriminate].
  apply strip_prefix_Some in E.
  destruct (Re.match_any_then cl r) as [x|] eqn:E'; [|discriminate].
  simpl in H. inversion H; subst m.
  destruct (match_any_then_Some _ _ E') as (mid & post & -> & Er).
  exists mid, post. split; [reflexivity|].
  rewrite E, Er. now rewrite <- !List.app_assoc.
Qed.

Lemma search_Some_parts (s m : pystr) :
  Re.search op cl s = Some m ->
  exists pre mid post, m = op ++ mid ++ cl /\ s = pre ++ m ++ post.
Proof.
  induction s as [|c s IH]; intros H; simpl in H.
  - destruct (Re.match_at op cl []) as [m'|] eqn:E; [|discriminate].
    inversion H; subst m'. destruct (match_at_Some _ _ E) as (mid & post & Em & Es).
    exists [], mid, post. split; [exact Em|exact Es].
  - destruct (Re.match_at op cl (c :: s)) as [m'|] eqn:E.
    + inversion H; subst m'. destruct (match_at_Some _ _ E) as (mid & post & Em & Es).
      exists [], mid, post. split; [exact Em|exact Es].
    + destruct (IH H) as (pre & mid & post & Em & Es).
      exists (c :: pre), mid, post. split; [exact Em|]. simpl. now f_equal.
Qed.

Lemma rfind_short (pat s : pystr) :
  (length s < length pat)%nat -> Re.rfind pat s = None.
Proof.
  induction s as [|c s IH]; intros H; simpl.
  - destruct (startswith pat []) eqn:E; [|reflexivity].
    apply startswith_true in E as [r E]. apply (f_equal (@length N)) in E.
    rewrite length_app in E. simpl in *. lia.
  - rewrite IH by (simpl in H; lia). simpl.
    destruct (startswith pat (c :: s)) eqn:E; [|reflexivity].
    apply startswith_true in E as [r E]. apply (f_equal (@length N)) in E.
    rewrite length_app in E. simpl in *. lia.
Qed.

Lemma startswith_app (p r : pystr) : startswith p (p ++ r) = true.
Proof. apply startswith_true. now exists r. Qed.

Lemma rfind_app_self (pat mid : pystr) :
  Re.rfind pat (mid ++ pat) = Some (length mid).
Proof.
  induction mid as [|c mid IH]; simpl.
  - destruct pat as [|a p]; [reflexivity|].
    cbn [app Re.rfind]. rewrite rfind_short by (simpl; lia).
    pose proof (startswith_app (a :: p) []) as E. rewrite List.app_nil_r in E.
    cbn [option_map]. now rewrite E.
  - now rewrite IH.
Qed.

Lemma find_at_head (pat r : pystr) : Re.find pat (pat ++ r) = Some 0%nat.
Proof.
  pose proof (startswith_app pat r) as E.
  destruct (pat ++ r); simpl; now rewrite E.
Qed.

Lemma search_own_match (mid : pystr) :
  Re.search op cl (op ++ mid ++ cl) = Some (op ++ mid ++ cl).
Proof.
  rewrite (search_first_last op cl (op ++ mid ++ cl) 0 (length mid)).
  - f_equal. simpl.
    replace (length op + length mid + length cl)%nat
      with (length (op ++ mid ++ cl)) by (rewrite !length_app; lia).
    apply firstn_all.
  - apply find_at_head.
  - simpl. rewrite skipn_length_app. apply rfind_app_self.
Qed.

Lemma search_skip (s : pystr) (i : nat) :
  Re.find op s = Some i -> Re.search op cl s = Re.search op cl (skipn i s).
Proof.
  revert i; induction s as [|c s IH]; intros i H.
  - simpl in H. destruct (startswith op []); [|discriminate].
    now inversion H.
  - simpl in H. destruct (startswith op (c :: s)) eqn:E.
    + now inversion H.
    + destruct (Re.find op s) as [i'|] eqn:E'; [|discriminate].
      simpl in H. inversion H; subst i.
      cbn [Re.search skipn]. unfold Re.match_at.
      unfold startswith in E.
      destruct (strip_prefix op (c :: s)); [discriminate|].
      now apply IH.
Qed.

Lemma rfind_None_cons (pat : pystr) (c : N) (s : pystr) :
  Re.rfind pat (c :: s) = None -> Re.rfind pat s = None.
Proof.
  simpl. destruct (Re.rfind pat s); simpl; [discriminate|reflexivity].
Qed.

Lemma rfind_None_skipn (pat s : pystr) (k : nat) :
  Re.rfind pat s = None -> Re.rfind pat (skipn k s) = None.
Proof.
  revert s; induction k as [|k IH]; intros s H; [exact H|].
  destruct s as [|c s]; [exact H|].
  simpl. apply IH. exact (rfind_None_cons _ _ _ H).
Qed.

Lemma rfind_None_find (pat s : pystr) :
  Re.rfind pat s = None <-> Re.find pat s = None.
Proof.
  induction s as [|c s IH]; simpl.
  - reflexivity.
  - destruct (startswith pat (c :: s)).
    + split; [|discriminate].
      destruct (Re.rfind pat s); simpl; discriminate.
    + destruct (Re.rfind pat s), (Re.find pat s); simpl; split; intros H;
        try discriminate; try reflexivity.
      * destruct IH as [_ IH]. discriminate (IH eq_refl).
      * destruct IH as [IH _]. discriminate (IH eq_refl).
Qed.

Lemma match_at_None_after (s : pystr) :
  Re.rfind cl (skipn (length op) s) = None -> Re.match_at op cl s = None.
Proof.
  intros H. unfold Re.match_at.
  destruct (strip_prefix op s) as [r|] eqn:E; [|reflexivity].
  apply strip_prefix_Some in E. subst s. rewrite skipn_length_app in H.
  now rewrite (rfind_None_match cl r H).
Qed.

Lemma search_None_after (s : pystr) :
  (forall k, Re.rfind cl (skipn (k + length op) s) = None) ->
  Re.search op cl s = None.
Proof.
  induction s as [|c s IH]; intros H.
  - simpl. now rewrite (match_at_None_after [] (H 0%nat)).
  - cbn [Re.search]. rewrite (match_at_None_after (c :: s) (H 0%nat)).
    apply IH. intros k. exact (H (S k)).
Qed.

Lemma search_None_iff (s : pystr) :
  Re.search op cl s = None <->
  Re.find op s = None
  \/ exists i, Re.find op s = Some i
               /\ Re.find cl (skipn (i + length op) s) = None.
Proof.
  split.
  - intros H. destruct (Re.find op s) as [i|] eqn:E; [|now left].
    right. exists i. split; [reflexivity|].
    apply rfind_None_find.
    destruct (Re.rfind cl (skipn (i + length op) s)) as [j|] eqn:E'; [|reflexivity].
    rewrite (search_first_last op cl s i j E E') in H. discriminate.
  - intros [H|(i & Hi & Hc)]; [now apply search_None_open|].
    rewrite (search_skip s i Hi). apply search_None_after. intros k.
    rewrite skipn_skipn.
    replace (k + length op + i)%nat with (k + (i + length op))%nat by lia.
    rewrite <- skipn_skipn. apply rfind_None_skipn.
    now apply rfind_None_find.
Qed.

End SearchFacts.

(** X4 — the whole Stage-2 output is passed on, for want of a match,
    in two cases only: the opening marker occurs nowhere, or no closing
    marker occurs after the first opening marker (a closing marker
    before it, or one that overlaps it, does not count). *)
Theorem extraction_falls_back_iff (stage2_output : pystr) :
  Re.search OPEN_MARKER CLOSE_MARKER stage2_output = None <->
  Re.find OPEN_MARKER stage2_output = None
  \/ exists i, Re.find OPEN_MARKER stage2_output = Some i
               /\ Re.find CLOSE_MARKER
                    (skipn (i + length OPEN_MARKER) stage2_output) = None.
Proof. apply search_None_iff. Qed.

(** X5 — what Stage 3 is given of the Stage-2 output is a piece of it in
    one block, which begins with the opening marker and ends with the
    closing one whenever it is not the whole output; and cutting it out
    again changes nothing. *)
Theorem extraction_is_a_piece (stage2_output : pystr) :
  (exists pre post,
      stage2_output = pre ++ extract_intermediate stage2_output ++ post)
  /\ (extract_intermediate stage2_output = stage2_output
      \/ exists mid,
           extract_intermediate stage2_output
           = OPEN_MARKER ++ mid ++ CLOSE_MARKER)
  /\ extract_intermediate (extract_intermediate stage2_output)
     = extract_intermediate stage2_output.
Proof.
  destruct (Re.search OPEN_MARKER CLOSE_MARKER stage2_output) as [m|] eqn:E.
  - assert (X : extract_intermediate stage2_output = m)
      by (unfold extract_intermediate; now rewrite E).
    rewrite !X.
    destruct (search_Some_parts _ _ _ _ E) as (pre & mid & post & Em & Es).
    split; [now exists pre, post|]. split; [right; now exists mid|].
    unfold extract_intermediate. rewrite Em.
    now rewrite search_own_match.
  - assert (X : extract_intermediate stage2_output = stage2_output)
      by (unfold extract_intermediate; now rewrite E).
    rewrite !X.
    split; [exists [], []; now rewrite List.app_nil_r|]. split; [now left|].
    reflexivity.
Qed.

(** ** What the serializer writes *)

Lemma is_plain_range (c : N) : 32 <= c <= 126 -> is_plain c = true.
Proof.
  intros H. unfold is_plain. apply orb_true_iff. right.
  apply andb_true_iff. split; apply N.leb_le; lia.
Qed.

Lemma hex_digit_plain (m : N) : m < 16 -> is_plain (hex_digit m) = true.
Proof.
  intros H. apply is_plain_range. unfold hex_digit.
  destruct (N.ltb_spec m 10); lia.
Qed.

Lemma u_escape_plain (n : N) : forallb is_plain (u_escape n) = true.
Proof.
  unfold u_escape. cbn [forallb].
  rewrite !hex_digit_plain by (apply N.mod_lt; discriminate).
  reflexivity.
Qed.

Lemma escape_char_plain (c : N) : forallb is_plain (escape_char c) = true.
Proof.
  unfold escape_char.
  repeat match goal with
         | |- context [if ?b then _ else _] => destruct b eqn:?
         end;
    try reflexivity; try apply u_escape_plain.
  - cbn [forallb]. unfold is_plain.
    match goal with H : _ && _ = true |- _ => rewrite H end.
    now rewrite orb_true_r.
  - rewrite forallb_app, !u_escape_plain. reflexivity.
Qed.

Lemma encode_basestring_ascii_plain (s : pystr) :
  forallb is_plain (encode_basestring_ascii s) = true.
Proof.
  unfold encode_basestring_ascii. cbn [forallb]. rewrite forallb_app.
  replace (is_plain 34) with true by reflexivity. cbn [forallb andb].
  rewrite andb_true_r.
  induction s as [|c s IH]; [reflexivity|].
  cbn [flat_map]. now rewrite forallb_app, escape_char_plain, IH.
Qed.

Lemma chars_of_uint_plain (u : Decimal.uint) :
  forallb is_plain (chars_of_uint u) = true.
Proof. induction u; cbn [chars_of_uint forallb]; try reflexivity; exact IHu. Qed.

Lemma intstr_plain (z : Z) : forallb is_plain (intstr z) = true.
Proof.
  unfold intstr. destruct (Z.to_int z); cbn [forallb];
    rewrite ?chars_of_uint_plain; reflexivity.
Qed.

Lemma is_digit_plain (c : N) : is_digit c = true -> is_plain c = true.
Proof.
  unfold is_digit. intros H. apply andb_true_iff in H as [H1 H2].
  apply N.leb_le in H1, H2. apply is_plain_range. lia.
Qed.

Lemma span_digits_plain (s ds r : pystr) :
  span_digits s = (ds, r) -> forallb is_plain ds = true.
Proof.
  revert ds r; induction s as [|c s IH]; intros ds r H; cbn [span_digits] in H.
  - now inversion H.
  - destruct (is_digit c) eqn:E; [|now inversion H].
    destruct (span_digits s) as [ds' r'] eqn:E'. inversion H; subst.
    cbn [forallb]. now rewrite (is_digit_plain c E), (IH ds' r eq_refl).
Qed.

Lemma match_integer_plain (s i r : pystr) :
  match_integer s = Some (i, r) -> forallb is_plain i = true.
Proof.
  unfold match_integer. destruct (match_sign s) as [sign s1] eqn:Es.
  assert (Hs : forallb is_plain sign = true).
  { unfold match_sign in Es. destruct s as [|c s]; [now inversion Es|].
    destruct (c =? MINUS); now inversion Es. }
  destruct s1 as [|c t]; [discriminate|].
  destruct (c =? CH_0) eqn:E0.
  - intros H. inversion H; subst. now rewrite forallb_app, Hs.
  - destruct (is_digit c) eqn:Ed; [|discriminate].
    destruct (span_digits t) as [ds r'] eqn:E. intros H. inversion H; subst.
    rewrite forallb_app, Hs. cbn [forallb].
    now rewrite (is_digit_plain c Ed), (span_digits_plain _ _ _ E).
Qed.

Lemma match_frac_plain (s f r : pystr) :
  match_frac s = (f, r) -> forallb is_plain f = true.
Proof.
  unfold match_frac. destruct s as [|c t]; [now inversion 1|].
  destruct (c =? DOT) eqn:E; [|now inversion 1].
  destruct (span_digits t) as [ds r'] eqn:Ed.
  pose proof (span_digits_plain _ _ _ Ed) as Hd.
  destruct ds as [|d ds]; intros H; inversion H; subst; [reflexivity|].
  apply N.eqb_eq in E. subst c. cbn [forallb] in *. exact Hd.
Qed.

Lemma match_exp_plain (s e r : pystr) :
  match_exp s = (e, r) -> forallb is_plain e = true.
Proof.
  unfold match_exp. destruct s as [|c t]; [now inversion 1|].
  destruct ((c =? CH_e) || (c =? CH_E)) eqn:E; [|now inversion 1].
  assert (Hc : is_plain c = true).
  { apply orb_true_iff in E as [E|E]; apply N.eqb_eq in E; now subst. }
  destruct (match t with
            | c1 :: r1 => if (c1 =? MINUS) || (c1 =? PLUS) then ([c1], r1) else ([], t)
            | [] => ([], [])
            end) as [sign r1] eqn:Es.
  assert (Hs : forallb is_plain sign = true).
  { destruct t as [|c1 t1]; [now inversion Es|].
    destruct ((c1 =? MINUS) || (c1 =? PLUS)) eqn:E1; [|now inversion Es].
    inversion Es; subst.
    apply orb_true_iff in E1 as [E1|E1]; apply N.eqb_eq in E1; now subst. }
  destruct (span_digits r1) as [ds r'] eqn:Ed.
  pose proof (span_digits_plain _ _ _ Ed) as Hd.
  destruct ds as [|d ds]; intros H; inversion H; subst; [reflexivity|].
  cbn [forallb]. rewrite Hc. rewrite forallb_app, Hs. exact Hd.
Qed.

Lemma float_literal_plain (t : pystr) :
  is_float_literal t = true -> forallb is_plain t = true.
Proof.
  unfold is_float_literal.
  destruct (match_number t) as [[[[i f] e] r]|] eqn:E; [|discriminate].
  destruct r; [|discriminate]. intros _.
  rewrite (match_number_concat _ _ _ _ _ E).
  unfold match_number in E.
  destruct (match_integer t) as [[i' s1]|] eqn:Ei; [|discriminate].
  destruct (match_frac s1) as [f' s2] eqn:Ef.
  destruct (match_exp s2) as [e' s3] eqn:Ee. inversion E; subst.
  rewrite !forallb_app.
  now rewrite (match_integer_plain _ _ _ Ei), (match_frac_plain _ _ _ Ef),
    (match_exp_plain _ _ _ Ee).
Qed.

Lemma newline_indent_plain (lvl : nat) : forallb is_plain (newline_indent lvl) = true.
Proof.
  unfold newline_indent. cbn [forallb].
  replace (is_plain 10) with true by reflexivity. cbn [andb].
  induction (2 * lvl)%nat; [reflexivity|exact IHn].
Qed.

Lemma join_plain (sep : pystr) (chunks : list pystr) :
  forallb is_plain sep = true ->
  Forall (fun c => forallb is_plain c = true) chunks ->
  forallb is_plain (join sep chunks) = true.
Proof.
  intros Hs H. induction H as [|c cs Hc Hcs IH]; [reflexivity|].
  cbn [join]. destruct cs as [|c' cs']; [exact Hc|].
  now rewrite !forallb_app, Hc, Hs, IH.
Qed.

Section Plain.
Context {F : PyFloat} {L : PyFloatLaws F} {Lim : PyLimits}.

Lemma floatstr_plain (f : pyfloat finite) : forallb is_plain (floatstr f) = true.
Proof.
  destruct f as [|[|]|x]; try reflexivity.
  apply float_literal_plain, float_repr_literal.
Qed.

Lemma iterencode_plain (v : value) :
  forall lvl, forallb is_plain (iterencode lvl v) = true.
Proof.
  induction v as [|b|z|f|s|l IH|d IH] using value_nested_ind; intros lvl.
  - reflexivity.
  - now destruct b.
  - apply intstr_plain.
  - apply floatstr_plain.
  - apply encode_basestring_ascii_plain.
  - destruct l as [|x l]; [reflexivity|].
    cbn [iterencode]. cbn [forallb].
    replace (is_plain 91) with true by reflexivity. cbn [andb].
    rewrite !forallb_app, !newline_indent_plain. cbn [forallb andb].
    rewrite join_plain; [reflexivity| |].
    + cbn [forallb]. now rewrite newline_indent_plain.
    + apply Forall_map. revert IH. apply Forall_impl. intros a Ha. apply Ha.
  - destruct d as [|kv d]; [reflexivity|].
    cbn [iterencode]. cbn [forallb].
    replace (is_plain 123) with true by reflexivity. cbn [andb].
    rewrite !forallb_app, !newline_indent_plain. cbn [forallb andb].
    rewrite join_plain; [reflexivity| |].
    + cbn [forallb]. now rewrite newline_indent_plain.
    + apply Forall_map. revert IH. apply Forall_impl. intros a Ha.
      rewrite !forallb_app, encode_basestring_ascii_plain, Ha. reflexivity.
Qed.

End Plain.

Lemma is_plain_scalar (c : N) : is_plain c = true -> is_scalar c = true.
Proof.
  unfold is_plain. intros H.
  assert (B : c < 127).
  { apply orb_true_iff in H as [H|H].
    - apply N.eqb_eq in H. lia.
    - apply andb_true_iff in H as [_ H]. apply N.leb_le in H. lia. }
  unfold is_scalar, is_surrogate. apply andb_true_iff. split.
  - apply N.ltb_lt. lia.
  - apply negb_true_iff, andb_false_iff. left. apply N.leb_gt. lia.
Qed.

Lemma templates_plain :
  forallb is_plain (before_field STAGE_2_PROMPT_TEMPLATE) = true
  /\ forallb is_plain (after_field STAGE_2_PROMPT_TEMPLATE) = true.
Proof. split; vm_compute; reflexivity. Qed.

(** X7 — what Stage 2 is sent is plain ASCII, whatever Stage 1 returned:
    the serialized value holds line feeds and printable ASCII
    characters only (any other character of a string is written as an
    escape), and so does the whole Stage-2 prompt. *)
Theorem stage2_prompt_is_ascii {F : PyFloat} {L : PyFloatLaws F} {Lim : PyLimits}
    (provider : Provider) (uploaded_file : UploadedFile)
    (file_mime_type : pystr) (w : World) (raw : pystr) (parsed : value) :
  stage1_done provider uploaded_file file_mime_type w raw parsed ->
  forallb is_plain (json_dumps parsed) = true
  /\ exists prompt,
       option_map req_contents
         (nth_error (run_calls provider uploaded_file file_mime_type w) 1)
       = Some [PartText prompt]
       /\ forallb is_plain prompt = true.
Proof.
  intros H. destruct (stage1_done_run _ _ _ _ _ _ H) as [H1 _].
  split; [apply iterencode_plain|].
  exists (stage2_prompt (json_dumps parsed)). rewrite H1. split; [reflexivity|].
  unfold stage2_prompt. destruct templates_plain as [Hb Ha].
  rewrite !forallb_app, Hb, Ha. unfold json_dumps.
  now rewrite iterencode_plain.
Qed.

(** X8 — the serialized value determines the parsed value: two Stage-1
    outputs (texts of Unicode scalar values) that lead to the same
    artifact were parsed to the same value. *)
Theorem artifact_determines_value {F : PyFloat} {L : PyFloatLaws F} {Lim : PyLimits}
    (raw1 raw2 : pystr) (parsed1 parsed2 : value) :
  scalar raw1 -> scalar raw2 ->
  json_loads raw1 = Loaded parsed1 -> json_loads raw2 = Loaded parsed2 ->
  json_dumps parsed1 = json_dumps parsed2 -> parsed1 = parsed2.
Proof.
  intros S1 S2 H1 H2 E.
  pose proof (json_loads_round_trip _ _ S1 H1) as R1.
  pose proof (json_loads_round_trip _ _ S2 H2) as R2.
  rewrite E in R1. congruence.
Qed.

Lemma stage2_prompt_is_ascii_witness :
  let raw := py "[" ++ dq ++ [0xe9; 0x1f600] ++ dq ++ py "]" in
  let provider := scripted [Responds (Some raw)] in
  let parsed := VList [VStr [0xe9; 0x1f600]] in
  forallb is_plain (json_dumps parsed) = true
  /\ exists prompt,
       option_map req_contents
         (nth_error (run_calls provider report_txt (py "text/plain") empty_world) 1)
       = Some [PartText prompt]
       /\ forallb is_plain prompt = true.
Proof.
  apply (@stage2_prompt_is_ascii DecimalFloat DecimalFloatLaws DefaultLimits
           (scripted [Responds (Some (py "[" ++ dq ++ [0xe9; 0x1f600] ++ dq ++ py "]"))])
           report_txt (py "text/plain") empty_world
           (py "[" ++ dq ++ [0xe9; 0x1f600] ++ dq ++ py "]")
           (VList [VStr [0xe9; 0x1f600]])).
  repeat split; reflexivity.
Defined.

Lemma artifact_determines_value_witness :
  VList [VInt 1; VInt 2] = VList [VInt 1; VInt 2].
Proof.
  apply (@artifact_determines_value DecimalFloat DecimalFloatLaws DefaultLimits
           array_output (py " [1,2] ")
           (VList [VInt 1; VInt 2]) (VList [VInt 1; VInt 2]));
    reflexivity.
Defined.

(** ** Texts that do not start a JSON value *)

Lemma strip_prefix_head (a : N) (p : pystr) (c : N) (t : pystr) :
  (c =? a) = false -> strip_prefix (a :: p) (c :: t) = None.
Proof. intros H. cbn [strip_prefix]. now rewrite N.eqb_sym, H. Qed.

Section BadStart.
Context {F : PyFloat} {Lim : PyLimits}.

Lemma scan_once_bad_start (fuel depth : nat) (c : N) (t : pystr) :
  value_start c = false -> scan_once (S fuel) depth (c :: t) = DecodeError.
Proof.
  unfold value_start. intros H.
  repeat (apply orb_false_iff in H; destruct H as [H ?]).
  cbn [scan_once]. rewrite H.
  repeat match goal with E : (c =? _) = false |- _ => rewrite E; clear E end.
  change (py "null") with (110 :: py "ull").
  change (py "true") with (116 :: py "rue").
  change (py "false") with (102 :: py "alse").
  rewrite !strip_prefix_head by assumption.
  unfold scan_number, match_number, match_integer, match_sign.
  assert (E0 : (c =? 48) = false).
  { destruct (N.eqb_spec c 48) as [->|]; [discriminate|reflexivity]. }
  repeat match goal with E : _ = false |- _ => rewrite E end.
  change (py "NaN") with (78 :: py "aN").
  change (py "Infinity") with (73 :: py "nfinity").
  change (py "-Infinity") with (45 :: py "Infinity").
  now rewrite !strip_prefix_head by assumption.
Qed.

Lemma json_loads_bad_start (raw : pystr) :
  match skip_ws raw with
  | [] => True
  | c :: _ => value_start c = false
  end ->
  json_loads raw = JSONDecodeError.
Proof.
  intros H. unfold json_loads. destruct (startswith [0xfeff] raw); [reflexivity|].
  destruct (skip_ws raw) as [|c t]; [reflexivity|].
  now rewrite scan_once_bad_start.
Qed.

(** X9 — a Stage-1 output whose first character after white space
    cannot start a JSON value (a Markdown code fence, a sentence of
    introduction), or which is white space only, is rejected: the chain
    shows the error and the raw output and returns [None] after its one
    request. *)
Theorem leading_text_fails_stage1 (provider : Provider)
    (uploaded_file : UploadedFile) (file_mime_type : pystr) (w : World)
    (raw : pystr) :
  truthy (stage1_output provider uploaded_file file_mime_type w) = Some raw ->
  match skip_ws raw with
  | [] => True
  | c :: _ => value_start c = false
  end ->
  run_result provider uploaded_file file_mime_type w = Return None
  /\ run_calls provider uploaded_file file_mime_type w
     = [stage1_request uploaded_file file_mime_type]
  /\ run_ui provider uploaded_file file_mime_type w
     = [StError (py "Stage 1 failed: Gemini did not return valid JSON. Check document structure.");
        StCode raw (py "json")].
Proof.
  intros H1 H2. apply run_tree.
  apply tree_stage1_not_parseable with (raw := raw); [exact H1|].
  now apply json_loads_bad_start.
Qed.

End BadStart.

Lemma leading_text_fails_stage1_witness :
  let raw := py "```json" ++ [LF] ++ py "{}" ++ [LF] ++ py "```" in
  let provider := scripted [Responds (Some raw)] in
  run_result provider report_txt (py "text/plain") empty_world = Return None
  /\ run_calls provider report_txt (py "text/plain") empty_world
     = [stage1_request report_txt (py "text/plain")]
  /\ run_ui provider report_txt (py "text/plain") empty_world
     = [StError (py "Stage 1 failed: Gemini did not return valid JSON. Check document structure.");
        StCode raw (py "json")].
Proof.
  apply (@leading_text_fails_stage1 DecimalFloat DefaultLimits
           (scripted [Responds (Some (py "```json" ++ [LF] ++ py "{}" ++ [LF] ++ py "```"))])
           report_txt (py "text/plain") empty_world
           (py "```json" ++ [LF] ++ py "{}" ++ [LF] ++ py "```")).
  - reflexivity.
  - reflexivity.
Defined.

(** ** The page *)

Lemma before_first_dot_spec (name : pystr) :
  forallb (fun c => negb (c =? DOT)) (before_first_dot name) = true
  /\ (name = before_first_dot name
      \/ exists rest, name = before_first_dot name ++ DOT :: rest).
Proof.
  induction name as [|c r [IH1 IH2]]; cbn [before_first_dot].
  - split; [reflexivity|now left].
  - destruct (N.eqb_spec c DOT) as [->|Hc].
    + split; [reflexivity|]. right. now exists r.
    + split.
      * cbn [forallb]. rewrite IH1.
        destruct (N.eqb_spec c DOT); [contradiction|reflexivity].
      * destruct IH2 as [E|[rest E]].
        -- left. now f_equal.
        -- right. exists rest. cbn [app]. now f_equal.
Qed.

Lemma count_occ_no_dot (s : pystr) :
  forallb (fun c => negb (c =? DOT)) s = true -> count_occ N.eq_dec s DOT = 0%nat.
Proof.
  induction s as [|c s IH]; [reflexivity|]. cbn [forallb]. intros H.
  apply andb_true_iff in H as [Hc Hs]. apply negb_true_iff, N.eqb_neq in Hc.
  rewrite count_occ_cons_neq by exact Hc. now apply IH.
Qed.

(** X10 — the name of the downloaded report is the fixed prefix, the
    uploaded name up to its first dot (all of it when it has none,
    nothing when it begins with one) and [.txt]: whatever the uploaded
    name, it has exactly one dot. *)
Theorem download_name_has_one_dot (name : pystr) :
  exists stem,
    download_file_name name = py "Executive_Analysis_" ++ stem ++ py ".txt"
    /\ (name = stem \/ exists rest, name = stem ++ DOT :: rest)
    /\ forallb (fun c => negb (c =? DOT)) stem = true
    /\ count_occ N.eq_dec (download_file_name name) DOT = 1%nat.
Proof.
  destruct (before_first_dot_spec name) as [H1 H2].
  exists (before_first_dot name). split; [reflexivity|]. split; [exact H2|].
  split; [exact H1|].
  unfold download_file_name. rewrite !count_occ_app, (count_occ_no_dot _ H1).
  reflexivity.
Qed.

Section PageFacts.
Context {F : PyFloat} {Lim : PyLimits}.
Variable provider : Provider.

Lemma run_extends (uploaded_file : UploadedFile) (file_mime_type : pystr) (w : World) :
  run provider uploaded_file file_mime_type w
  = (run_result provider uploaded_file file_mime_type w,
     {| calls := calls w ++ run_calls provider uploaded_file file_mime_type w;
        ui := ui w ++ run_ui provider uploaded_file file_mime_type w |}).
Proof.
  destruct (chain_tree provider uploaded_file file_mime_type w) as [[r cs] es] eqn:T.
  destruct (run_tree _ _ _ _ _ _ _ T) as (-> & -> & ->).
  unfold run. now rewrite chain_tree_spec, T.
Qed.

Lemma page_clicked (uploaded_file : UploadedFile) (w : World) :
  page provider (Some uploaded_file) true w
  = (match run_result provider uploaded_file (mime_type_of uploaded_file) w with
     | Return (Some data) =>
         Return (page_top ++ [run_button] ++ results_section data uploaded_file)
     | Return None => Return (page_top ++ [run_button])
     | Uncaught => Uncaught
     end,
     {| calls := calls w
                 ++ run_calls provider uploaded_file (mime_type_of uploaded_file) w;
        ui := ui w
              ++ run_ui provider uploaded_file (mime_type_of uploaded_file) w |}).
Proof.
  unfold page, execute_analysis, mbind.
  fold (run provider uploaded_file (mime_type_of uploaded_file) w).
  rewrite run_extends.
  destruct (run_result provider uploaded_file (mime_type_of uploaded_file) w)
    as [[data|]|]; reflexivity.
Qed.

Lemma client_cases (lookup : SecretLookup) (construct : pystr -> Construction)
    (w : World) :
  ((exists api_key, lookup = SecretFound api_key /\ construct api_key = Constructed)
   /\ get_gemini_client lookup construct w = (Return true, w))
  \/ ((forall api_key, lookup = SecretFound api_key -> construct api_key <> Constructed)
      /\ exists message,
           get_gemini_client lookup construct w
           = (Return false, {| calls := calls w; ui := ui w ++ [StError message] |})).
Proof.
  unfold get_gemini_client. destruct lookup as [api_key| |e].
  - destruct (construct api_key) as [|e] eqn:E.
    + left. split; [now exists api_key|reflexivity].
    + right. split; [intros k Hk; inversion Hk; subst; congruence|].
      eexists. reflexivity.
  - right. split; [discriminate|]. eexists. reflexivity.
  - right. split; [discriminate|]. eexists. reflexivity.
Qed.

End PageFacts.

(** X11 — a run of the script sends a request to the provider exactly
    when the client could be built, a file is uploaded and the button
    is clicked; earlier requests are kept as they are.  When the client
    cannot be built, one error is shown and nothing of the page is
    drawn. *)
Theorem requests_need_client_file_and_click {F : PyFloat} {Lim : PyLimits}
    (provider : Provider)
    (lookup : SecretLookup) (construct : pystr -> Construction)
    (uploaded : option UploadedFile) (clicked : bool) (w : World) :
  let out := script provider lookup construct uploaded clicked w in
  (exists sent, calls (snd out) = calls w ++ sent
                /\ (sent <> [] <->
                    (exists api_key, lookup = SecretFound api_key
                                     /\ construct api_key = Constructed)
                    /\ uploaded <> None /\ clicked = true))
  /\ ((forall api_key, lookup = SecretFound api_key ->
                       construct api_key <> Constructed) ->
      exists message,
        out = (Return [], {| calls := calls w; ui := ui w ++ [StError message] |})).
Proof.
  cbn zeta. unfold script, mbind.
  destruct (client_cases lookup construct w) as [[Hk ->]|[Hn [message ->]]].
  - split.
    + destruct uploaded as [f|]; [destruct clicked|].
      * rewrite page_clicked. cbn [snd calls].
        exists (run_calls provider f (mime_type_of f) w). split; [reflexivity|].
        split; [intros _; repeat split; [exact Hk|discriminate]|]. intros _.
        destruct (run_calls_prefix provider f (mime_type_of f) w)
          as (k & a1 & a2 & Hk' & ->).
        destruct k; [lia|discriminate].
      * exists []. cbn. split; [now rewrite List.app_nil_r|].
        split; [congruence|]. intros (_ & _ & H). discriminate.
      * exists []. cbn. split; [now rewrite List.app_nil_r|].
        split; [congruence|]. intros (_ & H & _). congruence.
    + intros Hn. destruct Hk as (k & Hl & Hc). now destruct (Hn k Hl).
  - split.
    + exists []. cbn. split; [now rewrite List.app_nil_r|].
      split; [congruence|]. intros ((k & Hl & Hc) & _). now destruct (Hn k Hl).
    + intros _. now exists message.
Qed.


(** ** What a failed run shows *)

Section Messages.
Context {F : PyFloat} {Lim : PyLimits}.
Variable provider : Provider.
Variable uploaded_file : UploadedFile.
Variable file_mime_type : pystr.
Variable w : World.

Lemma quiet_events (history : list Request) (rq : Request) :
  (forall e, provider history rq <> Raises e) ->
  exception_events (provider history rq) = [].
Proof.
  intros H. destruct (provider history rq) as [e|t] eqn:E; [|reflexivity].
  now destruct (H e).
Qed.

Lemma first_failure_ui (k : nat) :
  (forall history rq e, provider history rq <> Raises e) ->
  first_failure provider uploaded_file file_mime_type w k ->
  (forall raw,
      truthy (stage1_output provider uploaded_file file_mime_type w) = Some raw ->
      json_loads raw <> JSONDecodeError) ->
  run_ui provider uploaded_file file_mime_type w
  = firstn (k - 1)
      [StSuccess (py "Stage 1 Complete: Structured Data Extracted.");
       StSuccess (py "Stage 2 Complete: Analysis Ready.")].
Proof.
  intros Hq H Hj. destruct H as [H|raw H1 H2|raw parsed H1 H2|raw parsed s2 H1 H2].
  - destruct (run_tree _ _ _ _ _ _ _ (tree_stage1_no_output _ _ _ _ H)) as (_ & _ & ->).
    now rewrite quiet_events by apply Hq.
  - now destruct (Hj raw H1).
  - destruct (run_tree _ _ _ _ _ _ _ (tree_stage2_no_output _ _ _ _ _ _ H1 H2))
      as (_ & _ & ->).
    now rewrite quiet_events by apply Hq.
  - pose proof (tree_stage2_done _ _ _ _ _ _ _ H1) as T. cbn zeta in T.
    unfold stage3_output in H2. rewrite H2 in T.
    destruct (run_tree _ _ _ _ _ _ _ T) as (_ & _ & ->).
    now rewrite quiet_events by apply Hq.
Qed.

End Messages.

(** X13 — a stage that answers without raising but with no text, or
    with the empty text, ends the run without any error message: the
    chain returns [None] and all that has been shown is the success
    message of each earlier stage.  (The one error message of the chain
    is that of a Stage-1 output that does not parse.) *)
Theorem empty_answer_fails_silently {F : PyFloat} {Lim : PyLimits}
    (provider : Provider)
    (uploaded_file : UploadedFile) (file_mime_type : pystr) (w : World) (k : nat) :
  (forall history rq e, provider history rq <> Raises e) ->
  first_failure provider uploaded_file file_mime_type w k ->
  (forall raw,
      truthy (stage1_output provider uploaded_file file_mime_type w) = Some raw ->
      json_loads raw <> JSONDecodeError) ->
  run_result provider uploaded_file file_mime_type w = Return None
  /\ run_ui provider uploaded_file file_mime_type w
     = firstn (k - 1)
         [StSuccess (py "Stage 1 Complete: Structured Data Extracted.");
          StSuccess (py "Stage 2 Complete: Analysis Ready.")].
Proof.
  intros Hq H Hj. split.
  - now destruct (first_failure_run _ _ _ _ _ H).
  - now apply first_failure_ui.
Qed.

Lemma empty_answer_fails_silently_witness :
  let provider := scripted [Responds (Some array_output); Responds (Some [])] in
  run_result provider report_txt (py "text/plain") empty_world = Return None
  /\ run_ui provider report_txt (py "text/plain") empty_world
     = [StSuccess (py "Stage 1 Complete: Structured Data Extracted.")].
Proof.
  apply (@empty_answer_fails_silently DecimalFloat DefaultLimits
           (scripted [Responds (Some array_output); Responds (Some [])])
           report_txt (py "text/plain") empty_world 2).
  - intros history rq e. unfold scripted.
    destruct (length history) as [|[|[|n]]]; discriminate.
  - apply stage2_no_output with (raw := array_output) (parsed := VList [VInt 1; VInt 2]).
    + repeat split; reflexivity.
    + reflexivity.
  - intros raw H.
    assert (E : raw = array_output) by (symmetry; injection H; auto).
    rewrite E. discriminate.
Defined.

(** ** Objects *)

Section DictFacts.
Context {A : Type}.

Lemma dict_get_set_same (k : pystr) (v : A) (d : list (pystr * A)) :
  dict_get k (dict_set k v d) = Some v.
Proof.
  induction d as [|[k' v'] d IH]; cbn [dict_set dict_get].
  - now rewrite str_eqb_refl.
  - destruct (str_eqb k k') eqn:E; cbn [dict_get].
    + now rewrite str_eqb_refl.
    + now rewrite E.
Qed.

Lemma dict_get_set_other (k k' : pystr) (v : A) (d : list (pystr * A)) :
  str_eqb k k' = false -> dict_get k (dict_set k' v d) = dict_get k d.
Proof.
  intros H. induction d as [|[k0 v0] d IH]; cbn [dict_set dict_get].
  - now rewrite H.
  - destruct (str_eqb k' k0) eqn:E; cbn [dict_get].
    + apply str_eqb_eq in E. subst k0. now rewrite H.
    + now rewrite IH.
Qed.

Lemma dict_get_app (k : pystr) (l l' : list (pystr * A)) :
  dict_get k (l ++ l')
  = match dict_get k l with
    | Some v => Some v
    | None => dict_get k l'
    end.
Proof.
  induction l as [|[k0 v0] l IH]; cbn [app dict_get]; [reflexivity|].
  now destruct (str_eqb k k0).
Qed.

Lemma dict_get_fold (k : pystr) (pairs acc : list (pystr * A)) :
  dict_get k (fold_left (fun d kv => dict_set (fst kv) (snd kv) d) pairs acc)
  = match dict_get k (rev pairs) with
    | Some v => Some v
    | None => dict_get k acc
    end.
Proof.
  revert acc; induction pairs as [|[k0 v0] pairs IH]; intros acc; [reflexivity|].
  cbn [fold_left rev fst snd]. rewrite IH, dict_get_app. cbn [dict_get].
  destruct (dict_get k (rev pairs)); [reflexivity|].
  destruct (str_eqb k k0) eqn:E.
  - apply str_eqb_eq in E. subst k0. apply dict_get_set_same.
  - now apply dict_get_set_other.
Qed.

End DictFacts.

(** X14 — an object of the Stage-1 output whose text repeats a key is
    read as Python reads it: each key is kept once, and the value
    found under a key is the one of the last pair of the text with
    that key. *)
Theorem repeated_key_last_wins {A : Type} (pairs : list (pystr * A)) (k : pystr) :
  dict_get k (dict_of_pairs pairs) = dict_get k (rev pairs)
  /\ NoDup (map fst (dict_of_pairs pairs))
  /\ (forall key, In key (map fst (dict_of_pairs pairs)) <-> In key (map fst pairs)).
Proof.
  split; [|split].
  - unfold dict_of_pairs. rewrite dict_get_fold.
    now destruct (dict_get k (rev pairs)).
  - apply distinct_NoDup.
    refine (proj1 (dict_of_pairs_inv A (fun _ => True) pairs _)).
    apply Forall_forall. intros x _. exact I.
  - intros key. unfold dict_of_pairs.
    assert (G : forall acc : list (pystr * A),
               In key (map fst (fold_left (fun d kv => dict_set (fst kv) (snd kv) d)
                                  pairs acc))
               <-> In key (map fst acc) \/ In key (map fst pairs)).
    { induction pairs as [|[k0 v0] pairs IH]; intros acc; cbn [fold_left map fst snd].
      - cbn. tauto.
      - rewrite IH.
        assert (S : In key (map fst (dict_set k0 v0 acc))
                    <-> In key (map fst acc) \/ k0 = key).
        { clear IH. induction acc as [|[k1 v1] acc IHa]; cbn [dict_set map fst].
          - cbn. tauto.
          - destruct (str_eqb k0 k1) eqn:E; cbn [map fst In].
            + apply str_eqb_eq in E. subst k1. tauto.
            + rewrite IHa. tauto. }
        rewrite S. cbn [In]. tauto. }
    rewrite G. cbn. tauto.
Qed.

(** X15 — the value parsed from a Stage-1 output (a text of Unicode
    scalar values) is well formed at every depth: in each object the
    keys are distinct, and no string holds a code point beyond the
    Unicode range or a high surrogate directly followed by a low one. *)
Theorem parsed_value_is_well_formed {F : PyFloat} {Lim : PyLimits}
    (raw : pystr) (parsed : value) :
  scalar raw -> json_loads raw = Loaded parsed ->
  well_formed parsed = true
  /\ (forall d, parsed = VDict d ->
        NoDup (map fst d) /\ Forall (fun kv => str_ok (fst kv) = true) d).
Proof.
  intros Hs Hp. pose proof (json_loads_well_formed raw parsed Hs Hp) as W.
  split; [exact W|]. intros d ->. cbn [well_formed] in W.
  apply andb_true_iff in W as [W1 W2]. split; [now apply distinct_NoDup|].
  apply Forall_forall. intros kv Hin.
  rewrite forallb_forall in W2. specialize (W2 kv Hin).
  now apply andb_true_iff in W2 as [W2 _].
Qed.

Lemma parsed_value_is_well_formed_witness :
  let parsed := VDict [(py "a", VInt 2)] in
  well_formed parsed = true
  /\ (forall d, parsed = VDict d ->
        NoDup (map fst d) /\ Forall (fun kv => str_ok (fst kv) = true) d).
Proof.
  apply (@parsed_value_is_well_formed DecimalFloat DefaultLimits
           (py "{" ++ q "a" ++ py ": 1, " ++ q "a" ++ py ": 2}")
           (VDict [(py "a", VInt 2)])).
  - reflexivity.
  - reflexivity.
Defined.
